(** * Wave-resonance indexing and search: a shallow embedding

    The Python sources under [tools/] are embedded as Rocq functions:
      - [library_ingestion.py]         : [WaveTransformer], [LibraryProcessor],
                                         [Mem8Ingester]
      - [library_ingestion_qdrant.py]  : [QdrantIngester], [InteractiveSearcher]
      - [qdrant_client_wrapper.py]     : [QdrantWaveClient]
      - [test_library_search.py]       : [WaveSearchEngine], [Numeric]

    Conventions of the embedding.
      - A Python [float] is a real number of the Standard Library ([R]); the
        rounding of IEEE-754 arithmetic, infinities and NaN are not modelled.
        [np.cos] is [cos], [np.pi] is [PI].  Where rounding decides a
        property, the query-time scorer is embedded once more over an
        arithmetic that is a parameter ([Numeric]): it is read on binary64
        numbers ([Binary64], the kernel's floats) and on the reals with a
        rounding after every operation.
      - A Python exception ([TypeError] on [None[...]], [KeyError],
        [IndexError]) is the result [None] of the [option] monad.
      - A [dict] is an association list in insertion order ([PyDict]).
      - File output, printing, hashing and the embedding model are outside
        the embedding: functions return what they would write. *)

From Stdlib Require Import Reals Lra Lia List String ZArith Bool Arith.
From Stdlib Require Import Sorting.Sorted Sorting.Permutation.
From Stdlib Require Floats.PrimFloat Numbers.Cyclic.Int63.Uint63.
Import ListNotations.
Open Scope string_scope.
Open Scope list_scope.
Open Scope R_scope.

#[local] Set Warnings "-abstract-large-number".

(** ** Comparisons on floats, as booleans *)

Definition Rltb (x y : R) : bool := if Rlt_dec x y then true else false.
Definition Rgtb (x y : R) : bool := Rltb y x.
Definition Rgeb (x y : R) : bool := if Rge_dec x y then true else false.
Definition Reqb (x y : R) : bool := if Req_dec_T x y then true else false.

(** ** Exceptions *)

Definition bind {A B : Type} (m : option A) (k : A -> option B) : option B :=
  match m with
  | Some a => k a
  | None => None
  end.

Notation "x <- m ;; k" := (bind m (fun x => k))
  (at level 61, m at next level, right associativity).

(** [for i in range(n): score += f(i)], where [f] may raise. *)
Fixpoint accumulate (f : nat -> option R) (indices : list nat) (score : R)
  : option R :=
  match indices with
  | [] => Some score
  | i :: rest => c <- f i ;; accumulate f rest (score + c)
  end.

(** ** Python containers *)

Module PyDict.

Definition dict (V : Type) : Type := list (string * V).

Fixpoint get {V} (k : string) (d : dict V) : option V :=
  match d with
  | [] => None
  | (k', v) :: rest => if String.eqb k k' then Some v else get k rest
  end.

Definition mem {V} (k : string) (d : dict V) : bool :=
  match get k d with Some _ => true | None => false end.

(** [d[k] = v]: an existing key keeps its place, a new key goes last. *)
Fixpoint set {V} (k : string) (v : V) (d : dict V) : dict V :=
  match d with
  | [] => [(k, v)]
  | (k', v') :: rest =>
      if String.eqb k k' then (k', v) :: rest else (k', v') :: set k v rest
  end.

(** [dict(pairs)]: later pairs overwrite earlier ones. *)
Definition of_pairs {V} (pairs : list (string * V)) : dict V :=
  fold_left (fun d kv => set (fst kv) (snd kv) d) pairs [].

End PyDict.

(** [sorted(l, key=..., reverse=True)] and [l.sort(key=..., reverse=True)]:
    a stable sort, descending by key (elements with equal keys keep their
    original order). *)
Fixpoint insert_desc {A} (key : A -> R) (x : A) (l : list A) : list A :=
  match l with
  | [] => [x]
  | y :: l' => if Rltb (key x) (key y) then y :: insert_desc key x l' else x :: l
  end.

Definition sort_desc {A} (key : A -> R) (l : list A) : list A :=
  fold_right (insert_desc key) [] l.

(** [l[:k]] for an [int] k (a negative k counts from the end). *)
Definition slice_to {A} (k : Z) (l : list A) : list A :=
  if (k <? 0)%Z then firstn (Z.to_nat (Z.of_nat (List.length l) + k)) l
  else firstn (Z.to_nat k) l.

(** ** Data model *)

(** An entry [(j, label)] of [wave["harmonics"][i]]. *)
Definition HarmonicTag : Type := (nat * string)%type.

(** The wave dictionary.  [WaveTransformer.vector_to_wave] builds all four
    keys; [WaveSearchEngine.vector_to_wave] builds no ["harmonics"] key,
    which is [harmonics = None]. *)
Record WavePattern : Type := {
  frequencies : list R;
  amplitudes : list R;
  phases : list R;
  harmonics : option (list (list HarmonicTag))
}.

(** [@dataclass LibraryDocument] (the free-form [metadata] dictionary is
    left out); the search engine reads the same fields back from JSON. *)
Record LibraryDocument : Type := {
  id : string;
  path : string;
  title : string;
  content : string;
  doc_type : string;
  category : string;
  embedding : option (list R);
  wave_pattern : option WavePattern;
  emotional_valence : R;
  importance : R;
  timestamp : string
}.

(** [@dataclass SearchContext] *)
Record SearchContext : Type := {
  emotional_state : string;
  truth_amplification : R;
  vulnerability_coefficient : R;
  harmonic_preference : string
}.

(** [SearchContext()] *)
Definition default_context : SearchContext :=
  {| emotional_state := "focused";
     truth_amplification := 1.0;
     vulnerability_coefficient := 0.5;
     harmonic_preference := "balanced" |}.

(** ** library_ingestion.py: class WaveTransformer *)

Module WaveTransformer.

(** [freq = min(20 + i * 100, 20000)], a Python [int]. *)
Definition position_frequency (i : nat) : Z :=
  Z.min (20 + Z.of_nat i * 100) 20000.

(** The [if / elif / elif] on the ratio. *)
Definition interval_of (ratio : R) : option string :=
  if Rltb (Rabs (ratio - 2.0)) 0.1 then Some "octave"
  else if Rltb (Rabs (ratio - 1.5)) 0.1 then Some "fifth"
  else if Rltb (Rabs (ratio - 1.33)) 0.1 then Some "fourth"
  else None.

(** [for j, other_freq in enumerate(wave["frequencies"][:i])] *)
Fixpoint tag_loop (freq : R) (j : nat) (others : list R)
    (harmonics : list HarmonicTag) : list HarmonicTag :=
  match others with
  | [] => harmonics
  | other_freq :: rest =>
      let ratio := if Rgtb other_freq 0 then freq / other_freq else 0 in
      tag_loop freq (S j) rest
        match interval_of ratio with
        | Some label => harmonics ++ [(j, label)]
        | None => harmonics
        end
  end.

(** [for i, val in enumerate(vector)], on the four lists of [wave]. *)
Fixpoint vector_to_wave_loop (i : nat) (vector : list R)
    (fs amps phs : list R) (hs : list (list HarmonicTag)) : WavePattern :=
  match vector with
  | [] =>
      {| frequencies := fs; amplitudes := amps; phases := phs;
         harmonics := Some hs |}
  | val :: rest =>
      let freq := IZR (position_frequency i) in
      let fs' := fs ++ [freq] in
      let amps' := amps ++ [Rabs val] in
      let phs' := phs ++ [if Rgeb val 0 then 0 else PI] in
      let harmonics := tag_loop freq 0 (firstn i fs') [] in
      vector_to_wave_loop (S i) rest fs' amps' phs' (hs ++ [harmonics])
  end.

Definition vector_to_wave (vector : list R) : WavePattern :=
  vector_to_wave_loop 0 vector [] [] [] [].

(** [wave["harmonics"][i]] *)
Definition harmonics_at (wave : WavePattern) (i : nat)
  : option (list HarmonicTag) :=
  hs <- harmonics wave ;; nth_error hs i.

(** The body of [if h1[0] == h2[0]]. *)
Definition bonus_step (h1 h2 : HarmonicTag) (harmonic_bonus : R) : R :=
  if Nat.eqb (fst h1) (fst h2) then
    if String.eqb (snd h1) "octave" then harmonic_bonus * 1.5
    else if String.eqb (snd h1) "fifth" then harmonic_bonus * 1.3
    else if String.eqb (snd h1) "fourth" then harmonic_bonus * 1.2
    else harmonic_bonus
  else harmonic_bonus.

(** [for h2 in wave2["harmonics"][i]] *)
Definition inner_bonus (h1 : HarmonicTag) (h2s : list HarmonicTag)
    (harmonic_bonus : R) : R :=
  fold_left (fun bonus h2 => bonus_step h1 h2 bonus) h2s harmonic_bonus.

(** [for h1 in wave1["harmonics"][i]]; [wave2["harmonics"][i]] is
    evaluated once per [h1], so not at all when there is no [h1]. *)
Fixpoint outer_bonus (h1s : list HarmonicTag) (wave2 : WavePattern)
    (i : nat) (harmonic_bonus : R) : option R :=
  match h1s with
  | [] => Some harmonic_bonus
  | h1 :: rest =>
      h2s <- harmonics_at wave2 i ;;
      outer_bonus rest wave2 i (inner_bonus h1 h2s harmonic_bonus)
  end.

(** One iteration of [for i in range(n)]: the summand. *)
Definition component (wave1 wave2 : WavePattern) (i : nat) : option R :=
  f1 <- nth_error (frequencies wave1) i ;;
  f2 <- nth_error (frequencies wave2) i ;;
  let freq_diff := Rabs (f1 - f2) in
  let freq_match := 1.0 / (1.0 + freq_diff / 100) in
  a1 <- nth_error (amplitudes wave1) i ;;
  a2 <- nth_error (amplitudes wave2) i ;;
  let amp_corr := 1.0 - Rabs (a1 - a2) in
  p1 <- nth_error (phases wave1) i ;;
  p2 <- nth_error (phases wave2) i ;;
  let phase_diff := Rabs (p1 - p2) in
  let phase_coherence := cos phase_diff in
  h1s <- harmonics_at wave1 i ;;
  harmonic_bonus <- outer_bonus h1s wave2 i 1.0 ;;
  Some (freq_match * amp_corr * phase_coherence * harmonic_bonus).

Definition calculate_resonance (wave1 wave2 : WavePattern) : option R :=
  let n := Nat.min (List.length (frequencies wave1)) (List.length (frequencies wave2)) in
  score <- accumulate (component wave1 wave2) (seq 0 n) 0.0 ;;
  Some (if (0 <? n)%nat then score / INR n else 0.0).

(** The call [calculate_resonance(doc.wave_pattern, other.wave_pattern)]
    on the [Optional[Dict]] fields: [None["frequencies"]] raises. *)
Definition calculate_resonance_opt (wave1 wave2 : option WavePattern)
  : option R :=
  w1 <- wave1 ;; w2 <- wave2 ;; calculate_resonance w1 w2.

End WaveTransformer.

(** ** Grouping by category (both ingesters)

    [categories = {}; for doc in documents: ...append(doc)] *)
Fixpoint group_by_category (documents : list LibraryDocument)
    (categories : PyDict.dict (list LibraryDocument))
  : PyDict.dict (list LibraryDocument) :=
  match documents with
  | [] => categories
  | doc :: rest =>
      let categories' :=
        if PyDict.mem (category doc) categories then categories
        else PyDict.set (category doc) [] categories in
      let docs :=
        match PyDict.get (category doc) categories' with
        | Some l => l
        | None => []
        end in
      group_by_category rest (PyDict.set (category doc) (docs ++ [doc]) categories')
  end.

(** ** library_ingestion.py: class Mem8Ingester *)

Module Mem8Ingester.

(** An entry of [index["documents"]] (without [wave_hash], a SHA-256
    digest of the JSON text). *)
Record DocEntry : Type := {
  entry_id : string;
  entry_title : string;
  entry_path : string;
  entry_importance : R;
  entry_emotional_valence : R
}.

(** The dictionary [index] written to [<category>_index.json]. *)
Record CategoryIndex : Type := {
  index_category : string;
  document_count : nat;
  documents : list DocEntry;
  resonance_graph : PyDict.dict (list (string * R))
}.

(** [for j, other_doc in enumerate(docs)] *)
Fixpoint resonances_loop (i : nat) (doc : LibraryDocument) (j : nat)
    (others : list LibraryDocument) (resonances : list (string * R))
  : option (list (string * R)) :=
  match others with
  | [] => Some resonances
  | other_doc :: rest =>
      if negb (Nat.eqb i j) then
        resonance <- WaveTransformer.calculate_resonance_opt
                       (wave_pattern doc) (wave_pattern other_doc) ;;
        resonances_loop i doc (S j) rest
          (if Rgtb resonance 0.5
           then resonances ++ [(id other_doc, resonance)]
           else resonances)
      else resonances_loop i doc (S j) rest resonances
  end.

(** [for i, doc in enumerate(docs)] *)
Fixpoint index_loop (i : nat) (pending docs : list LibraryDocument)
    (index : CategoryIndex) : option CategoryIndex :=
  match pending with
  | [] => Some index
  | doc :: rest =>
      let doc_entry :=
        {| entry_id := id doc; entry_title := title doc;
           entry_path := path doc; entry_importance := importance doc;
           entry_emotional_valence := emotional_valence doc |} in
      resonances <- resonances_loop i doc 0 docs [] ;;
      let graph :=
        match resonances with
        | [] => resonance_graph index
        | _ :: _ =>
            PyDict.set (id doc) (firstn 10 (sort_desc snd resonances))
              (resonance_graph index)
        end in
      index_loop (S i) rest docs
        {| index_category := index_category index;
           document_count := document_count index;
           documents := documents index ++ [doc_entry];
           resonance_graph := graph |}
  end.

(** [for category, docs in categories.items()] *)
Fixpoint category_loop (categories : PyDict.dict (list LibraryDocument))
    (written : list CategoryIndex) : option (list CategoryIndex) :=
  match categories with
  | [] => Some written
  | (category, docs) :: rest =>
      index <- index_loop 0 docs docs
                 {| index_category := category;
                    document_count := List.length docs;
                    documents := [];
                    resonance_graph := [] |} ;;
      category_loop rest (written ++ [index])
  end.

(** The category indices written by [ingest_documents], in order; [None]
    when an exception leaves the method.  ([documents.json] and the master
    index carry no resonance data and are not modelled.) *)
Definition ingest_documents (documents : list LibraryDocument)
  : option (list CategoryIndex) :=
  category_loop (group_by_category documents []) [].

End Mem8Ingester.

(** ** library_ingestion_qdrant.py: class QdrantIngester *)

Module QdrantIngester.

(** [{'target_id': ..., 'resonance': ..., 'category': ...}] *)
Record ResonanceLink : Type := {
  target_id : string;
  resonance : R;
  link_category : string
}.

(** [for j, doc2 in enumerate(docs)], for a [doc1] that has a wave. *)
Fixpoint resonances_loop (category : string) (i : nat) (wave1 : WavePattern)
    (j : nat) (others : list LibraryDocument) (resonances : list ResonanceLink)
  : option (list ResonanceLink) :=
  match others with
  | [] => Some resonances
  | doc2 :: rest =>
      if Nat.eqb i j then resonances_loop category i wave1 (S j) rest resonances
      else
        match wave_pattern doc2 with
        | None => resonances_loop category i wave1 (S j) rest resonances
        | Some wave2 =>
            resonance <- WaveTransformer.calculate_resonance wave1 wave2 ;;
            resonances_loop category i wave1 (S j) rest
              (if Rgtb resonance 0.5
               then resonances ++
                      [{| target_id := id doc2; resonance := resonance;
                          link_category := category |}]
               else resonances)
        end
  end.

(** [for i, doc1 in enumerate(docs)] *)
Fixpoint docs_loop (category : string) (i : nat)
    (pending docs : list LibraryDocument)
    (resonance_data : PyDict.dict (list ResonanceLink))
  : option (PyDict.dict (list ResonanceLink)) :=
  match pending with
  | [] => Some resonance_data
  | doc1 :: rest =>
      match wave_pattern doc1 with
      | None => docs_loop category (S i) rest docs resonance_data
      | Some wave1 =>
          resonances <- resonances_loop category i wave1 0 docs [] ;;
          docs_loop category (S i) rest docs
            match resonances with
            | [] => resonance_data
            | _ :: _ =>
                PyDict.set (id doc1) (firstn 20 (sort_desc resonance resonances))
                  resonance_data
            end
      end
  end.

(** [for category, docs in categories.items()] *)
Fixpoint category_loop (categories : PyDict.dict (list LibraryDocument))
    (resonance_data : PyDict.dict (list ResonanceLink))
  : option (PyDict.dict (list ResonanceLink)) :=
  match categories with
  | [] => Some resonance_data
  | (category, docs) :: rest =>
      data <- docs_loop category 0 docs docs resonance_data ;;
      category_loop rest data
  end.

(** The returned [resonance_data]; [None] when an exception leaves the
    method. *)
Definition create_resonance_indices (documents : list LibraryDocument)
  : option (PyDict.dict (list ResonanceLink)) :=
  category_loop (group_by_category documents []) [].

End QdrantIngester.

(** ** test_library_search.py: class WaveSearchEngine *)

Module WaveSearchEngine.

(** The loaded state of the engine ([self.documents],
    [self.resonance_graph]). *)
Record Engine : Type := {
  documents : PyDict.dict LibraryDocument;
  resonance_graph : PyDict.dict (list (string * R))
}.

(** A dictionary appended to [results] by [search]. *)
Record SearchResult : Type := {
  result_id : string;
  result_title : string;
  result_category : string;
  result_resonance : R;
  result_emotional_valence : R;
  result_preview : string;
  result_path : string
}.

(** The relationship label: a fixed name, or [f"ratio_{ratio:.2f}"]
    (kept as the ratio, its formatting is not modelled). *)
Inductive Relationship : Type :=
| Named (name : string)
| RatioOf (ratio : R).

(** A dictionary appended to [harmonics] by [find_harmonics]. *)
Record HarmonicResult : Type := {
  harmonic_id : string;
  harmonic_title : string;
  harmonic_category : string;
  harmonic_score : R;
  relationship : Relationship
}.

(** [for i, val in enumerate(vector)]: the query wave has no harmonics. *)
Fixpoint vector_to_wave_loop (i : nat) (vector : list R)
    (fs amps phs : list R) : WavePattern :=
  match vector with
  | [] =>
      {| frequencies := fs; amplitudes := amps; phases := phs;
         harmonics := None |}
  | val :: rest =>
      let freq := IZR (Z.min (20 + Z.of_nat i * 100) 20000) in
      vector_to_wave_loop (S i) rest (fs ++ [freq]) (amps ++ [Rabs val])
        (phs ++ [if Rgeb val 0 then 0 else PI])
  end.

Definition vector_to_wave (vector : list R) : WavePattern :=
  vector_to_wave_loop 0 vector [] [] [].

(** The [if / elif / elif] on [context.harmonic_preference]. *)
Definition preference_bonus (context : SearchContext) (freq_ratio : R) : R :=
  if String.eqb (harmonic_preference context) "octaves"
     && Rltb (Rabs (freq_ratio - 2.0)) 0.1 then 2.0
  else if String.eqb (harmonic_preference context) "fifths"
          && Rltb (Rabs (freq_ratio - 1.5)) 0.1 then 1.8
  else if String.eqb (harmonic_preference context) "dissonant"
          && Rltb (Rabs (freq_ratio - 1.414)) 0.1 then 1.5
  else 1.0.

(** The [if / elif / elif] on [context.emotional_state]. *)
Definition modulate (context : SearchContext) (amp_corr component_score : R)
  : R :=
  if String.eqb (emotional_state context) "raw"
  then component_score * (2.0 * truth_amplification context)
  else if String.eqb (emotional_state context) "graceland"
  then component_score * (vulnerability_coefficient context * 3.0)
  else if String.eqb (emotional_state context) "happy"
  then component_score * (if Rgtb amp_corr 0.7 then 1.3 else 0.7)
  else component_score.

(** One iteration of [for i in range(n)]: the summand. *)
Definition component (wave1 wave2 : WavePattern) (context : SearchContext)
    (i : nat) : option R :=
  f1 <- nth_error (frequencies wave1) i ;;
  f2 <- nth_error (frequencies wave2) i ;;
  let freq_diff := Rabs (f1 - f2) in
  let freq_match := 1.0 / (1.0 + freq_diff / 100) in
  a1 <- nth_error (amplitudes wave1) i ;;
  a2 <- nth_error (amplitudes wave2) i ;;
  let amp_corr := 1.0 - Rabs (a1 - a2) in
  p1 <- nth_error (phases wave1) i ;;
  p2 <- nth_error (phases wave2) i ;;
  let phase_diff := Rabs (p1 - p2) in
  let phase_coherence := cos phase_diff in
  let freq_ratio := if Rgtb f2 0 then f1 / f2 else 1 in
  let harmonic_bonus := preference_bonus context freq_ratio in
  let component_score :=
    freq_match * amp_corr * phase_coherence * harmonic_bonus in
  Some (modulate context amp_corr component_score).

Definition calculate_resonance (wave1 wave2 : WavePattern)
    (context : SearchContext) : option R :=
  let n := Nat.min (List.length (frequencies wave1))
                   (List.length (frequencies wave2)) in
  score <- accumulate (component wave1 wave2 context) (seq 0 n) 0.0 ;;
  Some (if (0 <? n)%nat then score / INR n else 0.0).

(** [category_filter and doc['category'] != category_filter] *)
Definition filtered_out (category_filter : option string)
    (doc : LibraryDocument) : bool :=
  match category_filter with
  | Some c => negb (String.eqb c "") && negb (String.eqb (category doc) c)
  | None => false
  end.

(** [for doc_id, doc in self.documents.items()] of [search] *)
Fixpoint score_loop (query_wave : WavePattern) (context : SearchContext)
    (category_filter : option string)
    (items : PyDict.dict LibraryDocument) (results : list SearchResult)
  : option (list SearchResult) :=
  match items with
  | [] => Some results
  | (doc_id, doc) :: rest =>
      if filtered_out category_filter doc
      then score_loop query_wave context category_filter rest results
      else
        match wave_pattern doc with
        | None => score_loop query_wave context category_filter rest results
        | Some wave =>
            resonance <- calculate_resonance query_wave wave context ;;
            let resonance :=
              if String.eqb (emotional_state context) "raw"
                 || String.eqb (emotional_state context) "graceland"
              then resonance * (1.0 + Rabs (emotional_valence doc))
              else resonance in
            let resonance := resonance * (0.5 + importance doc) in
            score_loop query_wave context category_filter rest
              (results ++
                 [{| result_id := doc_id;
                     result_title := title doc;
                     result_category := category doc;
                     result_resonance := resonance;
                     result_emotional_valence := emotional_valence doc;
                     result_preview := String.substring 0 200 (content doc);
                     result_path := path doc |}])
        end
  end.

(** [result['resonance'] *= factor] *)
Definition scale_resonance (result : SearchResult) (factor : R)
  : SearchResult :=
  {| result_id := result_id result;
     result_title := result_title result;
     result_category := result_category result;
     result_resonance := result_resonance result * factor;
     result_emotional_valence := result_emotional_valence result;
     result_preview := result_preview result;
     result_path := result_path result |}.

(** [for result in results[1:]] *)
Fixpoint boost_loop (resonant_docs : PyDict.dict R)
    (rest : list SearchResult) : list SearchResult :=
  match rest with
  | [] => []
  | result :: tl =>
      (if PyDict.mem (result_id result) resonant_docs
       then
         match PyDict.get (result_id result) resonant_docs with
         | Some r => scale_resonance result (1.0 + r * 0.5)
         | None => result
         end
       else result) :: boost_loop resonant_docs tl
  end.

(** The block under [# Apply graph-based re-ranking]. *)
Definition rerank (self : Engine) (context : SearchContext)
    (results : list SearchResult) : list SearchResult :=
  match results with
  | top :: rest =>
      if negb (String.eqb (harmonic_preference context) "balanced") then
        let top_result_id := result_id top in
        match PyDict.get top_result_id (resonance_graph self) with
        | Some neighbours =>
            let resonant_docs := PyDict.of_pairs neighbours in
            sort_desc result_resonance (top :: boost_loop resonant_docs rest)
        | None => results
        end
      else results
  | [] => results
  end.

(** [search], from the query embedding on ([self.model.encode] is
    external). *)
Definition search (self : Engine) (query_embedding : list R)
    (context : option SearchContext) (category_filter : option string)
    (top_k : Z) : option (list SearchResult) :=
  let context :=
    match context with Some c => c | None => default_context end in
  let query_wave := vector_to_wave query_embedding in
  results <- score_loop query_wave context category_filter
               (documents self) [] ;;
  let results := sort_desc result_resonance results in
  let results := rerank self context results in
  Some (slice_to top_k results).

Definition _identify_harmonic_type (freq1 freq2 : R) : Relationship :=
  if Reqb freq1 0 then Named "undefined"
  else
    let ratio := freq2 / freq1 in
    if Rltb (Rabs (ratio - 1.0)) 0.05 then Named "unison"
    else if Rltb (Rabs (ratio - 2.0)) 0.1 then Named "octave"
    else if Rltb (Rabs (ratio - 1.5)) 0.1 then Named "perfect_fifth"
    else if Rltb (Rabs (ratio - 1.33)) 0.1 then Named "perfect_fourth"
    else if Rltb (Rabs (ratio - 1.25)) 0.1 then Named "major_third"
    else if Rltb (Rabs (ratio - 1.2)) 0.1 then Named "minor_third"
    else RatioOf ratio.

(** [harmonic_type in ["all", name]] *)
Definition wants (harmonic_type name : string) : bool :=
  String.eqb harmonic_type "all" || String.eqb harmonic_type name.

(** One iteration of [for i in range(min(len(base_freqs), len(other_freqs)))]:
    the amount added to [harmonic_score]. *)
Definition harmonic_step (harmonic_type : string)
    (base_freqs other_freqs : list R) (i : nat) : option R :=
  b <- nth_error base_freqs i ;;
  ratio <- (if Rgtb b 0
            then o <- nth_error other_freqs i ;; Some (o / b)
            else Some 0) ;;
  Some (if wants harmonic_type "octave" && Rltb (Rabs (ratio - 2.0)) 0.1 then 1
        else if wants harmonic_type "fifth" && Rltb (Rabs (ratio - 1.5)) 0.1 then 0.8
        else if wants harmonic_type "fourth" && Rltb (Rabs (ratio - 1.33)) 0.1 then 0.7
        else 0).

(** The body of [for other_id, other_doc in self.documents.items()] once
    both wave patterns are at hand: the entry appended, if any. *)
Definition harmonic_entry (harmonic_type : string) (base_wave : WavePattern)
    (other_id : string) (other_doc : LibraryDocument)
    (other_wave : WavePattern) : option (option HarmonicResult) :=
  let base_freqs := frequencies base_wave in
  let other_freqs := frequencies other_wave in
  let n := Nat.min (List.length base_freqs) (List.length other_freqs) in
  score <- accumulate (harmonic_step harmonic_type base_freqs other_freqs)
             (seq 0 n) 0 ;;
  if Rgtb score 0 then
    b0 <- nth_error base_freqs 0 ;;
    o0 <- nth_error other_freqs 0 ;;
    Some (Some {| harmonic_id := other_id;
                  harmonic_title := title other_doc;
                  harmonic_category := category other_doc;
                  harmonic_score := score;
                  relationship := _identify_harmonic_type b0 o0 |})
  else Some None.

(** [for other_id, other_doc in self.documents.items()] of
    [find_harmonics] *)
Fixpoint harmonics_loop (doc_id harmonic_type : string)
    (base_wave : WavePattern) (items : PyDict.dict LibraryDocument)
    (found : list HarmonicResult) : option (list HarmonicResult) :=
  match items with
  | [] => Some found
  | (other_id, other_doc) :: rest =>
      if String.eqb other_id doc_id
      then harmonics_loop doc_id harmonic_type base_wave rest found
      else
        match wave_pattern other_doc with
        | None => harmonics_loop doc_id harmonic_type base_wave rest found
        | Some other_wave =>
            entry <- harmonic_entry harmonic_type base_wave other_id
                       other_doc other_wave ;;
            harmonics_loop doc_id harmonic_type base_wave rest
              match entry with
              | Some e => found ++ [e]
              | None => found
              end
        end
  end.

(** [harmonics] after [harmonics.sort(...)], before the final slice. *)
Definition ranked_harmonics (self : Engine) (doc_id harmonic_type : string)
  : option (list HarmonicResult) :=
  match PyDict.get doc_id (documents self) with
  | None => Some []
  | Some base_doc =>
      match wave_pattern base_doc with
      | None => Some []
      | Some base_wave =>
          found <- harmonics_loop doc_id harmonic_type base_wave
                     (documents self) [] ;;
          Some (sort_desc harmonic_score found)
      end
  end.

Definition find_harmonics (self : Engine) (doc_id harmonic_type : string)
  : option (list HarmonicResult) :=
  ranked <- ranked_harmonics self doc_id harmonic_type ;;
  Some (firstn 10 ranked).

End WaveSearchEngine.


(** ** test_library_search.py: the scorer on rounded numbers

    [WaveSearchEngine.calculate_resonance] once more, over an arithmetic
    that is a parameter: read on the reals it is the scorer above, read on
    binary64 numbers it is the scorer as Python runs it, every operation
    rounding its result. *)

Module Numeric.

(** The operations the scorer uses on its numbers. *)
Record Arithmetic : Type := {
  num : Type;
  add : num -> num -> num;
  sub : num -> num -> num;
  mul : num -> num -> num;
  div : num -> num -> num;
  absolute : num -> num;       (* abs(x) *)
  cosine : num -> num;         (* np.cos(x) *)
  less : num -> num -> bool;   (* x < y *)
  of_int : Z -> num            (* an int, or a literal such as 2.0 *)
}.

(** A literal with decimal places, [digits / 10^places]: the number of
    the arithmetic nearest to it. *)
Definition decimal (A : Arithmetic) (digits : Z) (places : nat) : num A :=
  div A (of_int A digits) (of_int A (10 ^ Z.of_nat places)).

(** The reals with a rounding after every operation; [abs] is exact. *)
Definition rounded (rnd cosine : R -> R) : Arithmetic :=
  {| num := R;
     add := fun x y => rnd (x + y);
     sub := fun x y => rnd (x - y);
     mul := fun x y => rnd (x * y);
     div := fun x y => rnd (x / y);
     absolute := Rabs;
     cosine := cosine;
     less := Rltb;
     of_int := fun z => rnd (IZR z) |}.

(** The reals themselves. *)
Definition exact : Arithmetic := rounded (fun x => x) cos.

(** The wave dictionary as the scorer reads it. *)
Record WavePattern (num : Type) : Type := {
  frequencies : list num;
  amplitudes : list num;
  phases : list num
}.

Arguments frequencies {num}.
Arguments amplitudes {num}.
Arguments phases {num}.

(** [@dataclass SearchContext] *)
Record SearchContext (num : Type) : Type := {
  emotional_state : string;
  truth_amplification : num;
  vulnerability_coefficient : num;
  harmonic_preference : string
}.

Arguments emotional_state {num}.
Arguments truth_amplification {num}.
Arguments vulnerability_coefficient {num}.
Arguments harmonic_preference {num}.

Section Scorer.

Variable A : Arithmetic.

(** [for i in range(n): score += f(i)] *)
Fixpoint accumulate (f : nat -> option (num A)) (indices : list nat)
    (score : num A) : option (num A) :=
  match indices with
  | [] => Some score
  | i :: rest => c <- f i ;; accumulate f rest (add A score c)
  end.

(** The [if / elif / elif] on [context.harmonic_preference]. *)
Definition preference_bonus (context : SearchContext (num A))
    (freq_ratio : num A) : num A :=
  if String.eqb (harmonic_preference context) "octaves"
     && less A (absolute A (sub A freq_ratio (of_int A 2))) (decimal A 1 1)
  then of_int A 2
  else if String.eqb (harmonic_preference context) "fifths"
          && less A (absolute A (sub A freq_ratio (decimal A 15 1)))
               (decimal A 1 1)
  then decimal A 18 1
  else if String.eqb (harmonic_preference context) "dissonant"
          && less A (absolute A (sub A freq_ratio (decimal A 1414 3)))
               (decimal A 1 1)
  then decimal A 15 1
  else of_int A 1.

(** The [if / elif / elif] on [context.emotional_state]. *)
Definition modulate (context : SearchContext (num A))
    (amp_corr component_score : num A) : num A :=
  if String.eqb (emotional_state context) "raw"
  then mul A component_score (mul A (of_int A 2) (truth_amplification context))
  else if String.eqb (emotional_state context) "graceland"
  then mul A component_score
         (mul A (vulnerability_coefficient context) (of_int A 3))
  else if String.eqb (emotional_state context) "happy"
  then mul A component_score
         (if less A (decimal A 7 1) amp_corr
          then decimal A 13 1 else decimal A 7 1)
  else component_score.

(** One iteration of [for i in range(n)]: the summand. *)
Definition component (wave1 wave2 : WavePattern (num A))
    (context : SearchContext (num A)) (i : nat) : option (num A) :=
  f1 <- nth_error (frequencies wave1) i ;;
  f2 <- nth_error (frequencies wave2) i ;;
  let freq_diff := absolute A (sub A f1 f2) in
  let freq_match :=
    div A (of_int A 1) (add A (of_int A 1) (div A freq_diff (of_int A 100))) in
  a1 <- nth_error (amplitudes wave1) i ;;
  a2 <- nth_error (amplitudes wave2) i ;;
  let amp_corr := sub A (of_int A 1) (absolute A (sub A a1 a2)) in
  p1 <- nth_error (phases wave1) i ;;
  p2 <- nth_error (phases wave2) i ;;
  let phase_diff := absolute A (sub A p1 p2) in
  let phase_coherence := cosine A phase_diff in
  let freq_ratio :=
    if less A (of_int A 0) f2 then div A f1 f2 else of_int A 1 in
  let harmonic_bonus := preference_bonus context freq_ratio in
  let component_score :=
    mul A (mul A (mul A freq_match amp_corr) phase_coherence) harmonic_bonus in
  Some (modulate context amp_corr component_score).

Definition calculate_resonance (wave1 wave2 : WavePattern (num A))
    (context : SearchContext (num A)) : option (num A) :=
  let n := Nat.min (List.length (frequencies wave1))
                   (List.length (frequencies wave2)) in
  score <- accumulate (component wave1 wave2 context) (seq 0 n) (of_int A 0) ;;
  Some (if (0 <? n)%nat then div A score (of_int A (Z.of_nat n))
        else of_int A 0).

End Scorer.

End Numeric.

(** ** binary64 *)

Module Binary64.

Import PrimFloat.

(** [float(k)] for an int [k] below 2^53. *)
Definition of_int (z : Z) : float :=
  match z with
  | Z0 => 0%float
  | Zpos _ => of_uint63 (Uint63.of_Z z)
  | Zneg p => opp (of_uint63 (Uint63.of_Z (Zpos p)))
  end.

(** [np.pi] *)
Definition pi : float := 0x1.921fb54442d18p+1%float.

(** [np.cos] on the phase differences of transformed vectors, which are 0
    and [np.pi]: [np.cos(0.0)] is 1.0 and [np.cos(np.pi)] is -1.0.  Other
    arguments are outside this table. *)
Definition cos (x : float) : float :=
  if eqb x 0 then 1%float
  else if eqb x pi then (-1)%float
  else nan.

Definition arithmetic : Numeric.Arithmetic :=
  {| Numeric.num := float;
     Numeric.add := add;
     Numeric.sub := sub;
     Numeric.mul := mul;
     Numeric.div := div;
     Numeric.absolute := abs;
     Numeric.cosine := cos;
     Numeric.less := ltb;
     Numeric.of_int := of_int |}.

(** [vector_to_wave([0.30000000000000004, 0.6999999999999998])] *)
Definition query_wave : Numeric.WavePattern float :=
  {| Numeric.frequencies := [20%float; 120%float];
     Numeric.amplitudes := [0x1.3333333333334p-2%float; 0x1.6666666666665p-1%float];
     Numeric.phases := [0%float; 0%float] |}.


(** [SearchContext(emotional_state=state, truth_amplification=1.5)] *)
Definition context (state : string) : Numeric.SearchContext float :=
  {| Numeric.emotional_state := state;
     Numeric.truth_amplification := 0x1.8p+0%float;
     Numeric.vulnerability_coefficient := 0x1p-1%float;
     Numeric.harmonic_preference := "balanced" |}.

(** Eighteen components of which only the first one counts, and that one
    lies in the subnormal range: a frequency difference of 1.7e308 with an
    amplitude difference of 1 - 2^-53. *)
Definition far_wave : Numeric.WavePattern float :=
  {| Numeric.frequencies := 0x1.e42d130773b76p+1023%float :: repeat 20%float 17;
     Numeric.amplitudes := 0x1.fffffffffffffp-1%float :: repeat 1%float 17;
     Numeric.phases := repeat 0%float 18 |}.

Definition still_wave : Numeric.WavePattern float :=
  {| Numeric.frequencies := 0%float :: repeat 20%float 17;
     Numeric.amplitudes := repeat 0%float 18;
     Numeric.phases := repeat 0%float 18 |}.

(** [SearchContext(emotional_state=state)] *)
Definition default_context (state : string) : Numeric.SearchContext float :=
  {| Numeric.emotional_state := state;
     Numeric.truth_amplification := 1%float;
     Numeric.vulnerability_coefficient := 0x1p-1%float;
     Numeric.harmonic_preference := "balanced" |}.

(** The smallest positive number, 2^-1074. *)
Definition least : float := 0x1p-1074%float.

(** The literals [0.1], [0.7], [1.3], [1.414] and [1.8] as Python reads
    them: the binary64 numbers nearest to them. *)
Definition literals : list float :=
  [0x1.999999999999ap-4%float; 0x1.6666666666666p-1%float;
   0x1.4cccccccccccdp+0%float; 0x1.69fbe76c8b439p+0%float;
   0x1.ccccccccccccdp+0%float].



End Binary64.

(** ** Python strings *)

(** [s.startswith(prefix)] *)
Fixpoint starts_with (prefix s : string) : bool :=
  match prefix with
  | EmptyString => true
  | String a prefix' =>
      match s with
      | EmptyString => false
      | String b s' => Ascii.eqb a b && starts_with prefix' s'
      end
  end.

(** [needle in haystack] *)
Fixpoint contains (needle haystack : string) : bool :=
  starts_with needle haystack ||
  match haystack with
  | EmptyString => false
  | String _ rest => contains needle rest
  end.

(** [s[n:]] *)
Fixpoint drop (n : nat) (s : string) : string :=
  match n, s with
  | O, _ => s
  | S n', EmptyString => EmptyString
  | S n', String _ s' => drop n' s'
  end.

(** [x in names] for a list of [str] *)
Definition among (x : string) (names : list string) : bool :=
  existsb (String.eqb x) names.

(** ** library_ingestion.py: class LibraryProcessor

    The collaborators of the class are parameters: [str.lower],
    [str.strip] and the embedding model.  What the file system says about a
    file (its path, what each reader extracts from it, its digest) is the
    record [SourceFile]. *)

Module LibraryProcessor.

(** A file of the library as the methods see it. *)
Record SourceFile : Type := {
  source_path : string;      (* str(file_path) *)
  source_suffix : string;    (* file_path.suffix *)
  source_relative : string;  (* str(file_path.relative_to(self.library_path)) *)
  source_title : string;     (* file_path.stem.replace(...).title() *)
  source_id : string;        (* hashlib.sha256(...).hexdigest()[:16] *)
  source_txt : string;       (* the text read from a .txt file *)
  source_pdf : string;       (* the text of the pages of a .pdf file *)
  source_mhtml : string;     (* the joined text parts of a .mhtml file *)
  source_html : string;      (* the text of a .html file *)
  source_now : string        (* datetime.now().isoformat() *)
}.

Definition positive_keywords : list string :=
  ["resonance"; "harmony"; "coherence"; "unity"; "consciousness";
   "understanding"; "insight"; "breakthrough"; "innovation"].

Definition negative_keywords : list string :=
  ["collapse"; "entropy"; "fragmentation"; "confusion"; "chaos"].

(** [sum(1 for word in keywords if word in content_lower)] *)
Definition keyword_score (keywords : list string) (content_lower : string) : Z :=
  Z.of_nat (List.length (filter (fun word => contains word content_lower) keywords)).

Section Collaborators.

Variable lower : string -> string.
Variable strip : string -> string.
Variable encode : string -> list R.

Definition extract_text_from_file (file : SourceFile) : string :=
  let ext := lower (source_suffix file) in
  if String.eqb ext ".txt" then source_txt file
  else if String.eqb ext ".pdf" then source_pdf file
  else if among ext [".mhtml"; ".mht"] then source_mhtml file
  else if among ext [".html"; ".htm"] then source_html file
  else "".

(** [categorize_document(path, content)], on [str(path)] and
    [path.suffix]. *)
Definition categorize_document (path suffix content : string)
  : string * string :=
  let path_str := lower path in
  let content_lower :=
    if String.eqb content "" then ""
    else lower (String.substring 0 1000 content) in
  let category :=
    if contains "rsvp" path_str || contains "rsvp" content_lower then "RSVP"
    else if contains "epistemology" path_str then "epistemology"
    else if contains "physics" path_str then "physics"
    else if contains "astrophysics" path_str then "astrophysics"
    else if contains "infrastructure" path_str then "infrastructure"
    else if contains "semantic" path_str || contains "semantic" content_lower
    then "semantic_theory"
    else if contains "mimetic" path_str || contains "mimetic" content_lower
    then "mimetic_theory"
    else "general_theory" in
  let doc_type :=
    if String.eqb suffix ".mp3" then "audio_transcript"
    else if String.eqb suffix ".pdf" then "academic_paper"
    else if among suffix [".tex"; ".bib"] then "latex_source"
    else if among suffix [".mhtml"; ".mht"; ".html"] then "web_archive"
    else if String.eqb suffix ".txt" then "text_document"
    else "unknown" in
  (category, doc_type).

Definition calculate_emotional_valence (content : string) : R :=
  let content_lower := lower content in
  let positive_score := keyword_score positive_keywords content_lower in
  let negative_score := keyword_score negative_keywords content_lower in
  if (positive_score + negative_score =? 0)%Z then 0.0
  else IZR (positive_score - negative_score)
       / IZR (positive_score + negative_score).

Definition calculate_importance (doc : LibraryDocument) : R :=
  let score := 0.5 in
  let score := if String.eqb (category doc) "RSVP" then score + 0.3 else score in
  let score :=
    if among (doc_type doc) ["academic_paper"; "text_document"]
    then score + 0.1 else score in
  let score := score + Rabs (emotional_valence doc) * 0.1 in
  Rmin score 1.0.

(** [process_file], without the free-form metadata; an exception of a
    collaborator, which the method turns into [None], is not modelled. *)
Definition process_file (file : SourceFile) : option LibraryDocument :=
  let text := extract_text_from_file file in
  if String.eqb text "" || (String.length (strip text) <? 100)%nat
  then None
  else
    let (cat, kind) :=
      categorize_document (source_path file) (source_suffix file) text in
    let vector := encode (String.substring 0 512 text) in
    let doc :=
      {| id := source_id file;
         path := source_relative file;
         title := source_title file;
         content := String.substring 0 10000 text;
         doc_type := kind;
         category := cat;
         embedding := Some vector;
         wave_pattern := Some (WaveTransformer.vector_to_wave vector);
         emotional_valence := calculate_emotional_valence text;
         importance := 0.5;
         timestamp := source_now file |} in
    Some {| id := id doc; path := path doc; title := title doc;
            content := content doc; doc_type := doc_type doc;
            category := category doc; embedding := embedding doc;
            wave_pattern := wave_pattern doc;
            emotional_valence := emotional_valence doc;
            importance := calculate_importance doc;
            timestamp := timestamp doc |}.

(** [scan_library], on the files the glob found: the documents of the
    files that [process_file] accepts, in order. *)
Fixpoint scan_library (files : list SourceFile) : list LibraryDocument :=
  match files with
  | [] => []
  | file :: rest =>
      match process_file file with
      | Some doc => doc :: scan_library rest
      | None => scan_library rest
      end
  end.

End Collaborators.

End LibraryProcessor.

(** ** qdrant_client_wrapper.py: class QdrantWaveClient

    The Qdrant server is a parameter: [upsert_documents] returns the batches
    it sends, [search] takes the server's answer as a function of the
    filter and the limit.  [hashlib.md5] is a parameter as well. *)

Module QdrantWaveClient.

(** The payload dictionary; the two wave fields are there when the document
    has a wave pattern ([wave_hash] is left out). *)
Record Payload : Type := {
  payload_title : string;
  payload_content : string;
  payload_category : string;
  payload_doc_type : string;
  payload_path : string;
  payload_emotional_valence : R;
  payload_importance : R;
  payload_timestamp : string;
  payload_wave : option (R * R)   (* dominant_frequency, avg_amplitude *)
}.

Record PointStruct : Type := {
  point_id : Z;
  point_vector : list R;
  point_payload : Payload
}.

(** [np.mean(values)] *)
Definition mean (values : list R) : R :=
  fold_left Rplus values 0 / INR (List.length values).

(** The two wave fields of the payload. *)
Definition wave_fields (wave : WavePattern) : R * R :=
  (match frequencies wave with f :: _ => f | [] => 0 end,
   match amplitudes wave with _ :: _ => mean (amplitudes wave) | [] => 0 end).

(** [for i, doc in enumerate(documents)]: the points built. *)
Fixpoint build_points (md5_id : string -> Z) (documents : list LibraryDocument)
  : list PointStruct :=
  match documents with
  | [] => []
  | doc :: rest =>
      match embedding doc with
      | None | Some [] => build_points md5_id rest
      | Some vector =>
          {| point_id := md5_id (id doc);
             point_vector := vector;
             point_payload :=
               {| payload_title := title doc;
                  payload_content := String.substring 0 1000 (content doc);
                  payload_category := category doc;
                  payload_doc_type := doc_type doc;
                  payload_path := path doc;
                  payload_emotional_valence := emotional_valence doc;
                  payload_importance := importance doc;
                  payload_timestamp := timestamp doc;
                  payload_wave := option_map wave_fields (wave_pattern doc) |} |}
          :: build_points md5_id rest
      end
  end.

(** [range(0, n, step)], for a positive step. *)
Definition range_step (n step : nat) : list nat :=
  map (fun k => (k * step)%nat) (seq 0 ((n + step - 1) / step)).

(** [points[i:i+batch_size]] *)
Definition batch_at {A} (batch_size : nat) (points : list A) (i : nat) : list A :=
  firstn batch_size (skipn i points).

(** The batches [upsert_documents] sends to the server, in order. *)
Definition upsert_documents (md5_id : string -> Z)
    (documents : list LibraryDocument) : list (list PointStruct) :=
  let points := build_points md5_id documents in
  let batch_size := 100%nat in
  map (batch_at batch_size points) (range_step (List.length points) batch_size).

(** A condition of a filter. *)
Inductive FieldCondition : Type :=
| MatchValue (key value : string)
| RangeGte (key : string) (gte : R).

Record Filter : Type := {
  must : list FieldCondition;
  should : list FieldCondition
}.

(** The filter [search] hands to the server. *)
Definition build_filter (category_filter : option string)
    (emotional_state : string) : option Filter :=
  let query_filter :=
    match category_filter with
    | Some c =>
        if String.eqb c "" then None
        else Some {| must := [MatchValue "category" c]; should := [] |}
    | None => None
    end in
  if String.eqb emotional_state "graceland" then
    option_map
      (fun f => {| must := must f;
                   should := [RangeGte "emotional_valence" 0.5] |})
      query_filter
  else if String.eqb emotional_state "focused" then
    option_map
      (fun f => {| must := must f; should := [RangeGte "importance" 0.7] |})
      query_filter
  else query_filter.

(** A hit of the server. *)
Record ScoredPoint : Type := {
  hit_id : Z;
  hit_score : R;
  hit_payload : Payload
}.

(** A dictionary of [formatted_results]. *)
Record FormattedResult : Type := {
  formatted_id : Z;
  formatted_score : R;
  formatted_title : string;
  formatted_category : string;
  formatted_content_preview : string;
  formatted_path : string;
  formatted_emotional_valence : R;
  formatted_importance : R
}.

(** The body of [for hit in results]. *)
Definition format_hit (emotional_state : string) (hit : ScoredPoint)
  : FormattedResult :=
  let payload := hit_payload hit in
  let score := hit_score hit in
  {| formatted_id := hit_id hit;
     formatted_score :=
       if String.eqb emotional_state "graceland"
       then score * (1 + Rabs (payload_emotional_valence payload))
       else if String.eqb emotional_state "raw" then score * 2.0
       else score;
     formatted_title := payload_title payload;
     formatted_category := payload_category payload;
     formatted_content_preview :=
       String.substring 0 200 (payload_content payload);
     formatted_path := payload_path payload;
     formatted_emotional_valence := payload_emotional_valence payload;
     formatted_importance := payload_importance payload |}.

Definition search (server : option Filter -> Z -> list ScoredPoint)
    (top_k : Z) (category_filter : option string) (emotional_state : string)
  : list FormattedResult :=
  map (format_hit emotional_state)
      (server (build_filter category_filter emotional_state) top_k).

End QdrantWaveClient.

(** ** library_ingestion_qdrant.py: class InteractiveSearcher

    One turn of the loop of [run_interactive], as the action it takes on
    the stripped line. *)

Module InteractiveSearcher.

Inductive Action : Type :=
| Quit
| ShowHelp
| ShowStats
| RunSearch (query emotional_state : string)
| AskQuery (category : string)   (* then [input("Query: ")] and a search *)
| Idle.

Definition dispatch (command : string) : Action :=
  if String.eqb command ":quit" then Quit
  else if String.eqb command ":help" then ShowHelp
  else if String.eqb command ":stats" then ShowStats
  else if starts_with ":graceland " command
  then RunSearch (drop 11 command) "graceland"
  else if starts_with ":raw " command then RunSearch (drop 5 command) "raw"
  else if starts_with ":category " command then AskQuery (drop 10 command)
  else if negb (String.eqb command "") then RunSearch command "focused"
  else Idle.

End InteractiveSearcher.

(** * Properties *)

(** ** Notions used in the statements *)

(** The three numeric sequences of a wave pattern have one length (the data
    model's invariant; the harmonics key is optional). *)
Definition well_formed (w : WavePattern) : Prop :=
  List.length (amplitudes w) = List.length (frequencies w) /\
  List.length (phases w) = List.length (frequencies w).

(** The frequency of position [i], as the float stored in the wave. *)
Definition frequency_at (i : nat) : R :=
  IZR (WaveTransformer.position_frequency i).

(** The phase [vector_to_wave] stores for a component. *)
Definition phase_of (val : R) : R := if Rgeb val 0 then 0 else PI.

(** The harmonic tags [vector_to_wave] attaches to position [i]: they depend
    on the position alone. *)
Definition position_tags (i : nat) : list HarmonicTag :=
  WaveTransformer.tag_loop (frequency_at i) 0 (map frequency_at (seq 0 i)) [].

(** No tag of [a] at an index names the same earlier index as a tag of [b]
    at that index. *)
Definition no_shared_tags (a b : WavePattern) : Prop :=
  forall i h1s h2s h1 h2,
    WaveTransformer.harmonics_at a i = Some h1s ->
    WaveTransformer.harmonics_at b i = Some h2s ->
    In h1 h1s -> In h2 h2s -> fst h1 <> fst h2.

(** The pattern [w] with every harmonic tag removed: the same frequencies,
    amplitudes and phases, and an empty tag list at every index. *)
Definition without_tags (w : WavePattern) : WavePattern :=
  {| frequencies := frequencies w;
     amplitudes := amplitudes w;
     phases := phases w;
     harmonics := Some (map (fun _ => []) (frequencies w)) |}.

(** [doc.wave_pattern] is truthy. *)
Definition has_wave (doc : LibraryDocument) : bool :=
  match wave_pattern doc with
  | Some _ => true
  | None => false
  end.

(** Position [i] of a list read from index [j] on corresponds to position
    [i'] of its documents with a wave pattern read from index [j'] on:
    either both lie behind, or the document at [i] has a wave pattern and
    [i'] counts the documents with one before it. *)
Definition aligned (i j i' j' : nat) (others : list LibraryDocument) : Prop :=
  ((i < j)%nat /\ (i' < j')%nat) \/
  ((j <= i)%nat /\ (j' <= i')%nat /\
   (i' - j')%nat = List.length (filter has_wave (firstn (i - j) others)) /\
   (forall d, nth_error others (i - j) = Some d -> has_wave d = true)).

(** Descending by key: every element is at least every later one. *)
Definition descending {A} (key : A -> R) : list A -> Prop :=
  StronglySorted (fun x y => key x >= key y).

(** The number of entries that rank before the entry [x] at position [p] of
    [l] in a stable descending ranking: the entries before it in [l] that
    score at least as much, and the entries after it that score strictly
    more. *)
Definition entries_ahead {A} (key : A -> R) (l : list A) (p : nat) (x : A) : nat :=
  (List.length (filter (fun y => Rgeb (key y) (key x)) (firstn p l)) +
   List.length (filter (fun y => Rgtb (key y) (key x)) (skipn (S p) l)))%nat.

(** [ranked] is the ranking of [l], descending by [key] with ties in the
    order of [l]: it has the entries of [l], each at the position that the
    number of entries ahead of it gives. *)
Definition ranking_of {A} (key : A -> R) (l ranked : list A) : Prop :=
  Permutation l ranked /\
  forall p x, nth_error l p = Some x ->
              nth_error ranked (entries_ahead key l p x) = Some x.

(** A neighbour list as the graph builders leave it: at most [k] links,
    descending by score, each score above the threshold 0.5. *)
Definition neighbour_list_ok {A} (score : A -> R) (k : nat) (l : list A) : Prop :=
  (List.length l <= k)%nat /\
  descending score l /\
  Forall (fun x => score x > 0.5) l.

(** ** The search pipeline, as the specification words it

    The seven steps of the pipeline, written from the specification and
    not from the engine: nothing here uses the engine's loops, its sort or
    its slice.  The scorer of step 2 is the query-time scorer itself. *)

Module SearchSpec.

(** Step 1: "filter candidates by category_filter if present (exact
    match)"; an empty filter counts as absent. *)
Definition passes (category_filter : option string) (doc : LibraryDocument)
  : bool :=
  match category_filter with
  | None => true
  | Some c => String.eqb c "" || String.eqb (category doc) c
  end.

(** Steps 2 to 4: the base score of the query-time scorer, times
    1 + |valence| in the raw and graceland states, times
    0.5 + importance. *)
Definition score_of (query_wave : WavePattern) (context : SearchContext)
    (doc : LibraryDocument) (wave : WavePattern) : option R :=
  base <- WaveSearchEngine.calculate_resonance query_wave wave context ;;
  let weighted :=
    if String.eqb (emotional_state context) "raw"
       || String.eqb (emotional_state context) "graceland"
    then base * (1 + Rabs (emotional_valence doc))
    else base in
  Some (weighted * (0.5 + importance doc)).

(** The result returned for a candidate: its score and the display data
    of the document, passed through. *)
Definition result_for (doc_id : string) (doc : LibraryDocument) (score : R)
  : WaveSearchEngine.SearchResult :=
  {| WaveSearchEngine.result_id := doc_id;
     WaveSearchEngine.result_title := title doc;
     WaveSearchEngine.result_category := category doc;
     WaveSearchEngine.result_resonance := score;
     WaveSearchEngine.result_emotional_valence := emotional_valence doc;
     WaveSearchEngine.result_preview := String.substring 0 200 (content doc);
     WaveSearchEngine.result_path := path doc |}.

(** Steps 1 to 4 over the store, in store order: one result for every
    candidate that passes the filter and has a wave pattern. *)
Fixpoint scored_results (query_wave : WavePattern) (context : SearchContext)
    (category_filter : option string)
    (candidates : PyDict.dict LibraryDocument)
  : option (list WaveSearchEngine.SearchResult) :=
  match candidates with
  | [] => Some []
  | (doc_id, doc) :: rest =>
      if passes category_filter doc then
        match wave_pattern doc with
        | Some wave =>
            score <- score_of query_wave context doc wave ;;
            others <- scored_results query_wave context category_filter rest ;;
            Some (result_for doc_id doc score :: others)
        | None => scored_results query_wave context category_filter rest
        end
      else scored_results query_wave context category_filter rest
  end.

(** Steps 5 and 6: "sort descending by score" -- the same results, in an
    order in which no score is followed by a higher one.  (How ties are
    broken is left to the implementation.) *)
Definition sorted_descending
    (results sorted : list WaveSearchEngine.SearchResult) : Prop :=
  Permutation results sorted /\
  descending WaveSearchEngine.result_resonance sorted.

(** The graph neighbours of a document (none when the graph has no entry
    for it). *)
Definition neighbours_of (graph : PyDict.dict (list (string * R)))
    (top : string) : list (string * R) :=
  match PyDict.get top graph with
  | Some neighbours => neighbours
  | None => []
  end.

(** The score with which [doc] is listed among [neighbours]; the last
    listing counts, should [doc] be listed more than once. *)
Fixpoint neighbour_score (neighbours : list (string * R)) (doc : string)
  : option R :=
  match neighbours with
  | [] => None
  | (k, s) :: rest =>
      match neighbour_score rest doc with
      | Some s' => Some s'
      | None => if String.eqb doc k then Some s else None
      end
  end.

(** Step 6: "score x= (1 + neighbor_score x 0.5)" for a result listed among
    the neighbours; any other result is unchanged. *)
Definition boosted (neighbours : list (string * R))
    (result : WaveSearchEngine.SearchResult) : WaveSearchEngine.SearchResult :=
  match neighbour_score neighbours (WaveSearchEngine.result_id result) with
  | Some s =>
      {| WaveSearchEngine.result_id := WaveSearchEngine.result_id result;
         WaveSearchEngine.result_title := WaveSearchEngine.result_title result;
         WaveSearchEngine.result_category :=
           WaveSearchEngine.result_category result;
         WaveSearchEngine.result_resonance :=
           WaveSearchEngine.result_resonance result * (1 + s * 0.5);
         WaveSearchEngine.result_emotional_valence :=
           WaveSearchEngine.result_emotional_valence result;
         WaveSearchEngine.result_preview :=
           WaveSearchEngine.result_preview result;
         WaveSearchEngine.result_path := WaveSearchEngine.result_path result |}
  | None => result
  end.

(** Step 6: the pass applies when the result set is not empty and the
    preference is not balanced. *)
Definition pass_applies (context : SearchContext)
    (results : list WaveSearchEngine.SearchResult) : bool :=
  match results with
  | [] => false
  | _ :: _ => negb (String.eqb (harmonic_preference context) "balanced")
  end.

(** Step 6: when the pass applies, every result but the top one is boosted
    by the neighbours of the top one and the list is sorted again;
    otherwise the list stays as it is. *)
Definition reranked (graph : PyDict.dict (list (string * R)))
    (context : SearchContext)
    (ranked final : list WaveSearchEngine.SearchResult) : Prop :=
  match ranked with
  | top :: others =>
      if pass_applies context ranked
      then sorted_descending
             (top :: map (boosted (neighbours_of graph
                                     (WaveSearchEngine.result_id top))) others)
             final
      else final = ranked
  | [] => final = []
  end.

(** Step 7: "truncate to top_k" -- the first [top_k] results. *)
Definition truncated (top_k : Z)
    (results : list WaveSearchEngine.SearchResult)
  : list WaveSearchEngine.SearchResult :=
  firstn (Z.to_nat top_k) results.

(** The pipeline: [out] is what the seven steps give. *)
Definition search (self : WaveSearchEngine.Engine) (query_wave : WavePattern)
    (context : SearchContext) (category_filter : option string) (top_k : Z)
    (out : list WaveSearchEngine.SearchResult) : Prop :=
  exists scored ranked final,
    scored_results query_wave context category_filter
      (WaveSearchEngine.documents self) = Some scored /\
    sorted_descending scored ranked /\
    reranked (WaveSearchEngine.resonance_graph self) context ranked final /\
    out = truncated top_k final.

End SearchSpec.

(** ** Concrete inputs *)

(** Two hand-written patterns of two components: in the first the second
    frequency is an octave above the first one, in the second a fifth, and
    each carries the matching tag against index 0. *)
Definition octave_pattern : WavePattern :=
  {| frequencies := [20; 40]; amplitudes := [1; 1]; phases := [0; 0];
     harmonics := Some [[]; [(0%nat, "octave")]] |}.

Definition fifth_pattern : WavePattern :=
  {| frequencies := [20; 30]; amplitudes := [1; 1]; phases := [0; 0];
     harmonics := Some [[]; [(0%nat, "fifth")]] |}.

(** A pattern of two components without tags: the transform of [[1; 1]]. *)
Definition plain_pattern : WavePattern :=
  {| frequencies := [20; 120]; amplitudes := [1; 1]; phases := [0; 0];
     harmonics := Some [[]; []] |}.

(** A vector of four components; the transform tags its last position as a
    fifth above position 2 (320 / 220). *)
Definition four_ones : list R := [1; 1; 1; 1].

(** The context with all modulation off. *)
Definition neutral_context : SearchContext :=
  {| emotional_state := "focused";
     truth_amplification := 1;
     vulnerability_coefficient := 0.5;
     harmonic_preference := "balanced" |}.

(** The same context in the raw state. *)
Definition raw_context : SearchContext :=
  {| emotional_state := "raw";
     truth_amplification := 1;
     vulnerability_coefficient := 0.5;
     harmonic_preference := "balanced" |}.

(** A document that carries nothing but a name, a category and possibly a
    wave pattern. *)
Definition doc_with (name cat : string) (wave : option WavePattern)
  : LibraryDocument :=
  {| id := name; path := name; title := name; content := "";
     doc_type := "text_document"; category := cat; embedding := None;
     wave_pattern := wave; emotional_valence := 0; importance := 0.5;
     timestamp := "" |}.

(** Two documents of one category with the same wave pattern. *)
Definition twin_docs : list LibraryDocument :=
  [doc_with "a" "physics" (Some plain_pattern);
   doc_with "b" "physics" (Some plain_pattern)].

(** The same category with a third document that has no wave pattern. *)
Definition docs_with_gap : list LibraryDocument :=
  doc_with "n" "physics" None :: twin_docs.

(** The index [Mem8Ingester] writes for [twin_docs]. *)
Definition twin_index : Mem8Ingester.CategoryIndex :=
  {| Mem8Ingester.index_category := "physics";
     Mem8Ingester.document_count := 2;
     Mem8Ingester.documents :=
       [{| Mem8Ingester.entry_id := "a"; Mem8Ingester.entry_title := "a";
           Mem8Ingester.entry_path := "a";
           Mem8Ingester.entry_importance := 0.5;
           Mem8Ingester.entry_emotional_valence := 0 |};
        {| Mem8Ingester.entry_id := "b"; Mem8Ingester.entry_title := "b";
           Mem8Ingester.entry_path := "b";
           Mem8Ingester.entry_importance := 0.5;
           Mem8Ingester.entry_emotional_valence := 0 |}];
     Mem8Ingester.resonance_graph := [("a", [("b", 1)]); ("b", [("a", 1)])] |}.

(** The graph [QdrantIngester] returns for [twin_docs]. *)
Definition twin_graph : PyDict.dict (list QdrantIngester.ResonanceLink) :=
  [("a", [{| QdrantIngester.target_id := "b"; QdrantIngester.resonance := 1;
             QdrantIngester.link_category := "physics" |}]);
   ("b", [{| QdrantIngester.target_id := "a"; QdrantIngester.resonance := 1;
             QdrantIngester.link_category := "physics" |}])].

(** A pattern of a single component at frequency [f]. *)
Definition tone (f : R) : WavePattern :=
  {| frequencies := [f]; amplitudes := [1]; phases := [0];
     harmonics := Some [[]] |}.

(** The entry [find_harmonics] makes for a document at 40 against a base
    at 20. *)
Definition octave_hit (name : string) : WaveSearchEngine.HarmonicResult :=
  {| WaveSearchEngine.harmonic_id := name;
     WaveSearchEngine.harmonic_title := name;
     WaveSearchEngine.harmonic_category := "physics";
     WaveSearchEngine.harmonic_score := 0 + 1;
     WaveSearchEngine.relationship := WaveSearchEngine.Named "octave" |}.

(** A store with a base document at 20 and eleven documents at 40. *)
Definition crowded_engine : WaveSearchEngine.Engine :=
  {| WaveSearchEngine.documents :=
       ("base", doc_with "base" "physics" (Some (tone 20)))
       :: map (fun name => (name, doc_with name "physics" (Some (tone 40))))
            ["d01"; "d02"; "d03"; "d04"; "d05"; "d06"; "d07"; "d08"; "d09";
             "d10"; "d11"];
     WaveSearchEngine.resonance_graph := [] |}.

(** A store with the base document and one document at 40. *)
Definition octave_engine : WaveSearchEngine.Engine :=
  {| WaveSearchEngine.documents :=
       [("base", doc_with "base" "physics" (Some (tone 20)));
        ("d01", doc_with "d01" "physics" (Some (tone 40)))];
     WaveSearchEngine.resonance_graph := [] |}.

(** A document at frequency 20 with a given importance. *)
Definition weighted_doc (name : string) (weight : R) : LibraryDocument :=
  {| id := name; path := name; title := name; content := "";
     doc_type := "text_document"; category := "physics"; embedding := None;
     wave_pattern := Some (tone 20); emotional_valence := 0;
     importance := weight; timestamp := "" |}.

(** Three documents of falling importance; the graph links the first to the
    third. *)
Definition linked_engine : WaveSearchEngine.Engine :=
  {| WaveSearchEngine.documents :=
       [("a", weighted_doc "a" 1); ("b", weighted_doc "b" 0.5);
        ("c", weighted_doc "c" 0.2)];
     WaveSearchEngine.resonance_graph := [("a", [("c", 1)])] |}.

(** A focused context that prefers octaves. *)
Definition octaves_context : SearchContext :=
  {| emotional_state := "focused";
     truth_amplification := 1;
     vulnerability_coefficient := 0.5;
     harmonic_preference := "octaves" |}.

(** A pattern whose frequencies are the positional ones. *)
Definition positional (w : WavePattern) : Prop :=
  exists n, frequencies w = map frequency_at (seq 0 n).

(** The stored documents [search] scores, in store order: those the
    category filter lets through that have a wave pattern. *)
Definition candidates (category_filter : option string)
    (docs : PyDict.dict LibraryDocument) : PyDict.dict LibraryDocument :=
  filter (fun kv =>
            negb (WaveSearchEngine.filtered_out category_filter (snd kv))
            && has_wave (snd kv)) docs.

(** A result stands for a stored document: its id and its category. *)
Definition result_of (r : WaveSearchEngine.SearchResult)
    (kv : string * LibraryDocument) : Prop :=
  WaveSearchEngine.result_id r = fst kv /\
  WaveSearchEngine.result_category r = category (snd kv).

(** The documents of a category, in input order. *)
Definition docs_of (c : string) (documents : list LibraryDocument)
  : list LibraryDocument :=
  filter (fun doc => String.eqb (category doc) c) documents.

(** A link from [d1] to the id [target], recorded with a category and a
    score, is sound: the category is that of [d1], the score is above the
    threshold, and [target] is the id of a document of the same category
    that has a wave pattern -- a different document when ids are unique. *)
Definition link_ok (documents : list LibraryDocument) (d1 : LibraryDocument)
    (target cat : string) (score : R) : Prop :=
  cat = category d1 /\ score > 0.5 /\
  exists d2,
    In d2 documents /\ category d2 = category d1 /\ has_wave d2 = true /\
    target = id d2 /\ (NoDup (map id documents) -> id d2 <> id d1).

(** The same link seen inside the list of one category, by positions. *)
Definition link_from (docs : list LibraryDocument) (p : nat)
    (target : string) (score : R) : Prop :=
  score > 0.5 /\
  exists q d2,
    nth_error docs q = Some d2 /\ q <> p /\ has_wave d2 = true /\ target = id d2.


(** A wave pattern with all four keys, of one length. *)
Definition complete (w : WavePattern) : Prop :=
  well_formed w /\
  exists hs, harmonics w = Some hs /\
             List.length hs = List.length (frequencies w).

(** Every wave pattern the documents carry is complete. *)
Definition complete_waves (documents : list LibraryDocument) : Prop :=
  Forall (fun doc => forall w, wave_pattern doc = Some w -> complete w) documents.

(** The categories [categorize_document] can return. *)
Definition reachable_categories : list string :=
  ["RSVP"; "epistemology"; "physics"; "infrastructure"; "semantic_theory";
   "mimetic_theory"; "general_theory"].

(** The extensions [extract_text_from_file] has a reader for. *)
Definition readable_extensions : list string :=
  [".txt"; ".pdf"; ".mhtml"; ".mht"; ".html"; ".htm"].

(** [str.lower] on the letters A to Z (other characters are kept). *)
Fixpoint ascii_lower (s : string) : string :=
  match s with
  | EmptyString => EmptyString
  | String c rest =>
      let n := Ascii.nat_of_ascii c in
      String (if ((65 <=? n) && (n <=? 90))%nat
              then Ascii.ascii_of_nat (n + 32) else c)
             (ascii_lower rest)
  end.

(** The embedding model of the examples: two components for every text. *)
Definition sample_encode (text : string) : list R := [1; -1].

(** A text file about resonance and entropy, of 120 characters. *)
Definition sample_file : LibraryProcessor.SourceFile :=
  {| LibraryProcessor.source_path := "/aidata/library/Physics/Notes.txt";
     LibraryProcessor.source_suffix := ".txt";
     LibraryProcessor.source_relative := "Physics/Notes.txt";
     LibraryProcessor.source_title := "Notes";
     LibraryProcessor.source_id := "0123456789abcdef";
     LibraryProcessor.source_txt :=
       "Resonance and harmony stand against ENTROPY in every field; "
       ++ "the notes collect what the lectures said about the three.";
     LibraryProcessor.source_pdf := "";
     LibraryProcessor.source_mhtml := "";
     LibraryProcessor.source_html := "";
     LibraryProcessor.source_now := "2025-01-01T00:00:00" |}.

(** A LaTeX source, which [scan_library] collects. *)
Definition tex_file : LibraryProcessor.SourceFile :=
  {| LibraryProcessor.source_path := "/aidata/library/paper.tex";
     LibraryProcessor.source_suffix := ".tex";
     LibraryProcessor.source_relative := "paper.tex";
     LibraryProcessor.source_title := "Paper";
     LibraryProcessor.source_id := "fedcba9876543210";
     LibraryProcessor.source_txt := "";
     LibraryProcessor.source_pdf := "";
     LibraryProcessor.source_mhtml := "";
     LibraryProcessor.source_html := "";
     LibraryProcessor.source_now := "2025-01-01T00:00:00" |}.

(** The three interval names of the transform. *)
Definition interval_names : list string := ["octave"; "fifth"; "fourth"].

(** A server that answers every request with the same two hits. *)
Definition sample_server (query_filter : option QdrantWaveClient.Filter)
    (limit : Z) : list QdrantWaveClient.ScoredPoint :=
  let payload (title : string) (valence : R) :=
    {| QdrantWaveClient.payload_title := title;
       QdrantWaveClient.payload_content := "";
       QdrantWaveClient.payload_category := "physics";
       QdrantWaveClient.payload_doc_type := "text_document";
       QdrantWaveClient.payload_path := title;
       QdrantWaveClient.payload_emotional_valence := valence;
       QdrantWaveClient.payload_importance := 0.5;
       QdrantWaveClient.payload_timestamp := "";
       QdrantWaveClient.payload_wave := None |} in
  [{| QdrantWaveClient.hit_id := 1; QdrantWaveClient.hit_score := 1;
      QdrantWaveClient.hit_payload := payload "calm" 0 |};
   {| QdrantWaveClient.hit_id := 2; QdrantWaveClient.hit_score := 0.9;
      QdrantWaveClient.hit_payload := payload "vivid" 1 |}].

(** A link of the Qdrant graph as the pair the Mem8 graph stores. *)
Definition link_pair (link : QdrantIngester.ResonanceLink) : string * R :=
  (QdrantIngester.target_id link, QdrantIngester.resonance link).

(** Every list of the Mem8 graph is the first ten pairs of the list the
    Qdrant graph holds under the same id. *)
Definition graph_agrees (graph_m : PyDict.dict (list (string * R)))
    (graph_q : PyDict.dict (list QdrantIngester.ResonanceLink)) : Prop :=
  forall k links_m,
    PyDict.get k graph_m = Some links_m ->
    exists links_q,
      PyDict.get k graph_q = Some links_q /\
      links_m = firstn 10 (map link_pair links_q).






(** A wave pattern and a context of the reals, for the scorer on numbers. *)
Definition numeric_wave (w : WavePattern) : Numeric.WavePattern R :=
  {| Numeric.frequencies := frequencies w;
     Numeric.amplitudes := amplitudes w;
     Numeric.phases := phases w |}.

Definition numeric_context (c : SearchContext) : Numeric.SearchContext R :=
  {| Numeric.emotional_state := emotional_state c;
     Numeric.truth_amplification := truth_amplification c;
     Numeric.vulnerability_coefficient := vulnerability_coefficient c;
     Numeric.harmonic_preference := harmonic_preference c |}.

(** Every stored wave pattern keeps the length invariant. *)
Definition well_formed_store (docs : PyDict.dict LibraryDocument) : Prop :=
  Forall (fun kv => forall w, wave_pattern (snd kv) = Some w -> well_formed w)
         docs.

(** Every stored wave pattern is one the transform produced. *)
Definition store_of_transforms (docs : PyDict.dict LibraryDocument) : Prop :=
  Forall (fun kv => forall w, wave_pattern (snd kv) = Some w ->
                    exists v, w = WaveTransformer.vector_to_wave v) docs.

(** A store of two documents built by the transform. *)
Definition transform_engine : WaveSearchEngine.Engine :=
  {| WaveSearchEngine.documents :=
       [("a", doc_with "a" "physics"
                (Some (WaveTransformer.vector_to_wave four_ones)));
        ("b", doc_with "b" "physics"
                (Some (WaveTransformer.vector_to_wave [1; -1])))];
     WaveSearchEngine.resonance_graph := [] |}.

(** ** Arithmetic on floats *)

Lemma Rltb_true (x y : R) : x < y -> Rltb x y = true.
Proof. intros H. unfold Rltb. destruct (Rlt_dec x y); [reflexivity | contradiction]. Qed.

Lemma Rltb_false (x y : R) : y <= x -> Rltb x y = false.
Proof. intros H. unfold Rltb. destruct (Rlt_dec x y); [lra | reflexivity]. Qed.

Lemma Rltb_lt (x y : R) : Rltb x y = true -> x < y.
Proof. unfold Rltb. destruct (Rlt_dec x y); [trivial | discriminate]. Qed.

Lemma Rltb_ge (x y : R) : Rltb x y = false -> y <= x.
Proof. unfold Rltb. destruct (Rlt_dec x y); [discriminate | lra]. Qed.

Lemma Rgeb_true (x y : R) : x >= y -> Rgeb x y = true.
Proof. intros H. unfold Rgeb. destruct (Rge_dec x y); [reflexivity | contradiction]. Qed.

Lemma Rgeb_false (x y : R) : x < y -> Rgeb x y = false.
Proof. intros H. unfold Rgeb. destruct (Rge_dec x y); [lra | reflexivity]. Qed.

Lemma Reqb_true (x y : R) : x = y -> Reqb x y = true.
Proof. intros H. unfold Reqb. destruct (Req_dec_T x y); [reflexivity | contradiction]. Qed.

Lemma Reqb_false (x y : R) : x <> y -> Reqb x y = false.
Proof. intros H. unfold Reqb. destruct (Req_dec_T x y); [contradiction | reflexivity]. Qed.

Lemma Rabs_self (x : R) : Rabs (x - x) = 0.
Proof. replace (x - x) with 0 by lra. exact Rabs_R0. Qed.

Lemma cos_same_phase (p : R) : cos (Rabs (p - p)) = 1.
Proof.
  replace (p - p) with 0 by lra. rewrite Rabs_R0. exact cos_0.
Qed.

Lemma cos_opposite_phase : cos (Rabs (0 - PI)) = -1.
Proof.
  rewrite Rabs_minus_sym. replace (PI - 0) with PI by lra.
  rewrite Rabs_right by (pose proof PI_RGT_0; lra). exact cos_PI.
Qed.

Lemma Rabs_of_nonneg (x : R) : 0 <= x -> Rabs x = x.
Proof. intros H. apply Rabs_right. lra. Qed.

Lemma Rabs_of_nonpos (x : R) : x <= 0 -> Rabs x = 0 - x.
Proof. intros H. rewrite Rabs_left1 by assumption. lra. Qed.

(** Replacing [Rabs x] by its value when the sign of the closed [x] is
    known to [lra]. *)
Ltac eval_abs :=
  repeat match goal with
         | |- context [Rabs ?x] =>
             first [ rewrite (Rabs_of_nonneg x) by lra
                   | rewrite (Rabs_of_nonpos x) by lra ]
         end.

(** Deciding a comparison between closed expressions. *)
Ltac real_fact := unfold Rgtb in *; eval_abs; lra.

(** Evaluating the float tests of a goal whose operands are closed. *)
Ltac eval_tests :=
  unfold Rgtb;
  repeat match goal with
         | |- context [Rltb ?x ?y] =>
             first [ rewrite (Rltb_true x y) by real_fact
                   | rewrite (Rltb_false x y) by real_fact ]
         | |- context [Rgeb ?x ?y] =>
             first [ rewrite (Rgeb_true x y) by real_fact
                   | rewrite (Rgeb_false x y) by real_fact ]
         | |- context [Reqb ?x ?y] =>
             first [ rewrite (Reqb_true x y) by real_fact
                   | rewrite (Reqb_false x y) by real_fact ]
         end.

(** ** The wave transform in closed form *)

Lemma frequency_at_monotone (i j : nat) :
  (i <= j)%nat -> frequency_at i <= frequency_at j.
Proof.
  intros Hij. unfold frequency_at, WaveTransformer.position_frequency.
  apply IZR_le. lia.
Qed.

Lemma frequency_at_capped (i : nat) : frequency_at i <= 20000.
Proof.
  unfold frequency_at, WaveTransformer.position_frequency.
  apply IZR_le. lia.
Qed.

Lemma frequency_at_positive (i : nat) : 0 < frequency_at i.
Proof.
  unfold frequency_at, WaveTransformer.position_frequency.
  apply IZR_lt. lia.
Qed.

Lemma transformer_loop_frequencies (vector : list R) :
  forall i fs amps phs hs,
    frequencies (WaveTransformer.vector_to_wave_loop i vector fs amps phs hs)
    = fs ++ map frequency_at (seq i (List.length vector)).
Proof.
  induction vector as [|val rest IH]; intros i fs amps phs hs; simpl.
  - now rewrite app_nil_r.
  - rewrite IH, <- app_assoc. reflexivity.
Qed.

Lemma transformer_loop_amplitudes (vector : list R) :
  forall i fs amps phs hs,
    amplitudes (WaveTransformer.vector_to_wave_loop i vector fs amps phs hs)
    = amps ++ map Rabs vector.
Proof.
  induction vector as [|val rest IH]; intros i fs amps phs hs; simpl.
  - now rewrite app_nil_r.
  - rewrite IH, <- app_assoc. reflexivity.
Qed.

Lemma transformer_loop_phases (vector : list R) :
  forall i fs amps phs hs,
    phases (WaveTransformer.vector_to_wave_loop i vector fs amps phs hs)
    = phs ++ map phase_of vector.
Proof.
  induction vector as [|val rest IH]; intros i fs amps phs hs; simpl.
  - now rewrite app_nil_r.
  - rewrite IH, <- app_assoc. reflexivity.
Qed.

(** Once the first [i] frequencies are the positional ones, the tags of
    every later position are the positional tags. *)
Lemma transformer_loop_harmonics (vector : list R) :
  forall i amps phs hs,
    harmonics (WaveTransformer.vector_to_wave_loop i vector
                 (map frequency_at (seq 0 i)) amps phs hs)
    = Some (hs ++ map position_tags (seq i (List.length vector))).
Proof.
  induction vector as [|val rest IH]; intros i amps phs hs; simpl.
  - now rewrite app_nil_r.
  - fold (frequency_at i).
    rewrite firstn_app, firstn_all2 by (rewrite length_map, length_seq; lia).
    rewrite length_map, length_seq, Nat.sub_diag. simpl firstn. rewrite app_nil_r.
    fold (position_tags i).
    replace (map frequency_at (seq 0 i) ++ [frequency_at i])
      with (map frequency_at (seq 0 (S i)))
      by (rewrite seq_S, map_app; reflexivity).
    rewrite IH, <- app_assoc. reflexivity.
Qed.

Lemma vector_to_wave_closed_form (vector : list R) :
  WaveTransformer.vector_to_wave vector =
  {| frequencies := map frequency_at (seq 0 (List.length vector));
     amplitudes := map Rabs vector;
     phases := map phase_of vector;
     harmonics := Some (map position_tags (seq 0 (List.length vector))) |}.
Proof.
  pose proof (transformer_loop_frequencies vector 0 [] [] [] []) as Hf.
  pose proof (transformer_loop_amplitudes vector 0 [] [] [] []) as Ha.
  pose proof (transformer_loop_phases vector 0 [] [] [] []) as Hp.
  pose proof (transformer_loop_harmonics vector 0 [] [] []) as Hh.
  unfold WaveTransformer.vector_to_wave.
  simpl in Hf, Ha, Hp, Hh.
  destruct (WaveTransformer.vector_to_wave_loop 0 vector [] [] [] []) as [fs amps phs hs].
  simpl in *. subst. reflexivity.
Qed.

Lemma transform_frequencies_length (vector : list R) :
  List.length (frequencies (WaveTransformer.vector_to_wave vector))
  = List.length vector.
Proof.
  rewrite vector_to_wave_closed_form. simpl.
  now rewrite length_map, length_seq.
Qed.

Lemma positional_frequencies_sorted (n : nat) :
  forall i, StronglySorted Rle (map frequency_at (seq i n)).
Proof.
  induction n as [|n IH]; intros i; simpl.
  - constructor.
  - constructor; [apply IH|].
    apply Forall_forall. intros f Hin.
    apply in_map_iff in Hin. destruct Hin as [j [<- Hj]].
    apply in_seq in Hj. apply frequency_at_monotone. lia.
Qed.

(** C5. For every input vector of length N, [vector_to_wave] (a total
    function: nothing in it can raise) returns frequencies, amplitudes and
    phases of length N each, the frequencies non-decreasing and at most
    20000; the empty vector yields the empty wave pattern. *)
Theorem vector_to_wave_shape :
  forall vector : list R,
    let wave := WaveTransformer.vector_to_wave vector in
    List.length (frequencies wave) = List.length vector /\
    List.length (amplitudes wave) = List.length vector /\
    List.length (phases wave) = List.length vector /\
    StronglySorted Rle (frequencies wave) /\
    Forall (fun f => f <= 20000) (frequencies wave) /\
    WaveTransformer.vector_to_wave [] =
      {| frequencies := []; amplitudes := []; phases := [];
         harmonics := Some [] |}.
Proof.
  intros vector wave. subst wave.
  rewrite vector_to_wave_closed_form. simpl.
  rewrite !length_map, length_seq.
  repeat split.
  - apply positional_frequencies_sorted.
  - apply Forall_forall. intros f Hin.
    apply in_map_iff in Hin. destruct Hin as [j [<- _]].
    apply frequency_at_capped.
Qed.

(** ** The accumulation loop *)

Lemma accumulate_ext (f g : nat -> option R) (indices : list nat) :
  (forall i, In i indices -> f i = g i) ->
  forall score, accumulate f indices score = accumulate g indices score.
Proof.
  induction indices as [|i rest IH]; intros Hfg score; simpl.
  - reflexivity.
  - rewrite (Hfg i) by (left; reflexivity).
    destruct (g i) as [c|]; simpl; [|reflexivity].
    apply IH. intros j Hj. apply Hfg. right. exact Hj.
Qed.

Lemma accumulate_defined (f : nat -> option R) (indices : list nat) :
  (forall i, In i indices -> exists c, f i = Some c) ->
  forall score, exists total, accumulate f indices score = Some total.
Proof.
  induction indices as [|i rest IH]; intros Hf score; simpl.
  - now exists score.
  - destruct (Hf i) as [c Hc]; [left; reflexivity|].
    rewrite Hc. simpl. apply IH. intros j Hj. apply Hf. right. exact Hj.
Qed.

(** A loop that finishes keeps finishing, with the same total, when every
    summand it produced is produced again. *)
Lemma accumulate_transfer (f g : nat -> option R) (indices : list nat) :
  (forall i c, In i indices -> f i = Some c -> g i = Some c) ->
  forall score total,
    accumulate f indices score = Some total ->
    accumulate g indices score = Some total.
Proof.
  induction indices as [|i rest IH]; intros Hfg score total; simpl.
  - trivial.
  - destruct (f i) as [c|] eqn:Hfi; simpl; [|discriminate].
    rewrite (Hfg i c) by (auto; left; reflexivity). simpl.
    apply IH. intros j d Hj. apply Hfg. right. exact Hj.
Qed.

Lemma accumulate_constant (f : nat -> option R) (c : R) (indices : list nat) :
  (forall i, In i indices -> f i = Some c) ->
  forall score,
    accumulate f indices score = Some (score + INR (List.length indices) * c).
Proof.
  induction indices as [|i rest IH]; intros Hf score.
  - simpl. f_equal. lra.
  - cbn [accumulate]. rewrite (Hf i) by (left; reflexivity). cbn [bind].
    rewrite IH by (intros j Hj; apply Hf; right; exact Hj).
    cbn [List.length]. rewrite S_INR. f_equal. lra.
Qed.

(** ** The ingestion-time scorer *)

Lemma outer_bonus_ext (h1s : list HarmonicTag) (w w' : WavePattern) (i : nat) :
  WaveTransformer.harmonics_at w i = WaveTransformer.harmonics_at w' i ->
  forall bonus,
    WaveTransformer.outer_bonus h1s w i bonus
    = WaveTransformer.outer_bonus h1s w' i bonus.
Proof.
  intros Hw. induction h1s as [|h1 rest IH]; intros bonus; simpl.
  - reflexivity.
  - rewrite Hw. destruct (WaveTransformer.harmonics_at w' i); simpl; auto.
Qed.

Lemma outer_bonus_defined (h1s h2s : list HarmonicTag) (w : WavePattern) (i : nat) :
  WaveTransformer.harmonics_at w i = Some h2s ->
  forall bonus, exists b, WaveTransformer.outer_bonus h1s w i bonus = Some b.
Proof.
  intros Hw. induction h1s as [|h1 rest IH]; intros bonus; simpl.
  - now exists bonus.
  - rewrite Hw. simpl. apply IH.
Qed.

(** Swapping two patterns that carry the same tags at index [i] leaves the
    summand of index [i] unchanged. *)
Lemma transformer_component_swap (a b : WavePattern) (i : nat) :
  WaveTransformer.harmonics_at a i = WaveTransformer.harmonics_at b i ->
  WaveTransformer.component a b i = WaveTransformer.component b a i.
Proof.
  intros Hh. unfold WaveTransformer.component.
  destruct (nth_error (frequencies a) i) as [f1|],
           (nth_error (frequencies b) i) as [f2|]; simpl; try reflexivity.
  destruct (nth_error (amplitudes a) i) as [a1|],
           (nth_error (amplitudes b) i) as [a2|]; simpl; try reflexivity.
  destruct (nth_error (phases a) i) as [p1|],
           (nth_error (phases b) i) as [p2|]; simpl; try reflexivity.
  rewrite (Rabs_minus_sym f2 f1), (Rabs_minus_sym a2 a1), (Rabs_minus_sym p2 p1).
  rewrite Hh.
  destruct (WaveTransformer.harmonics_at b i) as [hs|] eqn:Hb; simpl; [|reflexivity].
  rewrite (outer_bonus_ext hs b a i) by congruence.
  reflexivity.
Qed.

Lemma transformer_resonance_swap (a b : WavePattern) :
  (forall i,
      (i < Nat.min (List.length (frequencies a)) (List.length (frequencies b)))%nat ->
      WaveTransformer.harmonics_at a i = WaveTransformer.harmonics_at b i) ->
  WaveTransformer.calculate_resonance a b = WaveTransformer.calculate_resonance b a.
Proof.
  intros Hh. unfold WaveTransformer.calculate_resonance.
  rewrite (Nat.min_comm (List.length (frequencies b))).
  rewrite (accumulate_ext (WaveTransformer.component a b)
                          (WaveTransformer.component b a)).
  - reflexivity.
  - intros i Hi. apply in_seq in Hi.
    apply transformer_component_swap, Hh. lia.
Qed.

Lemma transform_harmonics_at (vector : list R) (i : nat) :
  (i < List.length vector)%nat ->
  WaveTransformer.harmonics_at (WaveTransformer.vector_to_wave vector) i
  = Some (position_tags i).
Proof.
  intros Hi. rewrite vector_to_wave_closed_form.
  unfold WaveTransformer.harmonics_at. simpl.
  rewrite nth_error_map, nth_error_seq.
  destruct (Nat.ltb_spec i (List.length vector)); [reflexivity | lia].
Qed.

Lemma transform_well_formed (vector : list R) :
  well_formed (WaveTransformer.vector_to_wave vector).
Proof.
  rewrite vector_to_wave_closed_form. unfold well_formed. simpl.
  rewrite !length_map, length_seq. split; reflexivity.
Qed.

Lemma nth_error_defined {A} (l : list A) (i : nat) :
  (i < List.length l)%nat -> exists x, nth_error l i = Some x.
Proof.
  intros Hi. destruct (nth_error l i) as [x|] eqn:E.
  - now exists x.
  - apply nth_error_None in E. lia.
Qed.

(** On well-formed patterns that both carry tags at index [i], the summand
    of index [i] is defined. *)
Lemma transformer_component_defined (a b : WavePattern) (i : nat) h1s h2s :
  well_formed a -> well_formed b ->
  (i < Nat.min (List.length (frequencies a)) (List.length (frequencies b)))%nat ->
  WaveTransformer.harmonics_at a i = Some h1s ->
  WaveTransformer.harmonics_at b i = Some h2s ->
  exists c, WaveTransformer.component a b i = Some c.
Proof.
  intros [Haa Hap] [Hba Hbp] Hi H1 H2. unfold WaveTransformer.component.
  destruct (nth_error_defined (frequencies a) i) as [f1 ->]; [lia|].
  destruct (nth_error_defined (frequencies b) i) as [f2 ->]; [lia|].
  destruct (nth_error_defined (amplitudes a) i) as [a1 ->]; [lia|].
  destruct (nth_error_defined (amplitudes b) i) as [a2 ->]; [lia|].
  destruct (nth_error_defined (phases a) i) as [p1 ->]; [lia|].
  destruct (nth_error_defined (phases b) i) as [p2 ->]; [lia|].
  rewrite H1. simpl.
  destruct (outer_bonus_defined h1s h2s b i H2 1.0) as [bonus ->]. simpl.
  eexists. reflexivity.
Qed.

(** C3. The scorer is symmetric in everything but the bonus of step 4.
    The test [h1[0] == h2[0]], commented "Same harmonic relationship",
    compares the earlier index alone and the bonus is chosen by the label of
    the first pattern's tag: two patterns that tag the same earlier index
    with different intervals score 13/11 in one order (1.5 on the second
    component) and 12/11 in the other (1.3). *)
Theorem transformer_resonance_not_symmetric :
  WaveTransformer.calculate_resonance octave_pattern fifth_pattern
  = Some (13 / 11) /\
  WaveTransformer.calculate_resonance fifth_pattern octave_pattern
  = Some (12 / 11) /\
  WaveTransformer.calculate_resonance octave_pattern fifth_pattern
  <> WaveTransformer.calculate_resonance fifth_pattern octave_pattern.
Proof.
  assert (Hab : WaveTransformer.calculate_resonance octave_pattern fifth_pattern
                = Some (13 / 11)).
  { unfold WaveTransformer.calculate_resonance. cbn.
    rewrite !cos_same_phase. f_equal.
    rewrite (Rabs_of_nonneg (40 - 30)), (Rabs_of_nonneg (20 - 20)),
      (Rabs_of_nonneg (1 - 1)) by lra. lra. }
  assert (Hba : WaveTransformer.calculate_resonance fifth_pattern octave_pattern
                = Some (12 / 11)).
  { unfold WaveTransformer.calculate_resonance. cbn.
    rewrite !cos_same_phase. f_equal.
    rewrite (Rabs_of_nonpos (30 - 40)), (Rabs_of_nonneg (20 - 20)),
      (Rabs_of_nonneg (1 - 1)) by lra. lra. }
  split; [exact Hab|]. split; [exact Hba|].
  rewrite Hab, Hba. intros H. injection H as H. lra.
Qed.

(** X27. On the wave patterns the transform produces (of any two vectors,
    also of different lengths) the ingestion-time scorer returns a score,
    and the same score in both orders: the tags of a transform depend on the
    position alone, so the two patterns carry the same tags at every index
    and the order-dependent choice of the bonus cannot show. *)
Theorem transformer_resonance_symmetric_on_transforms :
  forall u v : list R,
    exists score,
      WaveTransformer.calculate_resonance
        (WaveTransformer.vector_to_wave u) (WaveTransformer.vector_to_wave v)
      = Some score /\
      WaveTransformer.calculate_resonance
        (WaveTransformer.vector_to_wave v) (WaveTransformer.vector_to_wave u)
      = Some score.
Proof.
  intros u v.
  set (a := WaveTransformer.vector_to_wave u).
  set (b := WaveTransformer.vector_to_wave v).
  assert (Hlen_a : List.length (frequencies a) = List.length u)
    by apply transform_frequencies_length.
  assert (Hlen_b : List.length (frequencies b) = List.length v)
    by apply transform_frequencies_length.
  assert (Hswap : WaveTransformer.calculate_resonance b a
                  = WaveTransformer.calculate_resonance a b).
  { symmetry. apply transformer_resonance_swap. intros i Hi.
    unfold a, b. rewrite !transform_harmonics_at by lia. reflexivity. }
  rewrite Hswap.
  unfold WaveTransformer.calculate_resonance.
  destruct (accumulate_defined (WaveTransformer.component a b)
              (seq 0 (Nat.min (List.length (frequencies a))
                              (List.length (frequencies b))))) with (score := 0.0)
    as [total Htotal].
  - intros i Hi. apply in_seq in Hi.
    apply transformer_component_defined
      with (h1s := position_tags i) (h2s := position_tags i).
    + apply transform_well_formed.
    + apply transform_well_formed.
    + lia.
    + apply transform_harmonics_at. lia.
    + apply transform_harmonics_at. lia.
  - rewrite Htotal. simpl. eexists. split; reflexivity.
Qed.

(** ** Ingestion-time against query-time scoring *)

Lemma small_position_tags :
  position_tags 0 = [] /\ position_tags 1 = [] /\ position_tags 2 = [] /\
  position_tags 3 = [(2%nat, "fifth")].
Proof.
  unfold position_tags. cbn [seq map].
  change (frequency_at 0) with 20. change (frequency_at 1) with 120.
  change (frequency_at 2) with 220. change (frequency_at 3) with 320.
  unfold WaveTransformer.tag_loop, WaveTransformer.interval_of.
  eval_tests. repeat split; reflexivity.
Qed.

Lemma inner_bonus_no_shared (h1 : HarmonicTag) (h2s : list HarmonicTag) :
  (forall h2, In h2 h2s -> fst h1 <> fst h2) ->
  forall bonus, WaveTransformer.inner_bonus h1 h2s bonus = bonus.
Proof.
  unfold WaveTransformer.inner_bonus.
  induction h2s as [|h2 rest IH]; intros Hne bonus; simpl.
  - reflexivity.
  - unfold WaveTransformer.bonus_step at 2.
    destruct (Nat.eqb_spec (fst h1) (fst h2)) as [E|_].
    + exfalso. apply (Hne h2); [left; reflexivity | exact E].
    + apply IH. intros h Hin. apply Hne. right. exact Hin.
Qed.

Lemma outer_bonus_no_shared (h1s : list HarmonicTag) (b : WavePattern) (i : nat) :
  (forall h2s h1 h2,
      WaveTransformer.harmonics_at b i = Some h2s ->
      In h1 h1s -> In h2 h2s -> fst h1 <> fst h2) ->
  forall bonus result,
    WaveTransformer.outer_bonus h1s b i bonus = Some result -> result = bonus.
Proof.
  induction h1s as [|h1 rest IH]; intros Hne bonus result; simpl.
  - intros H. now injection H.
  - destruct (WaveTransformer.harmonics_at b i) as [h2s|] eqn:Hb; simpl;
      [|discriminate].
    rewrite inner_bonus_no_shared
      by (intros h2 Hin; apply (Hne h2s); [reflexivity | left; reflexivity | exact Hin]).
    apply IH. intros h2s' h1' h2 Hh Hin1 Hin2.
    apply (Hne h2s'); [exact Hh | right; exact Hin1 | exact Hin2].
Qed.

Lemma preference_bonus_balanced (context : SearchContext) (ratio : R) :
  harmonic_preference context = "balanced" ->
  WaveSearchEngine.preference_bonus context ratio = 1.0.
Proof.
  intros Hp. unfold WaveSearchEngine.preference_bonus. rewrite Hp. reflexivity.
Qed.

Lemma modulate_focused (context : SearchContext) (amp_corr c : R) :
  emotional_state context = "focused" ->
  WaveSearchEngine.modulate context amp_corr c = c.
Proof.
  intros Hs. unfold WaveSearchEngine.modulate. rewrite Hs. reflexivity.
Qed.

(** With modulation off the query-time summand is the ingestion-time one
    whenever the tags of the two patterns share no earlier index. *)
Lemma components_agree_without_shared_tags
    (a b : WavePattern) (context : SearchContext) (i : nat) (c : R) :
  emotional_state context = "focused" ->
  harmonic_preference context = "balanced" ->
  no_shared_tags a b ->
  WaveTransformer.component a b i = Some c ->
  WaveSearchEngine.component a b context i = Some c.
Proof.
  intros Hs Hp Hno.
  unfold WaveTransformer.component, WaveSearchEngine.component.
  destruct (nth_error (frequencies a) i) as [f1|]; simpl; [|discriminate].
  destruct (nth_error (frequencies b) i) as [f2|]; simpl; [|discriminate].
  destruct (nth_error (amplitudes a) i) as [a1|]; simpl; [|discriminate].
  destruct (nth_error (amplitudes b) i) as [a2|]; simpl; [|discriminate].
  destruct (nth_error (phases a) i) as [p1|]; simpl; [|discriminate].
  destruct (nth_error (phases b) i) as [p2|]; simpl; [|discriminate].
  destruct (WaveTransformer.harmonics_at a i) as [h1s|] eqn:Ha; simpl;
    [|discriminate].
  destruct (WaveTransformer.outer_bonus h1s b i 1.0) as [bonus|] eqn:Hb; simpl;
    [|discriminate].
  apply outer_bonus_no_shared in Hb.
  - subst bonus. rewrite preference_bonus_balanced, modulate_focused by assumption.
    trivial.
  - intros h2s h1 h2 Hh Hin1 Hin2. exact (Hno i h1s h2s h1 h2 Ha Hh Hin1 Hin2).
Qed.

(** C1, as stated, fails: the query-time scorer has no tag-based bonus at
    all.  On the transform of a four-component vector, scored against
    itself, the ingestion-time scorer multiplies the last summand by 1.3 (the
    shared "fifth" tag) and returns 1.075; the query-time scorer returns 1. *)
Lemma scorers_differ_on_tagged_transform :
  WaveTransformer.calculate_resonance
    (WaveTransformer.vector_to_wave four_ones)
    (WaveTransformer.vector_to_wave four_ones)
  <> WaveSearchEngine.calculate_resonance
       (WaveTransformer.vector_to_wave four_ones)
       (WaveTransformer.vector_to_wave four_ones) neutral_context.
Proof.
  destruct small_position_tags as [T0 [T1 [T2 T3]]].
  rewrite vector_to_wave_closed_form.
  unfold WaveTransformer.calculate_resonance, WaveSearchEngine.calculate_resonance.
  cbn -[position_tags frequency_at phase_of INR].
  rewrite T0, T1, T2, T3.
  cbn -[frequency_at phase_of INR].
  rewrite !Rabs_self, cos_0.
  cbn [INR].
  intros H. injection H as H. revert H. lra.
Qed.

(** On the patterns as they are, tags included, the two scorers agree
    whenever the ingestion-time scorer returns a score and no tag of a names
    the same earlier index as a tag of b at the same position: the bonus of
    step 4 is then 1. *)
Lemma scorers_agree_without_shared_tags :
  forall (a b : WavePattern) (context : SearchContext) (score : R),
    emotional_state context = "focused" ->
    harmonic_preference context = "balanced" ->
    no_shared_tags a b ->
    WaveTransformer.calculate_resonance a b = Some score ->
    WaveSearchEngine.calculate_resonance a b context = Some score.
Proof.
  intros a b context score Hs Hp Hno.
  unfold WaveTransformer.calculate_resonance, WaveSearchEngine.calculate_resonance.
  set (n := Nat.min (List.length (frequencies a)) (List.length (frequencies b))).
  destruct (accumulate (WaveTransformer.component a b) (seq 0 n) 0.0)
    as [total|] eqn:Hacc; simpl; [|discriminate].
  rewrite (accumulate_transfer (WaveTransformer.component a b)
             (WaveSearchEngine.component a b context) (seq 0 n)) with (total := total).
  - trivial.
  - intros i c _ Hc. now apply components_agree_without_shared_tags.
  - exact Hacc.
Qed.

Lemma without_tags_at (w : WavePattern) (i : nat) :
  (i < List.length (frequencies w))%nat ->
  WaveTransformer.harmonics_at (without_tags w) i = Some [].
Proof.
  intros Hi. unfold WaveTransformer.harmonics_at, without_tags. cbn.
  rewrite nth_error_map.
  destruct (nth_error (frequencies w) i) eqn:E; [reflexivity|].
  apply nth_error_None in E. lia.
Qed.

(** With modulation off, the query-time summand is the ingestion-time
    summand of the patterns without their tags. *)
Lemma untagged_component (a b : WavePattern) (context : SearchContext) (i : nat) :
  emotional_state context = "focused" ->
  harmonic_preference context = "balanced" ->
  (i < List.length (frequencies a))%nat ->
  WaveSearchEngine.component a b context i
  = WaveTransformer.component (without_tags a) (without_tags b) i.
Proof.
  intros Hs Hp Hi.
  unfold WaveSearchEngine.component, WaveTransformer.component.
  rewrite (without_tags_at a i Hi).
  cbn [without_tags frequencies amplitudes phases].
  destruct (nth_error (frequencies a) i) as [f1|]; cbn [bind]; [|reflexivity].
  destruct (nth_error (frequencies b) i) as [f2|]; cbn [bind]; [|reflexivity].
  destruct (nth_error (amplitudes a) i) as [a1|]; cbn [bind]; [|reflexivity].
  destruct (nth_error (amplitudes b) i) as [a2|]; cbn [bind]; [|reflexivity].
  destruct (nth_error (phases a) i) as [p1|]; cbn [bind]; [|reflexivity].
  destruct (nth_error (phases b) i) as [p2|]; cbn [bind]; [|reflexivity].
  cbn [WaveTransformer.outer_bonus].
  rewrite preference_bonus_balanced, modulate_focused by assumption.
  reflexivity.
Qed.

(** C1, amended. The two scorers share steps 1 to 3 and differ by step 4
    alone: for every pair of wave patterns a and b and every context with
    emotional_state = focused and harmonic_preference = balanced, the
    query-time scorer gives on a and b what the ingestion-time scorer gives on
    a and b with their harmonic tags removed -- the same score, or an
    exception in both. *)
Theorem query_scorer_is_untagged_ingestion_scorer :
  forall (a b : WavePattern) (context : SearchContext),
    emotional_state context = "focused" ->
    harmonic_preference context = "balanced" ->
    WaveSearchEngine.calculate_resonance a b context
    = WaveTransformer.calculate_resonance (without_tags a) (without_tags b).
Proof.
  intros a b context Hs Hp.
  unfold WaveSearchEngine.calculate_resonance, WaveTransformer.calculate_resonance.
  cbn [without_tags frequencies].
  set (n := Nat.min (List.length (frequencies a)) (List.length (frequencies b))).
  rewrite (accumulate_ext (WaveSearchEngine.component a b context)
             (WaveTransformer.component (without_tags a) (without_tags b))).
  - reflexivity.
  - intros i Hi. apply in_seq in Hi. apply untagged_component; try assumption.
    unfold n in Hi. lia.
Qed.

Lemma query_scorer_is_untagged_ingestion_scorer_witness :
  WaveSearchEngine.calculate_resonance
    (WaveTransformer.vector_to_wave four_ones)
    (WaveTransformer.vector_to_wave four_ones) neutral_context
  = WaveTransformer.calculate_resonance
      (without_tags (WaveTransformer.vector_to_wave four_ones))
      (without_tags (WaveTransformer.vector_to_wave four_ones)).
Proof.
  apply (query_scorer_is_untagged_ingestion_scorer
           (WaveTransformer.vector_to_wave four_ones)
           (WaveTransformer.vector_to_wave four_ones) neutral_context);
    reflexivity.
Defined.

(** ** The query-time scorer *)

Lemma query_component_reflexive (a : WavePattern) (context : SearchContext) (i : nat) :
  well_formed a ->
  emotional_state context = "focused" ->
  harmonic_preference context = "balanced" ->
  (i < List.length (frequencies a))%nat ->
  WaveSearchEngine.component a a context i = Some 1.
Proof.
  intros [Ha Hp] Hstate Hpref Hi. unfold WaveSearchEngine.component.
  destruct (nth_error_defined (frequencies a) i) as [f ->]; [lia|].
  destruct (nth_error_defined (amplitudes a) i) as [m ->]; [lia|].
  destruct (nth_error_defined (phases a) i) as [p ->]; [lia|].
  simpl.
  rewrite preference_bonus_balanced, modulate_focused by assumption.
  rewrite !Rabs_self, cos_0. f_equal. lra.
Qed.

(** C6. For every non-empty wave pattern a (its amplitudes and phases as
    long as its frequencies), the query-time scorer returns exactly 1 for a
    against itself under a context with emotional_state = focused and
    harmonic_preference = balanced. *)
Theorem query_resonance_reflexive :
  forall (a : WavePattern) (context : SearchContext),
    frequencies a <> [] ->
    well_formed a ->
    emotional_state context = "focused" ->
    harmonic_preference context = "balanced" ->
    WaveSearchEngine.calculate_resonance a a context = Some 1.
Proof.
  intros a context Hne Hwf Hstate Hpref.
  unfold WaveSearchEngine.calculate_resonance.
  rewrite Nat.min_id.
  set (n := List.length (frequencies a)).
  assert (Hn : (0 < n)%nat).
  { unfold n. destruct (frequencies a); [contradiction | simpl; lia]. }
  rewrite (accumulate_constant (WaveSearchEngine.component a a context) 1).
  - cbn [bind]. rewrite length_seq.
    destruct (Nat.ltb_spec 0 n) as [_|Hle]; [|lia].
    f_equal. replace (0.0 + INR n * 1) with (INR n) by lra.
    apply Rdiv_diag. apply not_0_INR. lia.
  - intros i Hi. apply in_seq in Hi.
    apply query_component_reflexive; auto. fold n. lia.
Qed.

Lemma fifth_pattern_well_formed : well_formed fifth_pattern.
Proof. split; reflexivity. Qed.

Lemma query_resonance_reflexive_witness :
  WaveSearchEngine.calculate_resonance fifth_pattern fifth_pattern neutral_context
  = Some 1.
Proof.
  apply (query_resonance_reflexive fifth_pattern neutral_context).
  - discriminate.
  - exact fifth_pattern_well_formed.
  - reflexivity.
  - reflexivity.
Defined.

(** ** Raw against focused on binary64 *)


(** A literal with decimal places is the quotient of two integers, rounded
    once: on binary64 that is the number Python reads the literal as. *)
Example decimal_literals_on_binary64 :
  [Numeric.decimal Binary64.arithmetic 1 1;
   Numeric.decimal Binary64.arithmetic 7 1;
   Numeric.decimal Binary64.arithmetic 13 1;
   Numeric.decimal Binary64.arithmetic 1414 3;
   Numeric.decimal Binary64.arithmetic 18 1]
  = Binary64.literals.
Proof. vm_compute. reflexivity. Qed.

(** Without a negative summand the raw score can still fail to be higher,
    through underflow: a single summand of 13 x 2^-1074 among eighteen gives
    the focused score 2^-1074 (13/18 rounds to 1), and its double gives the
    same raw score (26/18 rounds to 1). *)
Example raw_score_equals_focused_on_underflow :
  Numeric.calculate_resonance Binary64.arithmetic
    Binary64.far_wave Binary64.still_wave (Binary64.default_context "focused")
  = Some Binary64.least /\
  Numeric.calculate_resonance Binary64.arithmetic
    Binary64.far_wave Binary64.still_wave (Binary64.default_context "raw")
  = Some Binary64.least /\
  PrimFloat.ltb (Binary64.of_int 0) Binary64.least = true /\
  forall i,
    (i < 18)%nat ->
    exists c,
      Numeric.component Binary64.arithmetic Binary64.far_wave
        Binary64.still_wave (Binary64.default_context "focused") i = Some c /\
      PrimFloat.leb (Binary64.of_int 0) c = true.
Proof.
  repeat split; try (vm_compute; reflexivity).
  intros i Hi.
  do 18 (destruct i as [|i];
         [eexists; split; vm_compute; reflexivity|]).
  lia.
Qed.

(** ** Raw against focused, with rounding *)

Section RawAgainstFocused.

Variables rnd cosine : R -> R.

Hypothesis rnd_monotone : forall x y, x <= y -> rnd x <= rnd y.
Hypothesis rnd_idempotent : forall x, rnd (rnd x) = rnd x.
Hypothesis rnd_one : rnd 1 = 1.


(** The factor [m] by which the raw score is shown to dominate: 1 for any
    rounding, 2 when doubling is exact. *)
Variable m : R.

Hypothesis m_positive : 0 < m.
Hypothesis m_scales : forall x, rnd (m * x) = m * rnd x.
Hypothesis m_below_two : m <= rnd 2.
Hypothesis m_at_zero : m * rnd 0 <= rnd 0.

Variables a b : Numeric.WavePattern R.
Variables focused raw : Numeric.SearchContext R.

Hypothesis focused_state : Numeric.emotional_state focused = "focused".
Hypothesis raw_state : Numeric.emotional_state raw = "raw".
Hypothesis same_preference :
  Numeric.harmonic_preference raw = Numeric.harmonic_preference focused.
Hypothesis amplified : 1 <= Numeric.truth_amplification raw.







End RawAgainstFocused.


(** ** A rounding that rounds *)



(** On these inputs every operation returns a small integer, which any
    rounding that keeps the integers returns unchanged. *)
Section PlainWave.

Variable rnd : R -> R.

Hypothesis rnd_integer : forall (x : R) (z : Z), x = IZR z -> rnd x = IZR z.





End PlainWave.


(** ** The scorer on numbers, read on the reals *)

(** Writing the decimal literals as quotients of integers. *)
Ltac as_quotients :=
  try replace 1.0 with 1 by lra;
  try replace 2.0 with 2 by lra;
  try replace 3.0 with 3 by lra;
  try replace 0.0 with 0 by lra;
  try replace 0.1 with (1 / 10) by lra;
  try replace 1.5 with (15 / 10) by lra;
  try replace 1.8 with (18 / 10) by lra;
  try replace 1.414 with (1414 / 1000) by lra;
  try replace 1.3 with (13 / 10) by lra;
  try replace 0.7 with (7 / 10) by lra.

Lemma exact_accumulate (f g : nat -> option R) (indices : list nat) :
  (forall i, In i indices -> f i = g i) ->
  forall score,
    Numeric.accumulate Numeric.exact f indices score
    = accumulate g indices score.
Proof.
  induction indices as [|i rest IH]; intros Hfg score; simpl; [reflexivity|].
  rewrite (Hfg i) by (left; reflexivity).
  destruct (g i) as [c|]; simpl; [|reflexivity].
  apply IH. intros j Hj. apply Hfg. right. exact Hj.
Qed.

Lemma exact_component (a b : WavePattern) (c : SearchContext) (i : nat) :
  Numeric.component Numeric.exact (numeric_wave a) (numeric_wave b)
    (numeric_context c) i
  = WaveSearchEngine.component a b c i.
Proof.
  unfold Numeric.component, WaveSearchEngine.component,
    Numeric.preference_bonus, WaveSearchEngine.preference_bonus,
    Numeric.modulate, WaveSearchEngine.modulate, Numeric.decimal, Rgtb.
  cbn. as_quotients. reflexivity.
Qed.

Lemma exact_scorer (a b : WavePattern) (c : SearchContext) :
  Numeric.calculate_resonance Numeric.exact (numeric_wave a) (numeric_wave b)
    (numeric_context c)
  = WaveSearchEngine.calculate_resonance a b c.
Proof.
  unfold Numeric.calculate_resonance, WaveSearchEngine.calculate_resonance.
  cbn [numeric_wave Numeric.frequencies].
  set (n := Nat.min (List.length (frequencies a)) (List.length (frequencies b))).
  rewrite (exact_accumulate _ (WaveSearchEngine.component a b c))
    by (intros i _; apply exact_component).
  cbn. replace 0.0 with 0 by lra.
  destruct (accumulate _ _ _) as [score|]; cbn [bind]; [|reflexivity].
  rewrite INR_IZR_INZ. reflexivity.
Qed.

(** ** The stable descending sort *)

Section SortDesc.

Context {A : Type} (key : A -> R).

Lemma in_insert_desc (x y : A) (l : list A) :
  In y (insert_desc key x l) <-> y = x \/ In y l.
Proof.
  induction l as [|z l IH]; simpl.
  - intuition.
  - destruct (Rltb (key x) (key z)); simpl; [rewrite IH|]; intuition.
Qed.

Lemma in_sort_desc (y : A) (l : list A) : In y (sort_desc key l) <-> In y l.
Proof.
  induction l as [|x l IH]; simpl.
  - reflexivity.
  - rewrite in_insert_desc, IH. intuition.
Qed.

Lemma length_insert_desc (x : A) (l : list A) :
  List.length (insert_desc key x l) = S (List.length l).
Proof.
  induction l as [|z l IH]; simpl; [reflexivity|].
  destruct (Rltb (key x) (key z)); simpl; [rewrite IH|]; reflexivity.
Qed.

Lemma length_sort_desc (l : list A) :
  List.length (sort_desc key l) = List.length l.
Proof.
  induction l as [|x l IH]; simpl; [reflexivity|].
  now rewrite length_insert_desc, IH.
Qed.

Lemma insert_desc_descending (x : A) (l : list A) :
  descending key l -> descending key (insert_desc key x l).
Proof.
  unfold descending. induction l as [|z l IH]; intros Hs; simpl.
  - repeat constructor.
  - inversion Hs as [|? ? Hl Hz]; subst.
    destruct (Rltb (key x) (key z)) eqn:E.
    + apply Rltb_lt in E. constructor; [apply IH; exact Hl|].
      apply Forall_forall. intros y Hy. apply in_insert_desc in Hy.
      destruct Hy as [->|Hy]; [lra|].
      rewrite Forall_forall in Hz. apply Hz, Hy.
    + apply Rltb_ge in E. constructor; [exact Hs|].
      constructor; [lra|].
      rewrite Forall_forall in Hz |- *. intros y Hy.
      specialize (Hz y Hy). lra.
Qed.

Lemma sort_desc_descending (l : list A) : descending key (sort_desc key l).
Proof.
  induction l as [|x l IH]; simpl.
  - constructor.
  - apply insert_desc_descending, IH.
Qed.

(** Sorting a list that is already descending changes nothing: the second
    sort of [search] may as well run when nothing was boosted. *)
Lemma sort_desc_of_descending (l : list A) :
  descending key l -> sort_desc key l = l.
Proof.
  unfold descending. induction l as [|x l IH]; intros Hs; simpl.
  - reflexivity.
  - inversion Hs as [|? ? Hl Hx]; subst.
    rewrite IH by exact Hl.
    destruct l as [|z l']; simpl; [reflexivity|].
    inversion Hx as [|? ? Hxz _]; subst.
    rewrite Rltb_false by lra. reflexivity.
Qed.

Lemma in_firstn (n : nat) (l : list A) (x : A) : In x (firstn n l) -> In x l.
Proof.
  revert l. induction n as [|n IH]; intros [|y l]; simpl; try contradiction.
  intros [->|H]; [left; reflexivity | right; apply IH, H].
Qed.

Lemma firstn_descending (n : nat) (l : list A) :
  descending key l -> descending key (firstn n l).
Proof.
  unfold descending. revert l.
  induction n as [|n IH]; intros [|x l] Hs; simpl; try constructor.
  - inversion Hs; subst. apply IH. assumption.
  - inversion Hs as [|? ? _ Hx]; subst.
    rewrite Forall_forall in Hx |- *. intros y Hy. apply Hx, in_firstn with n, Hy.
Qed.

(** The top [k] of the sorted strong links make a valid neighbour list. *)
Lemma top_links_ok (k : nat) (l : list A) :
  Forall (fun x => key x > 0.5) l ->
  neighbour_list_ok key k (firstn k (sort_desc key l)).
Proof.
  intros Hl. repeat split.
  - rewrite length_firstn. lia.
  - apply firstn_descending, sort_desc_descending.
  - rewrite Forall_forall in Hl |- *. intros x Hx.
    apply Hl, in_sort_desc, in_firstn with k, Hx.
Qed.

End SortDesc.

(** ** The position of an entry in the sorted list *)

Section Ranking.

Context {A : Type} (key : A -> R).

Lemma Rgeb_ge (x y : R) : Rgeb x y = true <-> x >= y.
Proof. unfold Rgeb. destruct (Rge_dec x y); split; auto; discriminate. Qed.

Lemma insert_desc_permutation (x : A) (l : list A) :
  Permutation (x :: l) (insert_desc key x l).
Proof.
  induction l as [|z l IH]; simpl; [reflexivity|].
  destruct (Rltb (key x) (key z)); [|reflexivity].
  rewrite perm_swap. apply perm_skip, IH.
Qed.

Lemma sort_desc_permutation (l : list A) : Permutation l (sort_desc key l).
Proof.
  induction l as [|x l IH]; simpl; [constructor|].
  rewrite <- insert_desc_permutation. apply perm_skip, IH.
Qed.

Lemma count_permutation (f : A -> bool) (l l' : list A) :
  Permutation l l' ->
  List.length (filter f l) = List.length (filter f l').
Proof.
  induction 1 as [|x l l' _ IH|x y l|l l' l'' _ IH1 _ IH2]; simpl.
  - reflexivity.
  - destruct (f x); simpl; congruence.
  - destruct (f x), (f y); reflexivity.
  - congruence.
Qed.

Lemma filter_none (f : A -> bool) (l : list A) :
  (forall y, In y l -> f y = false) -> filter f l = [].
Proof.
  induction l as [|z l IH]; intros Hf; simpl; [reflexivity|].
  rewrite (Hf z) by (left; reflexivity).
  apply IH. intros y Hy. apply Hf. right. exact Hy.
Qed.

(** A new element goes behind the elements that score strictly more. *)
Lemma insert_desc_position (x : A) (l : list A) :
  descending key l ->
  nth_error (insert_desc key x l)
    (List.length (filter (fun y => Rgtb (key y) (key x)) l))
  = Some x.
Proof.
  unfold descending. induction l as [|z l IH]; intros Hs; simpl; [reflexivity|].
  inversion Hs as [|? ? Hl Hz]; subst. unfold Rgtb at 1.
  destruct (Rltb (key x) (key z)) eqn:E; simpl.
  - apply IH, Hl.
  - apply Rltb_ge in E.
    rewrite filter_none; [reflexivity|].
    intros y Hy. rewrite Forall_forall in Hz.
    specialize (Hz y Hy). unfold Rgtb. apply Rltb_false. lra.
Qed.

(** An element already there moves one place back exactly when the new
    element scores at least as much. *)
Lemma insert_desc_shift (x e : A) (l : list A) :
  descending key l ->
  forall r,
    nth_error l r = Some e ->
    nth_error (insert_desc key x l)
      (if Rgeb (key x) (key e) then S r else r)
    = Some e.
Proof.
  unfold descending. induction l as [|z l IH]; intros Hs r Hr.
  - destruct r; discriminate.
  - inversion Hs as [|? ? Hl Hz]; subst. simpl.
    destruct (Rltb (key x) (key z)) eqn:E.
    + apply Rltb_lt in E. destruct r as [|r]; simpl in Hr.
      * injection Hr as <-.
        destruct (Rgeb (key x) (key z)) eqn:G; [|reflexivity].
        apply Rgeb_ge in G. lra.
      * specialize (IH Hl r Hr).
        destruct (Rgeb (key x) (key e)); exact IH.
    + apply Rltb_ge in E.
      assert (G : Rgeb (key x) (key e) = true).
      { apply Rgeb_ge. destruct r as [|r]; simpl in Hr.
        - injection Hr as <-. lra.
        - rewrite Forall_forall in Hz.
          specialize (Hz e (nth_error_In _ _ Hr)). lra. }
      rewrite G. exact Hr.
Qed.

(** The stable descending sort puts every entry at its rank. *)
Lemma sort_desc_ranking (l : list A) : ranking_of key l (sort_desc key l).
Proof.
  split; [apply sort_desc_permutation|].
  induction l as [|y l IH]; intros p x Hp.
  - destruct p; discriminate.
  - cbn [sort_desc fold_right]. fold (sort_desc key l).
    destruct p as [|p]; simpl in Hp.
    + injection Hp as <-. unfold entries_ahead. cbn [firstn filter List.length skipn].
      rewrite (count_permutation _ _ _ (sort_desc_permutation l)).
      apply insert_desc_position, sort_desc_descending.
    + specialize (IH p x Hp).
      unfold entries_ahead in *. cbn [firstn filter skipn].
      pose proof (insert_desc_shift y x (sort_desc key l)
                    (sort_desc_descending key l) _ IH) as Hshift.
      destruct (Rgeb (key y) (key x)); exact Hshift.
Qed.

End Ranking.

(** ** Dictionaries *)

Lemma dict_set_values {V} (P : V -> Prop) (k : string) (v : V) (d : PyDict.dict V) :
  Forall (fun kv => P (snd kv)) d -> P v ->
  Forall (fun kv => P (snd kv)) (PyDict.set k v d).
Proof.
  intros Hd Hv. induction d as [|[k' v'] rest IH]; simpl.
  - repeat constructor. exact Hv.
  - inversion Hd; subst.
    destruct (String.eqb k k'); constructor; simpl; auto.
Qed.

(** ** The graph builders *)

Lemma mem8_resonances_above (others : list LibraryDocument) :
  forall i doc j resonances result,
    Forall (fun link => snd link > 0.5) resonances ->
    Mem8Ingester.resonances_loop i doc j others resonances = Some result ->
    Forall (fun link => snd link > 0.5) result.
Proof.
  induction others as [|other rest IH]; intros i doc j resonances result Hacc; simpl.
  - intros H. injection H as <-. exact Hacc.
  - destruct (negb (Nat.eqb i j)); [|apply IH; exact Hacc].
    destruct (WaveTransformer.calculate_resonance_opt _ _) as [r|]; simpl;
      [|discriminate].
    apply IH. destruct (Rltb 0.5 r) eqn:E; unfold Rgtb; rewrite E; [|exact Hacc].
    apply Forall_app. split; [exact Hacc|].
    repeat constructor. simpl. apply Rltb_lt in E. lra.
Qed.

Lemma mem8_index_loop_ok (pending : list LibraryDocument) :
  forall i docs index result,
    Forall (fun kv => neighbour_list_ok snd 10 (snd kv))
           (Mem8Ingester.resonance_graph index) ->
    Mem8Ingester.index_loop i pending docs index = Some result ->
    Forall (fun kv => neighbour_list_ok snd 10 (snd kv))
           (Mem8Ingester.resonance_graph result).
Proof.
  induction pending as [|doc rest IH]; intros i docs index result Hok;
    cbn [Mem8Ingester.index_loop].
  - intros H. injection H as <-. exact Hok.
  - destruct (Mem8Ingester.resonances_loop i doc 0 docs []) as [rs|] eqn:Hrs;
      cbn [bind]; [|discriminate].
    apply IH. cbn [Mem8Ingester.resonance_graph].
    apply mem8_resonances_above in Hrs; [|constructor].
    destruct rs as [|r rs']; [exact Hok|].
    apply (dict_set_values (neighbour_list_ok snd 10)); [exact Hok|].
    apply top_links_ok. exact Hrs.
Qed.

Lemma mem8_category_loop_ok (categories : PyDict.dict (list LibraryDocument)) :
  forall written result,
    Forall (fun index =>
              Forall (fun kv => neighbour_list_ok snd 10 (snd kv))
                     (Mem8Ingester.resonance_graph index)) written ->
    Mem8Ingester.category_loop categories written = Some result ->
    Forall (fun index =>
              Forall (fun kv => neighbour_list_ok snd 10 (snd kv))
                     (Mem8Ingester.resonance_graph index)) result.
Proof.
  induction categories as [|[category docs] rest IH]; intros written result Hok; simpl.
  - intros H. injection H as <-. exact Hok.
  - destruct (Mem8Ingester.index_loop 0 docs docs _) as [index|] eqn:Hindex;
      simpl; [|discriminate].
    apply IH. apply Forall_app. split; [exact Hok|].
    repeat constructor.
    apply mem8_index_loop_ok in Hindex; [exact Hindex | constructor].
Qed.

Lemma qdrant_resonances_above (others : list LibraryDocument) :
  forall category i wave1 j resonances result,
    Forall (fun link => QdrantIngester.resonance link > 0.5) resonances ->
    QdrantIngester.resonances_loop category i wave1 j others resonances = Some result ->
    Forall (fun link => QdrantIngester.resonance link > 0.5) result.
Proof.
  induction others as [|doc2 rest IH];
    intros category i wave1 j resonances result Hacc; simpl.
  - intros H. injection H as <-. exact Hacc.
  - destruct (Nat.eqb i j); [apply IH; exact Hacc|].
    destruct (wave_pattern doc2) as [wave2|]; [|apply IH; exact Hacc].
    destruct (WaveTransformer.calculate_resonance wave1 wave2) as [r|]; simpl;
      [|discriminate].
    apply IH. destruct (Rltb 0.5 r) eqn:E; unfold Rgtb; rewrite E; [|exact Hacc].
    apply Forall_app. split; [exact Hacc|].
    repeat constructor. simpl. apply Rltb_lt in E. lra.
Qed.

Lemma qdrant_docs_loop_ok (pending : list LibraryDocument) :
  forall category i docs data result,
    Forall (fun kv => neighbour_list_ok QdrantIngester.resonance 20 (snd kv)) data ->
    QdrantIngester.docs_loop category i pending docs data = Some result ->
    Forall (fun kv => neighbour_list_ok QdrantIngester.resonance 20 (snd kv)) result.
Proof.
  induction pending as [|doc1 rest IH]; intros category i docs data result Hok;
    cbn [QdrantIngester.docs_loop].
  - intros H. injection H as <-. exact Hok.
  - destruct (wave_pattern doc1) as [wave1|]; [|apply IH; exact Hok].
    destruct (QdrantIngester.resonances_loop category i wave1 0 docs [])
      as [rs|] eqn:Hrs; cbn [bind]; [|discriminate].
    apply IH.
    apply qdrant_resonances_above in Hrs; [|constructor].
    destruct rs as [|r rs']; [exact Hok|].
    apply (dict_set_values (neighbour_list_ok QdrantIngester.resonance 20));
      [exact Hok|].
    apply top_links_ok. exact Hrs.
Qed.

Lemma qdrant_category_loop_ok (categories : PyDict.dict (list LibraryDocument)) :
  forall data result,
    Forall (fun kv => neighbour_list_ok QdrantIngester.resonance 20 (snd kv)) data ->
    QdrantIngester.category_loop categories data = Some result ->
    Forall (fun kv => neighbour_list_ok QdrantIngester.resonance 20 (snd kv)) result.
Proof.
  induction categories as [|[category docs] rest IH]; intros data result Hok; simpl.
  - intros H. injection H as <-. exact Hok.
  - destruct (QdrantIngester.docs_loop category 0 docs docs data) as [data'|] eqn:Hd;
      simpl; [|discriminate].
    apply IH. apply qdrant_docs_loop_ok in Hd; assumption.
Qed.

Lemma plain_pattern_resonates :
  WaveTransformer.calculate_resonance plain_pattern plain_pattern = Some 1.
Proof.
  unfold WaveTransformer.calculate_resonance. cbn.
  rewrite !Rabs_self, cos_0. f_equal. lra.
Qed.

Lemma twin_docs_ingested :
  Mem8Ingester.ingest_documents twin_docs = Some [twin_index].
Proof.
  unfold Mem8Ingester.ingest_documents.
  cbn -[WaveTransformer.calculate_resonance].
  rewrite !plain_pattern_resonates. cbn.
  eval_tests. reflexivity.
Qed.

Lemma twin_docs_indexed :
  QdrantIngester.create_resonance_indices twin_docs = Some twin_graph.
Proof.
  unfold QdrantIngester.create_resonance_indices.
  cbn -[WaveTransformer.calculate_resonance].
  rewrite !plain_pattern_resonates. cbn.
  eval_tests. reflexivity.
Qed.

(** C4. In every category index [Mem8Ingester.ingest_documents] writes, and
    in the graph [QdrantIngester.create_resonance_indices] returns, the
    neighbour list of every document has at most K entries (K = 10 for the
    first, K = 20 for the second), is in descending order of resonance, and
    holds only scores strictly above 0.5. *)
Theorem graph_neighbour_lists_ok :
  forall documents : list LibraryDocument,
    (forall indices index doc_id neighbours,
        Mem8Ingester.ingest_documents documents = Some indices ->
        In index indices ->
        In (doc_id, neighbours) (Mem8Ingester.resonance_graph index) ->
        neighbour_list_ok snd 10 neighbours) /\
    (forall graph doc_id neighbours,
        QdrantIngester.create_resonance_indices documents = Some graph ->
        In (doc_id, neighbours) graph ->
        neighbour_list_ok QdrantIngester.resonance 20 neighbours).
Proof.
  intros documents. split.
  - intros indices index doc_id neighbours Hrun Hindex Hentry.
    apply mem8_category_loop_ok in Hrun; [|constructor].
    rewrite Forall_forall in Hrun. specialize (Hrun index Hindex).
    rewrite Forall_forall in Hrun. exact (Hrun (doc_id, neighbours) Hentry).
  - intros graph doc_id neighbours Hrun Hentry.
    apply qdrant_category_loop_ok in Hrun; [|constructor].
    rewrite Forall_forall in Hrun. exact (Hrun (doc_id, neighbours) Hentry).
Qed.

Lemma graph_neighbour_lists_ok_witness :
  neighbour_list_ok snd 10 [("b", 1)] /\
  neighbour_list_ok QdrantIngester.resonance 20
    [{| QdrantIngester.target_id := "b"; QdrantIngester.resonance := 1;
        QdrantIngester.link_category := "physics" |}].
Proof.
  destruct (graph_neighbour_lists_ok twin_docs) as [Hmem8 Hqdrant]. split.
  - apply (Hmem8 [twin_index] twin_index "a").
    + exact twin_docs_ingested.
    + left. reflexivity.
    + left. reflexivity.
  - apply (Hqdrant twin_graph "a").
    + exact twin_docs_indexed.
    + left. reflexivity.
Defined.

(** C2, on the code. [Mem8Ingester.ingest_documents] has no guard for a
    missing wave pattern: with a document without one next to two others of
    its category, the first call of the scorer raises and nothing is
    written. *)
Theorem mem8_ingest_fails_on_missing_wave :
  Mem8Ingester.ingest_documents docs_with_gap = None.
Proof. reflexivity. Qed.

(** The sibling builder has the guard: on the same documents it returns the
    graph of the two documents that have a wave pattern. *)
Lemma qdrant_skips_missing_wave :
  QdrantIngester.create_resonance_indices docs_with_gap
  = QdrantIngester.create_resonance_indices twin_docs.
Proof.
  rewrite twin_docs_indexed.
  unfold QdrantIngester.create_resonance_indices.
  cbn -[WaveTransformer.calculate_resonance].
  rewrite !plain_pattern_resonates. cbn.
  eval_tests. reflexivity.
Qed.

(** ** The harmonics finder *)

Lemma harmonic_step_defined (harmonic_type : string) (base other : list R) (i : nat) :
  (i < Nat.min (List.length base) (List.length other))%nat ->
  exists c, WaveSearchEngine.harmonic_step harmonic_type base other i = Some c.
Proof.
  intros Hi. unfold WaveSearchEngine.harmonic_step.
  destruct (nth_error_defined base i) as [b ->]; [lia|].
  destruct (nth_error_defined other i) as [o ->]; [lia|].
  simpl. destruct (Rgtb b 0); simpl; eexists; reflexivity.
Qed.

Lemma harmonic_step_nonneg (harmonic_type : string) (base other : list R)
    (i : nat) (c : R) :
  WaveSearchEngine.harmonic_step harmonic_type base other i = Some c -> 0 <= c.
Proof.
  unfold WaveSearchEngine.harmonic_step.
  destruct (nth_error base i) as [b|]; simpl; [|discriminate].
  destruct (if Rgtb b 0 then _ else _) as [ratio|]; simpl; [|discriminate].
  intros H. injection H as <-.
  repeat match goal with |- context [if ?t then _ else _] => destruct t end; lra.
Qed.

Lemma accumulate_lower_bound (f : nat -> option R) (indices : list nat) :
  (forall i c, f i = Some c -> 0 <= c) ->
  forall score total, accumulate f indices score = Some total -> score <= total.
Proof.
  intros Hf. induction indices as [|i rest IH]; intros score total; simpl.
  - intros H. injection H as <-. lra.
  - destruct (f i) as [c|] eqn:Hc; simpl; [|discriminate].
    intros H. apply IH in H. apply Hf in Hc. lra.
Qed.

(** The body of the loop never raises: [base_freqs[0]] and [other_freqs[0]]
    are read only after a positive score, that is after an iteration. *)
Lemma harmonic_entry_defined (harmonic_type : string) (base_wave : WavePattern)
    (other_id : string) (other_doc : LibraryDocument) (other_wave : WavePattern) :
  exists entry,
    WaveSearchEngine.harmonic_entry harmonic_type base_wave other_id other_doc
      other_wave = Some entry.
Proof.
  unfold WaveSearchEngine.harmonic_entry.
  set (base := frequencies base_wave). set (other := frequencies other_wave).
  destruct (accumulate_defined
              (WaveSearchEngine.harmonic_step harmonic_type base other)
              (seq 0 (Nat.min (List.length base) (List.length other))))
    with (score := 0) as [total Htotal].
  { intros i Hi. apply in_seq in Hi. apply harmonic_step_defined. lia. }
  rewrite Htotal. cbn [bind].
  destruct (Rgtb total 0) eqn:Hpos; [|eexists; reflexivity].
  destruct base as [|b0 base']; [|destruct other as [|o0 other']].
  - simpl in Htotal. injection Htotal as <-.
    unfold Rgtb in Hpos. rewrite Rltb_false in Hpos by lra. discriminate.
  - rewrite Nat.min_0_r in Htotal. simpl in Htotal. injection Htotal as <-.
    unfold Rgtb in Hpos. rewrite Rltb_false in Hpos by lra. discriminate.
  - simpl. eexists. reflexivity.
Qed.

Lemma harmonic_entry_skips_empty (harmonic_type : string) (base_wave : WavePattern)
    (other_id : string) (other_doc : LibraryDocument) (other_wave : WavePattern) :
  frequencies base_wave = [] \/ frequencies other_wave = [] ->
  WaveSearchEngine.harmonic_entry harmonic_type base_wave other_id other_doc
    other_wave = Some None.
Proof.
  intros Hempty. unfold WaveSearchEngine.harmonic_entry.
  replace (Nat.min (List.length (frequencies base_wave))
                   (List.length (frequencies other_wave))) with 0%nat
    by (destruct Hempty as [-> | ->]; simpl; lia).
  simpl. unfold Rgtb. rewrite Rltb_false by lra. reflexivity.
Qed.

Lemma harmonics_loop_defined (doc_id harmonic_type : string)
    (base_wave : WavePattern) (items : PyDict.dict LibraryDocument) :
  forall found, exists result,
    WaveSearchEngine.harmonics_loop doc_id harmonic_type base_wave items found
    = Some result.
Proof.
  induction items as [|[other_id other_doc] rest IH]; intros found; simpl.
  - eexists. reflexivity.
  - destruct (String.eqb other_id doc_id); [apply IH|].
    destruct (wave_pattern other_doc) as [other_wave|]; [|apply IH].
    destruct (harmonic_entry_defined harmonic_type base_wave other_id other_doc
                other_wave) as [entry ->].
    simpl. apply IH.
Qed.

Lemma ranked_harmonics_defined (self : WaveSearchEngine.Engine)
    (doc_id harmonic_type : string) :
  exists ranked,
    WaveSearchEngine.ranked_harmonics self doc_id harmonic_type = Some ranked.
Proof.
  unfold WaveSearchEngine.ranked_harmonics.
  destruct (PyDict.get doc_id _) as [base_doc|]; [|eexists; reflexivity].
  destruct (wave_pattern base_doc) as [base_wave|]; [|eexists; reflexivity].
  destruct (harmonics_loop_defined doc_id harmonic_type base_wave
              (WaveSearchEngine.documents self) []) as [found ->].
  simpl. eexists. reflexivity.
Qed.

(** C10. [find_harmonics] returns a list for every store, document id and
    harmonic type: none of its list accesses, the two first-element accesses
    included, is out of bounds; and a pair of documents one of whose
    frequency lists is empty yields no entry, without an error. *)
Theorem find_harmonics_never_fails :
  forall (self : WaveSearchEngine.Engine) (doc_id harmonic_type : string),
    (exists found,
        WaveSearchEngine.find_harmonics self doc_id harmonic_type = Some found) /\
    (forall base_wave other_id other_doc other_wave,
        frequencies base_wave = [] \/ frequencies other_wave = [] ->
        WaveSearchEngine.harmonic_entry harmonic_type base_wave other_id
          other_doc other_wave = Some None).
Proof.
  intros self doc_id harmonic_type. split.
  - unfold WaveSearchEngine.find_harmonics.
    destruct (ranked_harmonics_defined self doc_id harmonic_type) as [ranked ->].
    simpl. eexists. reflexivity.
  - intros base_wave other_id other_doc other_wave.
    apply harmonic_entry_skips_empty.
Qed.

Lemma harmonics_loop_keeps (doc_id harmonic_type : string)
    (base_wave : WavePattern) (items : PyDict.dict LibraryDocument) :
  forall found result entry,
    WaveSearchEngine.harmonics_loop doc_id harmonic_type base_wave items found
    = Some result ->
    In entry found -> In entry result.
Proof.
  induction items as [|[other_id other_doc] rest IH]; intros found result entry; simpl.
  - intros H. injection H as <-. trivial.
  - destruct (String.eqb other_id doc_id); [apply IH|].
    destruct (wave_pattern other_doc) as [other_wave|]; [|apply IH].
    destruct (WaveSearchEngine.harmonic_entry _ _ _ _ _) as [[e|]|]; simpl;
      [ | apply IH | discriminate].
    intros Hrun Hin. apply (IH _ _ _ Hrun). apply in_or_app. left. exact Hin.
Qed.

Lemma harmonics_loop_finds (doc_id harmonic_type : string)
    (base_wave : WavePattern) (other_id : string) (other_doc : LibraryDocument)
    (other_wave : WavePattern) (entry : WaveSearchEngine.HarmonicResult)
    (items : PyDict.dict LibraryDocument) :
  other_id <> doc_id ->
  wave_pattern other_doc = Some other_wave ->
  WaveSearchEngine.harmonic_entry harmonic_type base_wave other_id other_doc
    other_wave = Some (Some entry) ->
  In (other_id, other_doc) items ->
  forall found result,
    WaveSearchEngine.harmonics_loop doc_id harmonic_type base_wave items found
    = Some result ->
    In entry result.
Proof.
  intros Hne Hwave Hentry.
  induction items as [|[k d] rest IH]; intros Hin found result; simpl.
  - contradiction.
  - destruct Hin as [Hhere | Hlater].
    + injection Hhere as -> ->.
      destruct (String.eqb_spec other_id doc_id) as [E|_]; [contradiction|].
      rewrite Hwave, Hentry. simpl. intros Hrun.
      apply (harmonics_loop_keeps _ _ _ _ _ _ _ Hrun).
      apply in_or_app. right. left. reflexivity.
    + destruct (String.eqb k doc_id); [apply IH; exact Hlater|].
      destruct (wave_pattern d) as [w|]; [|apply IH; exact Hlater].
      destruct (WaveSearchEngine.harmonic_entry _ _ k d w) as [e|]; simpl;
        [|discriminate].
      apply IH. exact Hlater.
Qed.

(** A document whose first frequency is 40, against a base whose first
    frequency is 20, under "octave": an entry of score at least 1, labelled
    octave. *)
Lemma octave_entry (base_wave other_wave : WavePattern) (other_id : string)
    (other_doc : LibraryDocument) (base_rest other_rest : list R) :
  frequencies base_wave = 20 :: base_rest ->
  frequencies other_wave = 40 :: other_rest ->
  exists entry,
    WaveSearchEngine.harmonic_entry "octave" base_wave other_id other_doc
      other_wave = Some (Some entry) /\
    WaveSearchEngine.harmonic_id entry = other_id /\
    WaveSearchEngine.harmonic_score entry >= 1 /\
    WaveSearchEngine.relationship entry = WaveSearchEngine.Named "octave".
Proof.
  intros Hb Ho. unfold WaveSearchEngine.harmonic_entry. rewrite Hb, Ho.
  set (base := 20 :: base_rest). set (other := 40 :: other_rest).
  set (m := Nat.min (List.length base_rest) (List.length other_rest)).
  change (Nat.min (List.length base) (List.length other)) with (S m).
  cbn [seq accumulate].
  assert (Hfirst : WaveSearchEngine.harmonic_step "octave" base other 0 = Some 1).
  { unfold WaveSearchEngine.harmonic_step, base, other. cbn.
    eval_tests. cbn [bind]. eval_tests. reflexivity. }
  rewrite Hfirst. cbn [bind].
  destruct (accumulate_defined
              (WaveSearchEngine.harmonic_step "octave" base other) (seq 1 m))
    with (score := 0 + 1) as [total Htotal].
  { intros i Hi. apply in_seq in Hi. apply harmonic_step_defined.
    unfold base, other. simpl List.length. fold m. lia. }
  rewrite Htotal. cbn [bind].
  assert (Hlow : 0 + 1 <= total).
  { apply (accumulate_lower_bound _ _ (harmonic_step_nonneg "octave" base other)
             _ _ Htotal). }
  unfold Rgtb at 1. rewrite (Rltb_true 0 total) by lra.
  unfold base, other. cbn [nth_error bind].
  eexists. split; [reflexivity|]. cbn. repeat split.
  - lra.
  - unfold WaveSearchEngine._identify_harmonic_type. eval_tests. reflexivity.
Qed.

Lemma harmonic_entry_id (harmonic_type : string) (base_wave : WavePattern)
    (other_id : string) (other_doc : LibraryDocument) (other_wave : WavePattern)
    (entry : WaveSearchEngine.HarmonicResult) :
  WaveSearchEngine.harmonic_entry harmonic_type base_wave other_id other_doc
    other_wave = Some (Some entry) ->
  WaveSearchEngine.harmonic_id entry = other_id.
Proof.
  unfold WaveSearchEngine.harmonic_entry.
  destruct (accumulate _ _ _) as [score|]; cbn [bind]; [|discriminate].
  destruct (Rgtb score 0); [|discriminate].
  destruct (nth_error (frequencies base_wave) 0); cbn [bind]; [|discriminate].
  destruct (nth_error (frequencies other_wave) 0); cbn [bind]; [|discriminate].
  intros H. injection H as <-. reflexivity.
Qed.

(** The entries carry the keys of the store, each at most once. *)
Lemma harmonics_loop_ids (doc_id harmonic_type : string)
    (base_wave : WavePattern) (items : PyDict.dict LibraryDocument) :
  NoDup (map fst items) ->
  forall found result,
    NoDup (map WaveSearchEngine.harmonic_id found) ->
    (forall e, In e found ->
               ~ In (WaveSearchEngine.harmonic_id e) (map fst items)) ->
    WaveSearchEngine.harmonics_loop doc_id harmonic_type base_wave items found
    = Some result ->
    NoDup (map WaveSearchEngine.harmonic_id result).
Proof.
  induction items as [|[other_id other_doc] rest IH];
    intros Hkeys found result Hfound Hapart; simpl.
  - intros H. injection H as <-. exact Hfound.
  - inversion Hkeys as [|? ? Hnew Hrest]; subst.
    assert (Hapart' : forall e, In e found ->
                ~ In (WaveSearchEngine.harmonic_id e) (map fst rest)).
    { intros e He Hin. apply (Hapart e He). right. exact Hin. }
    destruct (String.eqb other_id doc_id); [apply IH; assumption|].
    destruct (wave_pattern other_doc) as [other_wave|]; [|apply IH; assumption].
    destruct (WaveSearchEngine.harmonic_entry _ _ _ _ _) as [[e|]|] eqn:He;
      cbn [bind]; [ | apply IH; assumption | discriminate].
    apply harmonic_entry_id in He.
    apply IH; [exact Hrest | |].
    + rewrite map_app. apply NoDup_app; [exact Hfound | | ].
      * repeat constructor. simpl. tauto.
      * intros k Hk [<-|[]]. apply in_map_iff in Hk.
        destruct Hk as [e' [Hid He']]. apply (Hapart e' He').
        left. simpl. congruence.
    + intros e' He' Hin. apply in_app_or in He'.
      destruct He' as [He'|[<-|[]]]; [exact (Hapart' e' He' Hin)|].
      rewrite He in Hin. contradiction.
Qed.

Lemma nth_error_of_firstn {B} (n r : nat) (l : list B) (x : B) :
  nth_error (firstn n l) r = Some x -> (r < n)%nat /\ nth_error l r = Some x.
Proof.
  revert r l. induction n as [|n IH]; intros r l; simpl.
  - destruct r; discriminate.
  - destruct l as [|y l]; [destruct r; discriminate|].
    destruct r as [|r]; simpl.
    + intros H. split; [lia | exact H].
    + intros H. destruct (IH r l H). split; [lia | assumption].
Qed.

Lemma nth_error_in_firstn {B} (n r : nat) (l : list B) (x : B) :
  (r < n)%nat -> nth_error l r = Some x -> In x (firstn n l).
Proof.
  revert r l. induction n as [|n IH]; intros r l Hr; [lia|].
  destruct l as [|y l]; [destruct r; discriminate|].
  destruct r as [|r]; simpl.
  - intros H. injection H as ->. left. reflexivity.
  - intros H. right. apply (IH r); [lia | exact H].
Qed.

(** C9, amended. For a stored base document whose first frequency is 20 and
    any other stored document whose first frequency is 40, [find_harmonics]
    with "octave" scores that document with harmonic_score at least 1 and
    the label "octave".  The ranking is descending by harmonic_score with
    ties in store order -- every entry sits at the position given by the
    number of entries ahead of it -- and the result is its first ten
    entries: the document is in the result when fewer than ten entries rank
    before it, and (the keys of the store being distinct) it is not when ten
    or more do. *)
Theorem octave_neighbour_ranked :
  forall (self : WaveSearchEngine.Engine) (doc_id other_id : string)
         (base_doc other_doc : LibraryDocument)
         (base_wave other_wave : WavePattern) (base_rest other_rest : list R),
    PyDict.get doc_id (WaveSearchEngine.documents self) = Some base_doc ->
    wave_pattern base_doc = Some base_wave ->
    frequencies base_wave = 20 :: base_rest ->
    In (other_id, other_doc) (WaveSearchEngine.documents self) ->
    other_id <> doc_id ->
    wave_pattern other_doc = Some other_wave ->
    frequencies other_wave = 40 :: other_rest ->
    exists found ranked p entry,
      WaveSearchEngine.harmonics_loop doc_id "octave" base_wave
        (WaveSearchEngine.documents self) [] = Some found /\
      nth_error found p = Some entry /\
      WaveSearchEngine.harmonic_id entry = other_id /\
      WaveSearchEngine.harmonic_score entry >= 1 /\
      WaveSearchEngine.relationship entry = WaveSearchEngine.Named "octave" /\
      ranking_of WaveSearchEngine.harmonic_score found ranked /\
      descending WaveSearchEngine.harmonic_score ranked /\
      WaveSearchEngine.ranked_harmonics self doc_id "octave" = Some ranked /\
      WaveSearchEngine.find_harmonics self doc_id "octave"
      = Some (firstn 10 ranked) /\
      ((entries_ahead WaveSearchEngine.harmonic_score found p entry < 10)%nat ->
       In entry (firstn 10 ranked)) /\
      (NoDup (map fst (WaveSearchEngine.documents self)) ->
       (10 <= entries_ahead WaveSearchEngine.harmonic_score found p entry)%nat ->
       forall e, In e (firstn 10 ranked) ->
                 WaveSearchEngine.harmonic_id e <> other_id).
Proof.
  intros self doc_id other_id base_doc other_doc base_wave other_wave
         base_rest other_rest Hbase Hbw Hbf Hother Hne How Hof.
  destruct (octave_entry base_wave other_wave other_id other_doc
              base_rest other_rest Hbf Hof) as [entry [Hentry [Hid [Hscore Hrel]]]].
  unfold WaveSearchEngine.find_harmonics, WaveSearchEngine.ranked_harmonics.
  rewrite Hbase, Hbw.
  destruct (harmonics_loop_defined doc_id "octave" base_wave
              (WaveSearchEngine.documents self) []) as [found Hfound].
  rewrite Hfound. cbn [bind].
  assert (Hin : In entry found).
  { apply (harmonics_loop_finds doc_id "octave" base_wave other_id other_doc
             other_wave entry (WaveSearchEngine.documents self)
             Hne How Hentry Hother [] found Hfound). }
  destruct (In_nth_error _ _ Hin) as [p Hp].
  set (ranked := sort_desc WaveSearchEngine.harmonic_score found).
  pose proof (sort_desc_ranking WaveSearchEngine.harmonic_score found)
    as Hranking.
  fold ranked in Hranking.
  pose proof (proj2 Hranking p entry Hp) as Hplace.
  exists found, ranked, p, entry.
  repeat (split; [first [assumption | reflexivity
                        | apply sort_desc_descending]|]).
  split.
  - intros Hfew. apply (nth_error_in_firstn 10 _ ranked entry Hfew Hplace).
  - intros Hkeys Hmany e He Hsame.
    assert (Hids : NoDup (map WaveSearchEngine.harmonic_id ranked)).
    { apply (Permutation_NoDup
               (Permutation_map WaveSearchEngine.harmonic_id (proj1 Hranking))).
      apply (harmonics_loop_ids doc_id "octave" base_wave
               (WaveSearchEngine.documents self) Hkeys [] found);
        [constructor | intros ? [] | exact Hfound]. }
    destruct (In_nth_error _ _ He) as [r Hr].
    apply nth_error_of_firstn in Hr. destruct Hr as [Hlt Hr].
    set (q := entries_ahead WaveSearchEngine.harmonic_score found p entry) in *.
    assert (Heq : r = q).
    { apply (proj1 (NoDup_nth_error _) Hids).
      - rewrite length_map. apply nth_error_Some. congruence.
      - rewrite !nth_error_map, Hr, Hplace. simpl. congruence. }
    lia.
Qed.

Lemma tone_entry (name : string) :
  WaveSearchEngine.harmonic_entry "octave" (tone 20) name
    (doc_with name "physics" (Some (tone 40))) (tone 40)
  = Some (Some {| WaveSearchEngine.harmonic_id := name;
                  WaveSearchEngine.harmonic_title := name;
                  WaveSearchEngine.harmonic_category := "physics";
                  WaveSearchEngine.harmonic_score := 0 + 1;
                  WaveSearchEngine.relationship := WaveSearchEngine.Named "octave" |}).
Proof.
  unfold WaveSearchEngine.harmonic_entry, WaveSearchEngine.harmonic_step. cbn.
  eval_tests. cbn [bind]. eval_tests. cbn.
  unfold WaveSearchEngine._identify_harmonic_type. eval_tests. reflexivity.
Qed.

Lemma entries_ahead_bound {A} (key : A -> R) (l : list A) (p : nat) (x : A) :
  nth_error l p = Some x ->
  (entries_ahead key l p x < List.length l)%nat.
Proof.
  intros Hp. unfold entries_ahead.
  pose proof (filter_length_le (fun y => Rgeb (key y) (key x)) (firstn p l)) as H1.
  pose proof (filter_length_le (fun y => Rgtb (key y) (key x)) (skipn (S p) l)) as H2.
  assert (Hlt : (p < List.length l)%nat) by (apply nth_error_Some; congruence).
  rewrite length_firstn in H1. rewrite length_skipn in H2. lia.
Qed.

Lemma octave_engine_found :
  WaveSearchEngine.harmonics_loop "base" "octave" (tone 20)
    (WaveSearchEngine.documents octave_engine) []
  = Some [octave_hit "d01"].
Proof.
  cbn -[WaveSearchEngine.harmonic_entry]. rewrite !tone_entry. reflexivity.
Qed.

Lemma crowded_engine_found :
  WaveSearchEngine.harmonics_loop "base" "octave" (tone 20)
    (WaveSearchEngine.documents crowded_engine) []
  = Some (map octave_hit
            ["d01"; "d02"; "d03"; "d04"; "d05"; "d06"; "d07"; "d08"; "d09";
             "d10"; "d11"]).
Proof.
  cbn -[WaveSearchEngine.harmonic_entry]. rewrite !tone_entry. reflexivity.
Qed.

Lemma crowded_engine_keys :
  NoDup (map fst (WaveSearchEngine.documents crowded_engine)).
Proof.
  cbn. repeat (constructor; [cbn; intuition discriminate|]). constructor.
Qed.

Lemma octave_neighbour_ranked_witness :
  (exists entry result,
      WaveSearchEngine.find_harmonics octave_engine "base" "octave"
      = Some result /\
      In entry result /\
      WaveSearchEngine.harmonic_id entry = "d01" /\
      WaveSearchEngine.harmonic_score entry >= 1 /\
      WaveSearchEngine.relationship entry = WaveSearchEngine.Named "octave") /\
  (exists result,
      WaveSearchEngine.find_harmonics crowded_engine "base" "octave"
      = Some result /\
      forall e, In e result -> WaveSearchEngine.harmonic_id e <> "d11").
Proof.
  split.
  - destruct (octave_neighbour_ranked octave_engine "base" "d01"
                (doc_with "base" "physics" (Some (tone 20)))
                (doc_with "d01" "physics" (Some (tone 40)))
                (tone 20) (tone 40) [] [])
      as [found [ranked [p [entry [Hfound [Hp [Hid [Hscore [Hrel
            [_ [_ [_ [Hfind [Hincl _]]]]]]]]]]]]]].
    + reflexivity.
    + reflexivity.
    + reflexivity.
    + right. left. reflexivity.
    + discriminate.
    + reflexivity.
    + reflexivity.
    + exists entry, (firstn 10 ranked).
      split; [exact Hfind|]. split; [|repeat split; assumption].
      apply Hincl.
      pose proof (entries_ahead_bound WaveSearchEngine.harmonic_score
                    found p entry Hp) as Hbound.
      rewrite octave_engine_found in Hfound. injection Hfound as <-.
      simpl in Hbound. lia.
  - destruct (octave_neighbour_ranked crowded_engine "base" "d11"
                (doc_with "base" "physics" (Some (tone 20)))
                (doc_with "d11" "physics" (Some (tone 40)))
                (tone 20) (tone 40) [] [])
      as [found [ranked [p [entry [Hfound [Hp [Hid [_ [_
            [_ [_ [_ [Hfind [_ Hexcl]]]]]]]]]]]]]].
    + reflexivity.
    + reflexivity.
    + reflexivity.
    + cbn. tauto.
    + discriminate.
    + reflexivity.
    + reflexivity.
    + exists (firstn 10 ranked). split; [exact Hfind|].
      apply Hexcl; [exact crowded_engine_keys|].
      rewrite crowded_engine_found in Hfound. injection Hfound as <-.
      do 10 (destruct p as [|p];
             [injection Hp as <-; discriminate Hid|]).
      destruct p as [|p]; [|destruct p; discriminate Hp].
      injection Hp as <-. unfold entries_ahead.
      cbn. eval_tests. cbn. lia.
Defined.

(** C9, as stated, fails: the result is cut to ten entries.  With eleven
    documents at first frequency 40 next to the base at 20, all scoring 1,
    the last of them is not in the result. *)
Lemma crowded_store_drops_octave_neighbour :
  PyDict.get "base" (WaveSearchEngine.documents crowded_engine)
  = Some (doc_with "base" "physics" (Some (tone 20))) /\
  In ("d11", doc_with "d11" "physics" (Some (tone 40)))
     (WaveSearchEngine.documents crowded_engine) /\
  exists found,
    WaveSearchEngine.find_harmonics crowded_engine "base" "octave" = Some found /\
    forall entry, In entry found -> WaveSearchEngine.harmonic_id entry <> "d11".
Proof.
  split; [reflexivity|]. split; [cbn; tauto|].
  unfold WaveSearchEngine.find_harmonics, WaveSearchEngine.ranked_harmonics.
  cbn -[WaveSearchEngine.harmonic_entry].
  rewrite !tone_entry. cbn.
  repeat (progress (eval_tests; cbn)).
  eexists. split; [reflexivity|].
  intros entry Hin. cbn in Hin.
  repeat (destruct Hin as [<- | Hin]; [discriminate|]).
  contradiction.
Qed.

(** ** The search pipeline *)

Lemma dict_get_set_same {V} (k : string) (v : V) (d : PyDict.dict V) :
  PyDict.get k (PyDict.set k v d) = Some v.
Proof.
  induction d as [|[k' v'] rest IH]; simpl.
  - now rewrite String.eqb_refl.
  - destruct (String.eqb k k') eqn:E; simpl; rewrite E; [reflexivity | exact IH].
Qed.

Lemma dict_get_set_other {V} (k k' : string) (v : V) (d : PyDict.dict V) :
  k <> k' -> PyDict.get k (PyDict.set k' v d) = PyDict.get k d.
Proof.
  intros Hne. induction d as [|[k0 v0] rest IH]; simpl.
  - destruct (String.eqb_spec k k'); [contradiction | reflexivity].
  - destruct (String.eqb_spec k' k0) as [->|Hk0]; simpl.
    + destruct (String.eqb_spec k k0); [contradiction | reflexivity].
    + destruct (String.eqb k k0); [reflexivity | exact IH].
Qed.

(** Looking a key up in [dict(pairs)] finds its last listing. *)
Lemma dict_get_fold_set (pairs : list (string * R)) (k : string) :
  forall d,
    PyDict.get k (fold_left (fun d kv => PyDict.set (fst kv) (snd kv) d) pairs d)
    = match SearchSpec.neighbour_score pairs k with
      | Some s => Some s
      | None => PyDict.get k d
      end.
Proof.
  induction pairs as [|[k0 s0] rest IH]; intros d; simpl.
  - reflexivity.
  - rewrite IH.
    destruct (SearchSpec.neighbour_score rest k) as [s'|]; [reflexivity|].
    destruct (String.eqb_spec k k0) as [->|Hne].
    + apply dict_get_set_same.
    + apply dict_get_set_other. exact Hne.
Qed.

Lemma dict_get_of_pairs (pairs : list (string * R)) (k : string) :
  PyDict.get k (PyDict.of_pairs pairs) = SearchSpec.neighbour_score pairs k.
Proof.
  unfold PyDict.of_pairs. rewrite dict_get_fold_set.
  destruct (SearchSpec.neighbour_score pairs k); reflexivity.
Qed.

Lemma neighbour_score_listed (neighbours : list (string * R)) (doc : string) (s : R) :
  SearchSpec.neighbour_score neighbours doc = Some s -> In (doc, s) neighbours.
Proof.
  induction neighbours as [|[k s0] rest IH]; simpl.
  - discriminate.
  - destruct (SearchSpec.neighbour_score rest doc) as [s'|].
    + intros H. injection H as ->. right. apply IH. reflexivity.
    + destruct (String.eqb_spec doc k) as [->|_]; [|discriminate].
      intros H. injection H as ->. left. reflexivity.
Qed.

Lemma neighbour_score_unlisted (neighbours : list (string * R)) (doc : string) :
  SearchSpec.neighbour_score neighbours doc = None <->
  (forall s, ~ In (doc, s) neighbours).
Proof.
  induction neighbours as [|[k s0] rest IH]; simpl.
  - split; [intros _ s H; exact H | reflexivity].
  - destruct (SearchSpec.neighbour_score rest doc) as [s'|] eqn:E.
    + split; [discriminate|]. intros Hnot. exfalso.
      apply (Hnot s'). right. apply neighbour_score_listed. exact E.
    + destruct (String.eqb_spec doc k) as [->|Hne].
      * split; [discriminate|]. intros Hnot. exfalso.
        apply (Hnot s0). left. reflexivity.
      * split; [|reflexivity]. intros _ s [Hhere|Hlater].
        -- injection Hhere as -> _. contradiction.
        -- apply (proj1 IH eq_refl s). exact Hlater.
Qed.

(** The scoring loop gives the results of steps 1 to 4. *)
Lemma score_loop_as_specified (query_wave : WavePattern)
    (context : SearchContext) (category_filter : option string)
    (items : PyDict.dict LibraryDocument) :
  forall results,
    WaveSearchEngine.score_loop query_wave context category_filter items results
    = (scored <- SearchSpec.scored_results query_wave context category_filter
                   items ;;
       Some (results ++ scored)).
Proof.
  induction items as [|[doc_id doc] rest IH]; intros results;
    cbn [WaveSearchEngine.score_loop SearchSpec.scored_results].
  - cbn [bind]. now rewrite app_nil_r.
  - assert (Hfilter : WaveSearchEngine.filtered_out category_filter doc
                      = negb (SearchSpec.passes category_filter doc)).
    { unfold WaveSearchEngine.filtered_out, SearchSpec.passes.
      destruct category_filter as [c|]; [|reflexivity].
      now rewrite negb_orb. }
    rewrite Hfilter.
    destruct (SearchSpec.passes category_filter doc); cbn [negb]; [|apply IH].
    destruct (wave_pattern doc) as [wave|]; [|apply IH].
    unfold SearchSpec.score_of.
    destruct (WaveSearchEngine.calculate_resonance query_wave wave context)
      as [base|]; cbn [bind]; [|reflexivity].
    rewrite IH.
    destruct (SearchSpec.scored_results query_wave context category_filter rest)
      as [others|]; cbn [bind]; [|reflexivity].
    rewrite <- app_assoc. cbn [app]. unfold SearchSpec.result_for.
    do 2 f_equal. f_equal.
    destruct (String.eqb (emotional_state context) "raw"
              || String.eqb (emotional_state context) "graceland");
      f_equal; lra.
Qed.

(** The loop over [results[1:]] boosts exactly as step 6 says. *)
Lemma boost_loop_as_specified (neighbours : list (string * R))
    (rest : list WaveSearchEngine.SearchResult) :
  WaveSearchEngine.boost_loop (PyDict.of_pairs neighbours) rest
  = map (SearchSpec.boosted neighbours) rest.
Proof.
  induction rest as [|result tl IH]; simpl; [reflexivity|].
  rewrite IH. f_equal.
  unfold PyDict.mem, SearchSpec.boosted. rewrite dict_get_of_pairs.
  destruct (SearchSpec.neighbour_score neighbours _) as [s|]; [|reflexivity].
  unfold WaveSearchEngine.scale_resonance. f_equal. lra.
Qed.

Lemma boosted_without_neighbours (rest : list WaveSearchEngine.SearchResult) :
  map (SearchSpec.boosted []) rest = rest.
Proof.
  induction rest as [|result tl IH]; simpl; [reflexivity|].
  rewrite IH. reflexivity.
Qed.

(** The block under [# Apply graph-based re-ranking] is step 6.  When the
    top result has no entry in the graph the code does not sort again: the
    list is sorted already. *)
Lemma rerank_as_specified (self : WaveSearchEngine.Engine)
    (context : SearchContext) (ranked : list WaveSearchEngine.SearchResult) :
  descending WaveSearchEngine.result_resonance ranked ->
  SearchSpec.reranked (WaveSearchEngine.resonance_graph self) context ranked
    (WaveSearchEngine.rerank self context ranked).
Proof.
  intros Hsorted.
  unfold WaveSearchEngine.rerank, SearchSpec.reranked, SearchSpec.pass_applies.
  destruct ranked as [|top rest]; [reflexivity|].
  destruct (String.eqb (harmonic_preference context) "balanced");
    cbn [negb]; [reflexivity|].
  unfold SearchSpec.neighbours_of, SearchSpec.sorted_descending.
  destruct (PyDict.get (WaveSearchEngine.result_id top)
              (WaveSearchEngine.resonance_graph self)) as [neighbours|].
  - rewrite boost_loop_as_specified.
    split; [apply sort_desc_permutation | apply sort_desc_descending].
  - rewrite boosted_without_neighbours. split; [reflexivity | exact Hsorted].
Qed.

Lemma slice_to_first {A} (k : Z) (l : list A) :
  (0 <= k)%Z -> slice_to k l = firstn (Z.to_nat k) l.
Proof.
  intros Hk. unfold slice_to.
  destruct (Z.ltb_spec k 0); [lia | reflexivity].
Qed.

(** C8. [search] is the specified pipeline, for a top_k that is not
    negative: whatever it returns is what the seven steps give.  After
    scoring (steps 1 to 4) and sorting (step 5), the re-ranking pass runs
    exactly when the result set is not empty and harmonic_preference is not
    balanced; it multiplies by 1 + neighbour_score x 0.5 the score of every
    result but the top one whose id is listed among the top result's graph
    neighbours, leaves the others unchanged and sorts again (descending);
    the truncation to the first top_k results comes last (a missing context
    is the default one, which is balanced).  A neighbour score is a score
    the graph lists for that id, and there is none exactly when the id is
    not listed. *)
Theorem search_reranks_as_specified :
  forall (self : WaveSearchEngine.Engine) (query_embedding : list R)
         (context : option SearchContext) (category_filter : option string)
         (top_k : Z) (out : list WaveSearchEngine.SearchResult),
    (0 <= top_k)%Z ->
    WaveSearchEngine.search self query_embedding context category_filter top_k
    = Some out ->
    SearchSpec.search self (WaveSearchEngine.vector_to_wave query_embedding)
      match context with Some c => c | None => default_context end
      category_filter top_k out /\
    (forall neighbours doc,
        (forall s, SearchSpec.neighbour_score neighbours doc = Some s ->
                   In (doc, s) neighbours) /\
        (SearchSpec.neighbour_score neighbours doc = None <->
         forall s, ~ In (doc, s) neighbours)).
Proof.
  intros self query_embedding context category_filter top_k out Hk.
  unfold WaveSearchEngine.search. rewrite score_loop_as_specified.
  set (ctx := match context with Some c => c | None => default_context end).
  destruct (SearchSpec.scored_results _ ctx category_filter _) as [scored|] eqn:Hs;
    cbn [bind app]; [|discriminate].
  intros Hout. injection Hout as <-. split.
  - exists scored, (sort_desc WaveSearchEngine.result_resonance scored),
      (WaveSearchEngine.rerank self ctx
         (sort_desc WaveSearchEngine.result_resonance scored)).
    split; [exact Hs|]. split.
    + split; [apply sort_desc_permutation | apply sort_desc_descending].
    + split; [apply rerank_as_specified, sort_desc_descending|].
      apply slice_to_first, Hk.
  - intros neighbours doc. split.
    + intros s. apply neighbour_score_listed.
    + apply neighbour_score_unlisted.
Qed.

(** ** The guard of the Qdrant builder *)

Lemma aligned_behind (i j i' j' : nat) (others : list LibraryDocument) :
  (i < j)%nat -> (i' < j')%nat -> aligned i j i' j' others.
Proof. intros H H'. left. split; assumption. Qed.

(** The inner loop of [create_resonance_indices] gives the same links on
    the documents of a category and on those of them that have a wave
    pattern. *)
Lemma qdrant_resonances_skip_missing (category : string) (wave1 : WavePattern)
    (others : list LibraryDocument) :
  forall i j i' j' resonances,
    aligned i j i' j' others ->
    QdrantIngester.resonances_loop category i wave1 j others resonances
    = QdrantIngester.resonances_loop category i' wave1 j'
        (filter has_wave others) resonances.
Proof.
  induction others as [|d rest IH]; intros i j i' j' resonances Hal.
  - reflexivity.
  - cbn [QdrantIngester.resonances_loop filter]. unfold has_wave at 1.
    destruct (wave_pattern d) as [wave2|] eqn:Hd;
      cbn [QdrantIngester.resonances_loop]; rewrite ?Hd.
    + destruct Hal as [[Hij Hij'] | [Hji [Hji' [Hcount Hwave]]]].
      * destruct (Nat.eqb_spec i j) as [E|_]; [lia|].
        destruct (Nat.eqb_spec i' j') as [E|_]; [lia|].
        destruct (WaveTransformer.calculate_resonance wave1 wave2);
          cbn [bind]; [|reflexivity].
        apply IH, aligned_behind; lia.
      * destruct (Nat.eqb_spec i j) as [E|Hne].
        -- subst i. rewrite Nat.sub_diag in Hcount. simpl in Hcount.
           destruct (Nat.eqb_spec i' j') as [_|Hne']; [|lia].
           apply IH, aligned_behind; lia.
        -- assert (Hk : (i - j)%nat = S (i - S j)) by lia.
           rewrite Hk in Hcount, Hwave.
           cbn [firstn filter nth_error] in Hcount, Hwave.
           unfold has_wave at 1 in Hcount. rewrite Hd in Hcount.
           cbn [List.length] in Hcount.
           destruct (Nat.eqb_spec i' j') as [E|_]; [lia|].
           destruct (WaveTransformer.calculate_resonance wave1 wave2);
             cbn [bind]; [|reflexivity].
           apply IH. right. repeat split; try lia. exact Hwave.
    + destruct Hal as [[Hij Hij'] | [Hji [Hji' [Hcount Hwave]]]].
      * destruct (Nat.eqb i j); apply IH, aligned_behind; lia.
      * destruct (Nat.eqb_spec i j) as [E|Hne].
        -- subst i. rewrite Nat.sub_diag in Hwave.
           specialize (Hwave d eq_refl). unfold has_wave in Hwave.
           rewrite Hd in Hwave. discriminate.
        -- assert (Hk : (i - j)%nat = S (i - S j)) by lia.
           rewrite Hk in Hcount, Hwave.
           cbn [firstn filter nth_error] in Hcount, Hwave.
           unfold has_wave at 1 in Hcount. rewrite Hd in Hcount.
           apply IH. right. repeat split; try lia. exact Hwave.
Qed.

Lemma has_wave_of_pattern (d : LibraryDocument) (w : WavePattern) :
  wave_pattern d = Some w -> has_wave d = true.
Proof. intros H. unfold has_wave. now rewrite H. Qed.

Lemma qdrant_docs_loop_skip_missing (category : string)
    (pending : list LibraryDocument) :
  forall prefix data,
    QdrantIngester.docs_loop category (List.length prefix) pending
      (prefix ++ pending) data
    = QdrantIngester.docs_loop category
        (List.length (filter has_wave prefix)) (filter has_wave pending)
        (filter has_wave (prefix ++ pending)) data.
Proof.
  induction pending as [|d rest IH]; intros prefix data.
  - reflexivity.
  - assert (Hsplit : prefix ++ d :: rest = (prefix ++ [d]) ++ rest)
      by (rewrite <- app_assoc; reflexivity).
    assert (Hlen : S (List.length prefix) = List.length (prefix ++ [d]))
      by (rewrite length_app; simpl; lia).
    cbn [QdrantIngester.docs_loop filter]. unfold has_wave at 2.
    destruct (wave_pattern d) as [wave1|] eqn:Hd.
    + cbn [QdrantIngester.docs_loop]. rewrite Hd.
      rewrite (qdrant_resonances_skip_missing category wave1 (prefix ++ d :: rest)
                 (List.length prefix) 0 (List.length (filter has_wave prefix)) 0).
      * destruct (QdrantIngester.resonances_loop category _ wave1 0 _ [])
          as [resonances|]; cbn [bind]; [|reflexivity].
        rewrite Hsplit, Hlen, IH.
        rewrite filter_app, length_app. cbn [filter]. unfold has_wave at 2.
        rewrite Hd. cbn [List.length]. rewrite Nat.add_1_r. reflexivity.
      * right. rewrite !Nat.sub_0_r. repeat split; try lia.
        -- rewrite firstn_app, firstn_all, Nat.sub_diag. simpl.
           now rewrite app_nil_r.
        -- intros d' Hd'. rewrite nth_error_app2, Nat.sub_diag in Hd' by lia.
           injection Hd' as <-. apply (has_wave_of_pattern d wave1 Hd).
    + rewrite Hsplit, Hlen, IH.
      rewrite filter_app. cbn [filter]. unfold has_wave at 2.
      rewrite Hd, app_nil_r. reflexivity.
Qed.

(** C2, for the builder that has the guard.  Within a category,
    [create_resonance_indices] gives the same outcome, success or failure
    and the same graph, whether or not the documents without a wave pattern
    are there: they add no entry, are in no entry, and raise nothing. *)
Lemma qdrant_category_ignores_missing_waves (category : string)
    (docs : list LibraryDocument)
    (resonance_data : PyDict.dict (list QdrantIngester.ResonanceLink)) :
  QdrantIngester.docs_loop category 0 docs docs resonance_data
  = QdrantIngester.docs_loop category 0 (filter has_wave docs)
      (filter has_wave docs) resonance_data.
Proof. exact (qdrant_docs_loop_skip_missing category docs [] resonance_data). Qed.

(** ** The pipeline on concrete inputs *)

(** The scenario of the specification: the vector [1.0, -1.0]. *)
Example transform_of_signed_pair :
  WaveTransformer.vector_to_wave [1; -1]
  = {| frequencies := [20; 120]; amplitudes := [1; 1]; phases := [0; PI];
       harmonics := Some [[]; []] |}.
Proof.
  destruct small_position_tags as [T0 [T1 _]].
  rewrite vector_to_wave_closed_form. cbn [List.length seq map].
  rewrite T0, T1. unfold phase_of. eval_tests.
  change (frequency_at 0) with 20. change (frequency_at 1) with 120.
  rewrite (Rabs_of_nonneg 1), (Rabs_of_nonpos (-1)) by lra.
  replace (0 - -1) with 1 by lra. reflexivity.
Qed.

Lemma unit_query_resonance (context : SearchContext) :
  emotional_state context = "focused" ->
  harmonic_preference context = "octaves" \/
  harmonic_preference context = "balanced" ->
  WaveSearchEngine.calculate_resonance
    (WaveSearchEngine.vector_to_wave [1]) (tone 20) context = Some 1.
Proof.
  intros Hs Hp. unfold WaveSearchEngine.calculate_resonance. cbn.
  unfold WaveSearchEngine.modulate, WaveSearchEngine.preference_bonus.
  rewrite Hs.
  destruct Hp as [-> | ->]; cbn; eval_tests; cbn;
    rewrite ?Rabs_self, ?cos_0; f_equal; real_fact.
Qed.

(** With a preference for octaves the pass runs: "c", a graph neighbour of
    the top result "a", is lifted from 0.7 to 1.05 and overtakes "b" (1.0)
    before the cut to two results. *)
Example search_lifts_graph_neighbour :
  option_map (map WaveSearchEngine.result_id)
    (WaveSearchEngine.search linked_engine [1] (Some octaves_context) None 2)
  = Some ["a"; "c"].
Proof.
  unfold WaveSearchEngine.search.
  cbn -[WaveSearchEngine.calculate_resonance WaveSearchEngine.vector_to_wave].
  rewrite !unit_query_resonance by (auto; reflexivity).
  cbn. repeat (progress (eval_tests; cbn)). reflexivity.
Qed.

(** With the balanced preference the pass does not run. *)
Example search_keeps_order_when_balanced :
  option_map (map WaveSearchEngine.result_id)
    (WaveSearchEngine.search linked_engine [1] (Some neutral_context) None 2)
  = Some ["a"; "b"].
Proof.
  unfold WaveSearchEngine.search.
  cbn -[WaveSearchEngine.calculate_resonance WaveSearchEngine.vector_to_wave].
  rewrite !unit_query_resonance by (auto; reflexivity).
  cbn. repeat (progress (eval_tests; cbn)). reflexivity.
Qed.

(** * Further properties of the code *)

(** ** The two transforms *)

Lemma engine_loop_frequencies (vector : list R) :
  forall i fs amps phs,
    frequencies (WaveSearchEngine.vector_to_wave_loop i vector fs amps phs)
    = fs ++ map frequency_at (seq i (List.length vector)).
Proof.
  induction vector as [|val rest IH]; intros i fs amps phs; simpl.
  - now rewrite app_nil_r.
  - rewrite IH, <- app_assoc. reflexivity.
Qed.

Lemma engine_loop_amplitudes (vector : list R) :
  forall i fs amps phs,
    amplitudes (WaveSearchEngine.vector_to_wave_loop i vector fs amps phs)
    = amps ++ map Rabs vector.
Proof.
  induction vector as [|val rest IH]; intros i fs amps phs; simpl.
  - now rewrite app_nil_r.
  - rewrite IH, <- app_assoc. reflexivity.
Qed.

Lemma engine_loop_phases (vector : list R) :
  forall i fs amps phs,
    phases (WaveSearchEngine.vector_to_wave_loop i vector fs amps phs)
    = phs ++ map phase_of vector.
Proof.
  induction vector as [|val rest IH]; intros i fs amps phs; simpl.
  - now rewrite app_nil_r.
  - rewrite IH, <- app_assoc. reflexivity.
Qed.

Lemma engine_loop_harmonics (vector : list R) :
  forall i fs amps phs,
    harmonics (WaveSearchEngine.vector_to_wave_loop i vector fs amps phs) = None.
Proof.
  induction vector as [|val rest IH]; intros i fs amps phs; simpl; auto.
Qed.

Lemma query_wave_closed_form (vector : list R) :
  WaveSearchEngine.vector_to_wave vector =
  {| frequencies := map frequency_at (seq 0 (List.length vector));
     amplitudes := map Rabs vector;
     phases := map phase_of vector;
     harmonics := None |}.
Proof.
  pose proof (engine_loop_frequencies vector 0 [] [] []) as Hf.
  pose proof (engine_loop_amplitudes vector 0 [] [] []) as Ha.
  pose proof (engine_loop_phases vector 0 [] [] []) as Hp.
  pose proof (engine_loop_harmonics vector 0 [] [] []) as Hh.
  unfold WaveSearchEngine.vector_to_wave. simpl in Hf, Ha, Hp.
  destruct (WaveSearchEngine.vector_to_wave_loop 0 vector [] [] []) as [fs amps phs hs].
  simpl in *. subst. reflexivity.
Qed.

(** X1. The query-side transform of the search engine and the
    ingestion-side transform give, for every vector, the same frequencies,
    amplitudes and phases; the query wave has no harmonics key. *)
Theorem query_wave_matches_document_wave :
  forall vector : list R,
    frequencies (WaveSearchEngine.vector_to_wave vector)
    = frequencies (WaveTransformer.vector_to_wave vector) /\
    amplitudes (WaveSearchEngine.vector_to_wave vector)
    = amplitudes (WaveTransformer.vector_to_wave vector) /\
    phases (WaveSearchEngine.vector_to_wave vector)
    = phases (WaveTransformer.vector_to_wave vector) /\
    harmonics (WaveSearchEngine.vector_to_wave vector) = None.
Proof.
  intros vector.
  rewrite query_wave_closed_form, vector_to_wave_closed_form. simpl.
  repeat split; reflexivity.
Qed.

(** ** Positional frequencies and the harmonic tests *)

Lemma positional_frequency_at (n i : nat) :
  (i < n)%nat ->
  nth_error (map frequency_at (seq 0 n)) i = Some (frequency_at i).
Proof.
  intros Hi. rewrite nth_error_map, nth_error_seq.
  destruct (Nat.ltb_spec i n); [reflexivity | lia].
Qed.

Lemma positional_frequency_beyond (n i : nat) :
  (n <= i)%nat -> nth_error (map frequency_at (seq 0 n)) i = None.
Proof.
  intros Hi. apply nth_error_None. rewrite length_map, length_seq. exact Hi.
Qed.

Lemma unit_ratio (f : R) : 0 < f -> f / f = 1.
Proof. intros Hf. apply Rdiv_diag. lra. Qed.

(** At ratio 1 none of the three preferences grants a bonus. *)
Lemma preference_bonus_at_unison (context : SearchContext) :
  WaveSearchEngine.preference_bonus context 1 = 1.0.
Proof.
  unfold WaveSearchEngine.preference_bonus.
  rewrite (Rltb_false (Rabs (1 - 2.0)) 0.1) by real_fact.
  rewrite (Rltb_false (Rabs (1 - 1.5)) 0.1) by real_fact.
  rewrite (Rltb_false (Rabs (1 - 1.414)) 0.1) by real_fact.
  rewrite !andb_false_r. reflexivity.
Qed.

Lemma same_modulation (c c' : SearchContext) (amp_corr score : R) :
  emotional_state c' = emotional_state c ->
  truth_amplification c' = truth_amplification c ->
  vulnerability_coefficient c' = vulnerability_coefficient c ->
  WaveSearchEngine.modulate c' amp_corr score
  = WaveSearchEngine.modulate c amp_corr score.
Proof.
  intros Hs Ht Hv. unfold WaveSearchEngine.modulate. rewrite Hs, Ht, Hv. reflexivity.
Qed.

Lemma query_wave_positional (vector : list R) :
  positional (WaveSearchEngine.vector_to_wave vector).
Proof.
  exists (List.length vector). now rewrite query_wave_closed_form.
Qed.

Lemma document_wave_positional (vector : list R) :
  positional (WaveTransformer.vector_to_wave vector).
Proof.
  exists (List.length vector). now rewrite vector_to_wave_closed_form.
Qed.

Lemma positional_pair_at (a b : WavePattern) (i : nat) (f1 f2 : R) :
  positional a -> positional b ->
  nth_error (frequencies a) i = Some f1 ->
  nth_error (frequencies b) i = Some f2 ->
  f1 = frequency_at i /\ f2 = frequency_at i.
Proof.
  intros [n Ha] [m Hb] H1 H2. rewrite Ha in H1. rewrite Hb in H2.
  destruct (Nat.lt_ge_cases i n) as [Hi|Hi];
    [|rewrite positional_frequency_beyond in H1 by exact Hi; discriminate].
  destruct (Nat.lt_ge_cases i m) as [Hj|Hj];
    [|rewrite positional_frequency_beyond in H2 by exact Hj; discriminate].
  rewrite positional_frequency_at in H1, H2 by assumption.
  injection H1 as <-. injection H2 as <-. split; reflexivity.
Qed.

Lemma positional_component_ignores_preference
    (a b : WavePattern) (c c' : SearchContext) (i : nat) :
  positional a -> positional b ->
  emotional_state c' = emotional_state c ->
  truth_amplification c' = truth_amplification c ->
  vulnerability_coefficient c' = vulnerability_coefficient c ->
  WaveSearchEngine.component a b c' i = WaveSearchEngine.component a b c i.
Proof.
  intros Ha Hb Hs Ht Hv. unfold WaveSearchEngine.component.
  destruct (nth_error (frequencies a) i) as [f1|] eqn:H1; simpl; [|reflexivity].
  destruct (nth_error (frequencies b) i) as [f2|] eqn:H2; simpl; [|reflexivity].
  destruct (positional_pair_at a b i f1 f2 Ha Hb H1 H2) as [-> ->].
  destruct (nth_error (amplitudes a) i) as [a1|]; simpl; [|reflexivity].
  destruct (nth_error (amplitudes b) i) as [a2|]; simpl; [|reflexivity].
  destruct (nth_error (phases a) i) as [p1|]; simpl; [|reflexivity].
  destruct (nth_error (phases b) i) as [p2|]; simpl; [|reflexivity].
  unfold Rgtb. rewrite (Rltb_true 0 (frequency_at i)) by apply frequency_at_positive.
  rewrite unit_ratio by apply frequency_at_positive.
  rewrite !preference_bonus_at_unison.
  now rewrite (same_modulation c c').
Qed.

(** X2. Between a query wave and a document wave built by the two
    transforms the frequency ratio is 1 at every index, so the harmonic
    preference never changes the query-time score: two contexts that differ
    in harmonic_preference only give the same result. *)
Theorem harmonic_preference_is_inert_on_transforms :
  forall (query vector : list R) (c c' : SearchContext),
    emotional_state c' = emotional_state c ->
    truth_amplification c' = truth_amplification c ->
    vulnerability_coefficient c' = vulnerability_coefficient c ->
    WaveSearchEngine.calculate_resonance
      (WaveSearchEngine.vector_to_wave query)
      (WaveTransformer.vector_to_wave vector) c'
    = WaveSearchEngine.calculate_resonance
        (WaveSearchEngine.vector_to_wave query)
        (WaveTransformer.vector_to_wave vector) c.
Proof.
  intros query vector c c' Hs Ht Hv.
  unfold WaveSearchEngine.calculate_resonance.
  rewrite (accumulate_ext
             (WaveSearchEngine.component _ _ c')
             (WaveSearchEngine.component
                (WaveSearchEngine.vector_to_wave query)
                (WaveTransformer.vector_to_wave vector) c)).
  - reflexivity.
  - intros i _. apply positional_component_ignores_preference; auto.
    + apply query_wave_positional.
    + apply document_wave_positional.
Qed.

Lemma harmonic_preference_is_inert_on_transforms_witness :
  WaveSearchEngine.calculate_resonance
    (WaveSearchEngine.vector_to_wave [1; -1])
    (WaveTransformer.vector_to_wave four_ones) octaves_context
  = WaveSearchEngine.calculate_resonance
      (WaveSearchEngine.vector_to_wave [1; -1])
      (WaveTransformer.vector_to_wave four_ones) neutral_context.
Proof.
  apply (harmonic_preference_is_inert_on_transforms
           [1; -1] four_ones neutral_context octaves_context);
    reflexivity.
Defined.

(** ** The harmonics finder on stored transforms *)

Lemma dict_get_in {V} (k : string) (v : V) (d : PyDict.dict V) :
  PyDict.get k d = Some v -> In (k, v) d.
Proof.
  induction d as [|[k' v'] rest IH]; simpl; [discriminate|].
  destruct (String.eqb_spec k k') as [->|_].
  - intros H. injection H as ->. left. reflexivity.
  - intros H. right. apply IH, H.
Qed.

(** Position by position two positional frequency lists have ratio 1, which
    is none of the three intervals. *)
Lemma harmonic_step_positional (harmonic_type : string) (n m i : nat) :
  (i < Nat.min n m)%nat ->
  WaveSearchEngine.harmonic_step harmonic_type
    (map frequency_at (seq 0 n)) (map frequency_at (seq 0 m)) i = Some 0.
Proof.
  intros Hi. unfold WaveSearchEngine.harmonic_step.
  rewrite !positional_frequency_at by lia. cbn [bind].
  unfold Rgtb. rewrite (Rltb_true 0 (frequency_at i)) by apply frequency_at_positive.
  cbn [bind]. rewrite unit_ratio by apply frequency_at_positive.
  rewrite (Rltb_false (Rabs (1 - 2.0)) 0.1) by real_fact.
  rewrite (Rltb_false (Rabs (1 - 1.5)) 0.1) by real_fact.
  rewrite (Rltb_false (Rabs (1 - 1.33)) 0.1) by real_fact.
  rewrite !andb_false_r. reflexivity.
Qed.

Lemma harmonic_entry_positional (harmonic_type : string)
    (base_wave other_wave : WavePattern) (other_id : string)
    (other_doc : LibraryDocument) :
  positional base_wave -> positional other_wave ->
  WaveSearchEngine.harmonic_entry harmonic_type base_wave other_id other_doc
    other_wave = Some None.
Proof.
  intros [n Hn] [m Hm]. unfold WaveSearchEngine.harmonic_entry.
  rewrite Hn, Hm, !length_map, !length_seq.
  rewrite (accumulate_constant _ 0)
    by (intros i Hi; apply in_seq in Hi; apply harmonic_step_positional; lia).
  cbn [bind]. unfold Rgtb. rewrite Rltb_false by lra. reflexivity.
Qed.

Lemma harmonics_loop_positional (doc_id harmonic_type : string)
    (base_wave : WavePattern) (items : PyDict.dict LibraryDocument) :
  positional base_wave ->
  store_of_transforms items ->
  forall found,
    WaveSearchEngine.harmonics_loop doc_id harmonic_type base_wave items found
    = Some found.
Proof.
  intros Hbase Hstore.
  induction items as [|[other_id other_doc] rest IH]; intros found; simpl.
  - reflexivity.
  - inversion Hstore as [|? ? Hhere Hrest]; subst.
    destruct (String.eqb other_id doc_id); [apply IH, Hrest|].
    destruct (wave_pattern other_doc) as [other_wave|] eqn:Hw; [|apply IH, Hrest].
    destruct (Hhere other_wave Hw) as [v ->].
    rewrite harmonic_entry_positional
      by (assumption || apply document_wave_positional).
    simpl. apply IH, Hrest.
Qed.

(** X3. In a store whose wave patterns all come from the transform, the
    frequencies of any two documents agree position by position, no ratio
    falls in a harmonic interval, and [find_harmonics] returns the empty
    list for every document and every harmonic type. *)
Theorem find_harmonics_finds_nothing_among_transforms :
  forall (self : WaveSearchEngine.Engine) (doc_id harmonic_type : string),
    store_of_transforms (WaveSearchEngine.documents self) ->
    WaveSearchEngine.find_harmonics self doc_id harmonic_type = Some [].
Proof.
  intros self doc_id harmonic_type Hstore.
  unfold WaveSearchEngine.find_harmonics, WaveSearchEngine.ranked_harmonics.
  destruct (PyDict.get doc_id (WaveSearchEngine.documents self))
    as [base_doc|] eqn:Hbase; [|reflexivity].
  destruct (wave_pattern base_doc) as [base_wave|] eqn:Hw; [|reflexivity].
  apply dict_get_in in Hbase.
  unfold store_of_transforms in Hstore. rewrite Forall_forall in Hstore.
  destruct (Hstore _ Hbase base_wave Hw) as [v ->].
  rewrite harmonics_loop_positional.
  - reflexivity.
  - apply document_wave_positional.
  - apply Forall_forall. exact Hstore.
Qed.

Lemma transform_engine_store :
  store_of_transforms (WaveSearchEngine.documents transform_engine).
Proof.
  repeat constructor; simpl; intros w H; injection H as <-; eexists; reflexivity.
Qed.

Lemma find_harmonics_finds_nothing_among_transforms_witness :
  WaveSearchEngine.find_harmonics transform_engine "a" "all" = Some [].
Proof.
  apply (find_harmonics_finds_nothing_among_transforms transform_engine "a" "all").
  exact transform_engine_store.
Defined.

(** The entry of a document: its id, a positive score, and the title and
    category of the document. *)
Lemma harmonic_entry_positive (harmonic_type : string) (base_wave : WavePattern)
    (other_id : string) (other_doc : LibraryDocument) (other_wave : WavePattern)
    (entry : WaveSearchEngine.HarmonicResult) :
  WaveSearchEngine.harmonic_entry harmonic_type base_wave other_id other_doc
    other_wave = Some (Some entry) ->
  WaveSearchEngine.harmonic_id entry = other_id /\
  WaveSearchEngine.harmonic_score entry > 0.
Proof.
  unfold WaveSearchEngine.harmonic_entry.
  destruct (accumulate _ _ 0) as [total|]; cbn [bind]; [|discriminate].
  destruct (Rgtb total 0) eqn:Hpos; [|discriminate].
  destruct (nth_error (frequencies base_wave) 0); cbn [bind]; [|discriminate].
  destruct (nth_error (frequencies other_wave) 0); cbn [bind]; [|discriminate].
  intros H. injection H as <-. simpl. split; [reflexivity|].
  apply Rltb_lt in Hpos. lra.
Qed.

Lemma harmonics_loop_entries (doc_id harmonic_type : string)
    (base_wave : WavePattern) (items : PyDict.dict LibraryDocument) :
  forall found result entry,
    WaveSearchEngine.harmonics_loop doc_id harmonic_type base_wave items found
    = Some result ->
    In entry result ->
    In entry found \/
    (WaveSearchEngine.harmonic_id entry <> doc_id /\
     WaveSearchEngine.harmonic_score entry > 0 /\
     exists doc, In (WaveSearchEngine.harmonic_id entry, doc) items /\
                 has_wave doc = true).
Proof.
  induction items as [|[other_id other_doc] rest IH]; intros found result entry; simpl.
  - intros H. injection H as <-. auto.
  - assert (Hlift : forall fnd,
               WaveSearchEngine.harmonics_loop doc_id harmonic_type base_wave
                 rest fnd = Some result ->
               In entry result ->
               In entry fnd \/
               (WaveSearchEngine.harmonic_id entry <> doc_id /\
                WaveSearchEngine.harmonic_score entry > 0 /\
                exists doc,
                  ((other_id, other_doc) = (WaveSearchEngine.harmonic_id entry, doc)
                   \/ In (WaveSearchEngine.harmonic_id entry, doc) rest) /\
                  has_wave doc = true)).
    { intros fnd Hrun Hin.
      destruct (IH fnd result entry Hrun Hin) as [H|[Hne [Hpos [doc [Hdoc Hw]]]]];
        [left; exact H|].
      right. repeat split; try assumption. exists doc. split; [right|]; assumption. }
    destruct (String.eqb_spec other_id doc_id) as [_|Hne]; [apply Hlift|].
    destruct (wave_pattern other_doc) as [other_wave|] eqn:Hw; [|apply Hlift].
    destruct (WaveSearchEngine.harmonic_entry _ _ _ _ _) as [[e|]|] eqn:He;
      cbn [bind]; [ | apply Hlift | discriminate].
    intros Hrun Hin.
    destruct (Hlift _ Hrun Hin) as [Hfound|Hnew]; [|right; exact Hnew].
    apply in_app_or in Hfound. destruct Hfound as [Hfound|[<-|[]]];
      [left; exact Hfound|].
    apply harmonic_entry_positive in He. destruct He as [Hid Hpos].
    right. rewrite Hid. repeat split; try assumption.
    exists other_doc. split; [left; reflexivity|].
    apply (has_wave_of_pattern other_doc other_wave Hw).
Qed.

(** X4. Whatever the store, [find_harmonics] returns at most ten entries,
    in descending order of harmonic score; every entry has a positive score
    and is a stored document with a wave pattern other than the base
    document. *)
Theorem find_harmonics_result_shape :
  forall (self : WaveSearchEngine.Engine) (doc_id harmonic_type : string),
    exists found,
      WaveSearchEngine.find_harmonics self doc_id harmonic_type = Some found /\
      (List.length found <= 10)%nat /\
      descending WaveSearchEngine.harmonic_score found /\
      Forall (fun entry =>
                WaveSearchEngine.harmonic_id entry <> doc_id /\
                WaveSearchEngine.harmonic_score entry > 0 /\
                exists doc,
                  In (WaveSearchEngine.harmonic_id entry, doc)
                     (WaveSearchEngine.documents self) /\
                  has_wave doc = true) found.
Proof.
  intros self doc_id harmonic_type.
  unfold WaveSearchEngine.find_harmonics, WaveSearchEngine.ranked_harmonics.
  destruct (PyDict.get doc_id (WaveSearchEngine.documents self)) as [base_doc|];
    [|exists []; cbn; repeat split; try constructor; lia].
  destruct (wave_pattern base_doc) as [base_wave|];
    [|exists []; cbn; repeat split; try constructor; lia].
  destruct (harmonics_loop_defined doc_id harmonic_type base_wave
              (WaveSearchEngine.documents self) []) as [found Hfound].
  rewrite Hfound. cbn [bind].
  eexists. split; [reflexivity|]. split; [rewrite length_firstn; lia|].
  split; [apply firstn_descending, sort_desc_descending|].
  apply Forall_forall. intros entry Hin.
  apply in_firstn, in_sort_desc in Hin.
  destruct (harmonics_loop_entries _ _ _ _ _ _ _ Hfound Hin) as [[]|H]. exact H.
Qed.

(** ** The search pipeline: who is in the result *)

Lemma score_loop_results (query_wave : WavePattern) (context : SearchContext)
    (category_filter : option string) (items : PyDict.dict LibraryDocument) :
  forall results out,
    WaveSearchEngine.score_loop query_wave context category_filter items results
    = Some out ->
    exists scored,
      out = results ++ scored /\
      Forall2 result_of scored (candidates category_filter items).
Proof.
  induction items as [|[doc_id doc] rest IH]; intros results out; simpl.
  - intros H. injection H as <-. exists []. rewrite app_nil_r. split; constructor.
  - unfold has_wave.
    destruct (WaveSearchEngine.filtered_out category_filter doc); simpl;
      [apply IH|].
    destruct (wave_pattern doc) as [wave|]; [|apply IH].
    destruct (WaveSearchEngine.calculate_resonance query_wave wave context)
      as [resonance|]; cbn [bind]; [|discriminate].
    intros Hrun. destruct (IH _ _ Hrun) as [scored [-> Hscored]].
    eexists. rewrite <- app_assoc. split; [reflexivity|].
    constructor; [split; reflexivity | exact Hscored].
Qed.

Lemma forall2_in_left {A B} (P : A -> B -> Prop) (l : list A) (l' : list B) (x : A) :
  Forall2 P l l' -> In x l -> exists y, In y l' /\ P x y.
Proof.
  induction 1 as [|a b l l' Hab _ IH]; simpl; [contradiction|].
  intros [<-|Hin].
  - exists b. auto.
  - destruct (IH Hin) as [y [Hy Hp]]. exists y. auto.
Qed.

Lemma boost_loop_length (resonant_docs : PyDict.dict R)
    (rest : list WaveSearchEngine.SearchResult) :
  List.length (WaveSearchEngine.boost_loop resonant_docs rest) = List.length rest.
Proof. induction rest as [|r tl IH]; simpl; [reflexivity | now rewrite IH]. Qed.

Lemma boost_loop_members (resonant_docs : PyDict.dict R)
    (rest : list WaveSearchEngine.SearchResult) (r : WaveSearchEngine.SearchResult) :
  In r (WaveSearchEngine.boost_loop resonant_docs rest) ->
  exists r0,
    In r0 rest /\
    WaveSearchEngine.result_id r = WaveSearchEngine.result_id r0 /\
    WaveSearchEngine.result_category r = WaveSearchEngine.result_category r0.
Proof.
  induction rest as [|r1 tl IH]; simpl; [contradiction|].
  intros [<-|Hin].
  - exists r1. split; [left; reflexivity|].
    destruct (PyDict.mem _ _); [|split; reflexivity].
    destruct (PyDict.get _ _); split; reflexivity.
  - destruct (IH Hin) as [r0 [H0 Hsame]]. exists r0. split; [right|]; assumption.
Qed.

Lemma rerank_length (self : WaveSearchEngine.Engine) (context : SearchContext)
    (ranked : list WaveSearchEngine.SearchResult) :
  List.length (WaveSearchEngine.rerank self context ranked) = List.length ranked.
Proof.
  unfold WaveSearchEngine.rerank. destruct ranked as [|top rest]; [reflexivity|].
  destruct (negb _); [|reflexivity].
  destruct (PyDict.get _ _); [|reflexivity].
  rewrite length_sort_desc. simpl. now rewrite boost_loop_length.
Qed.

Lemma rerank_members (self : WaveSearchEngine.Engine) (context : SearchContext)
    (ranked : list WaveSearchEngine.SearchResult) (r : WaveSearchEngine.SearchResult) :
  In r (WaveSearchEngine.rerank self context ranked) ->
  exists r0,
    In r0 ranked /\
    WaveSearchEngine.result_id r = WaveSearchEngine.result_id r0 /\
    WaveSearchEngine.result_category r = WaveSearchEngine.result_category r0.
Proof.
  unfold WaveSearchEngine.rerank. destruct ranked as [|top rest]; [contradiction|].
  assert (Hsame : In r (top :: rest) ->
                  exists r0, In r0 (top :: rest) /\
                    WaveSearchEngine.result_id r = WaveSearchEngine.result_id r0 /\
                    WaveSearchEngine.result_category r
                    = WaveSearchEngine.result_category r0)
    by (intros H; exists r; auto).
  destruct (negb _); [|exact Hsame].
  destruct (PyDict.get _ _) as [neighbours|]; [|exact Hsame].
  intros Hin. apply in_sort_desc in Hin. destruct Hin as [<-|Hin].
  - exists top. split; [left; reflexivity | split; reflexivity].
  - destruct (boost_loop_members _ _ _ Hin) as [r0 [H0 Hid]].
    exists r0. split; [right|]; assumption.
Qed.

Lemma rerank_descending (self : WaveSearchEngine.Engine) (context : SearchContext)
    (ranked : list WaveSearchEngine.SearchResult) :
  descending WaveSearchEngine.result_resonance ranked ->
  descending WaveSearchEngine.result_resonance
    (WaveSearchEngine.rerank self context ranked).
Proof.
  intros Hsorted. unfold WaveSearchEngine.rerank.
  destruct ranked as [|top rest]; [exact Hsorted|].
  destruct (negb _); [|exact Hsorted].
  destruct (PyDict.get _ _); [apply sort_desc_descending | exact Hsorted].
Qed.

Lemma slice_to_descending {A} (key : A -> R) (k : Z) (l : list A) :
  descending key l -> descending key (slice_to k l).
Proof.
  intros H. unfold slice_to. destruct (k <? 0)%Z; apply firstn_descending, H.
Qed.

Lemma in_slice_to {A} (k : Z) (l : list A) (x : A) : In x (slice_to k l) -> In x l.
Proof. unfold slice_to. destruct (k <? 0)%Z; apply in_firstn. Qed.

(** X6. Whenever [search] returns, the results are in descending order of
    resonance and, for a top_k that is not negative, their number is the
    smaller of top_k and the number of stored documents that pass the
    category filter and have a wave pattern: a filter that matches nothing
    gives the empty list, and a top_k beyond the number of candidates gives
    them all. *)
Theorem search_results_ordered_and_counted :
  forall (self : WaveSearchEngine.Engine) (query_embedding : list R)
         (context : option SearchContext) (category_filter : option string)
         (top_k : Z) (out : list WaveSearchEngine.SearchResult),
    WaveSearchEngine.search self query_embedding context category_filter top_k
    = Some out ->
    (0 <= top_k)%Z ->
    descending WaveSearchEngine.result_resonance out /\
    List.length out
    = Nat.min (Z.to_nat top_k)
        (List.length (candidates category_filter (WaveSearchEngine.documents self))).
Proof.
  intros self query_embedding context category_filter top_k out.
  unfold WaveSearchEngine.search.
  destruct (WaveSearchEngine.score_loop _ _ _ _ _) as [scored|] eqn:Hscore;
    cbn [bind]; [|discriminate].
  intros H Hk. injection H as <-. split.
  - apply slice_to_descending, rerank_descending, sort_desc_descending.
  - destruct (score_loop_results _ _ _ _ _ _ Hscore) as [new [-> Hnew]].
    apply Forall2_length in Hnew. simpl in Hnew.
    unfold slice_to. destruct (Z.ltb_spec top_k 0) as [Hneg|_]; [lia|].
    rewrite length_firstn, rerank_length, length_sort_desc. cbn [app].
    rewrite Hnew. reflexivity.
Qed.

(** X7. Every result of [search] stands for a stored document that has a
    wave pattern and that the category filter lets through; with a
    non-empty filter every result has exactly that category. *)
Theorem search_results_pass_the_filter :
  forall (self : WaveSearchEngine.Engine) (query_embedding : list R)
         (context : option SearchContext) (category_filter : option string)
         (top_k : Z) (out : list WaveSearchEngine.SearchResult),
    WaveSearchEngine.search self query_embedding context category_filter top_k
    = Some out ->
    Forall (fun r =>
              (exists doc,
                  In (WaveSearchEngine.result_id r, doc)
                     (WaveSearchEngine.documents self) /\
                  has_wave doc = true /\
                  WaveSearchEngine.result_category r = category doc) /\
              (forall c, category_filter = Some c -> c <> "" ->
                         WaveSearchEngine.result_category r = c)) out.
Proof.
  intros self query_embedding context category_filter top_k out.
  unfold WaveSearchEngine.search.
  destruct (WaveSearchEngine.score_loop _ _ _ _ _) as [scored|] eqn:Hscore;
    cbn [bind]; [|discriminate].
  intros H. injection H as <-. apply Forall_forall. intros r Hin.
  apply in_slice_to in Hin.
  destruct (rerank_members _ _ _ _ Hin) as [r0 [H0 [Hid Hcat]]].
  apply in_sort_desc in H0.
  destruct (score_loop_results _ _ _ _ _ _ Hscore) as [new [-> Hnew]].
  simpl in H0.
  destruct (forall2_in_left _ _ _ _ Hnew H0) as [[k doc] [Hkv [Hrid Hrcat]]].
  simpl in Hrid, Hrcat.
  unfold candidates in Hkv. apply filter_In in Hkv. destruct Hkv as [Hstored Hpass].
  apply andb_prop in Hpass. destruct Hpass as [Hfilter Hwave]. simpl in Hfilter, Hwave.
  split.
  - exists doc. rewrite Hid, Hrid, Hcat, Hrcat. auto.
  - intros c -> Hc. unfold WaveSearchEngine.filtered_out in Hfilter.
    destruct (String.eqb_spec c "") as [E|_]; [contradiction|]. simpl in Hfilter.
    destruct (String.eqb_spec (category doc) c) as [E|_]; [|discriminate].
    now rewrite Hcat, Hrcat.
Qed.

(** ** The search pipeline: when it returns *)

Lemma query_component_defined (a b : WavePattern) (context : SearchContext)
    (i : nat) :
  well_formed a -> well_formed b ->
  (i < Nat.min (List.length (frequencies a)) (List.length (frequencies b)))%nat ->
  exists c, WaveSearchEngine.component a b context i = Some c.
Proof.
  intros [Haa Hap] [Hba Hbp] Hi. unfold WaveSearchEngine.component.
  destruct (nth_error_defined (frequencies a) i) as [f1 ->]; [lia|].
  destruct (nth_error_defined (frequencies b) i) as [f2 ->]; [lia|].
  destruct (nth_error_defined (amplitudes a) i) as [a1 ->]; [lia|].
  destruct (nth_error_defined (amplitudes b) i) as [a2 ->]; [lia|].
  destruct (nth_error_defined (phases a) i) as [p1 ->]; [lia|].
  destruct (nth_error_defined (phases b) i) as [p2 ->]; [lia|].
  simpl. eexists. reflexivity.
Qed.

Lemma query_resonance_defined (a b : WavePattern) (context : SearchContext) :
  well_formed a -> well_formed b ->
  exists score, WaveSearchEngine.calculate_resonance a b context = Some score.
Proof.
  intros Ha Hb. unfold WaveSearchEngine.calculate_resonance.
  destruct (accumulate_defined (WaveSearchEngine.component a b context)
              (seq 0 (Nat.min (List.length (frequencies a))
                              (List.length (frequencies b))))) with (score := 0.0)
    as [total ->].
  - intros i Hi. apply in_seq in Hi. apply query_component_defined; auto. lia.
  - simpl. eexists. reflexivity.
Qed.

Lemma query_wave_well_formed (vector : list R) :
  well_formed (WaveSearchEngine.vector_to_wave vector).
Proof.
  rewrite query_wave_closed_form. unfold well_formed. simpl.
  rewrite !length_map, length_seq. split; reflexivity.
Qed.

Lemma score_loop_defined (query_wave : WavePattern) (context : SearchContext)
    (category_filter : option string) (items : PyDict.dict LibraryDocument) :
  well_formed query_wave ->
  well_formed_store items ->
  forall results, exists out,
    WaveSearchEngine.score_loop query_wave context category_filter items results
    = Some out.
Proof.
  intros Hq Hstore.
  induction items as [|[doc_id doc] rest IH]; intros results; simpl.
  - eexists. reflexivity.
  - inversion Hstore as [|? ? Hhere Hrest]; subst.
    destruct (WaveSearchEngine.filtered_out category_filter doc);
      [apply IH, Hrest|].
    destruct (wave_pattern doc) as [wave|] eqn:Hw; [|apply IH, Hrest].
    destruct (query_resonance_defined query_wave wave context Hq (Hhere wave Hw))
      as [score ->].
    cbn [bind]. apply IH, Hrest.
Qed.

Lemma search_defined (self : WaveSearchEngine.Engine) (query_embedding : list R)
    (context : option SearchContext) (category_filter : option string) (top_k : Z) :
  well_formed_store (WaveSearchEngine.documents self) ->
  exists out,
    WaveSearchEngine.search self query_embedding context category_filter top_k
    = Some out.
Proof.
  intros Hstore. unfold WaveSearchEngine.search.
  destruct (score_loop_defined (WaveSearchEngine.vector_to_wave query_embedding)
              match context with Some c => c | None => default_context end
              category_filter (WaveSearchEngine.documents self)
              (query_wave_well_formed query_embedding) Hstore [])
    as [scored ->].
  cbn [bind]. eexists. reflexivity.
Qed.

(** X8. [search] raises nothing when the stored wave patterns keep the
    length invariant (amplitudes and phases as long as frequencies): for
    every query embedding, context, category filter and top_k it returns a
    list. *)
Theorem search_returns_on_well_formed_store :
  forall (self : WaveSearchEngine.Engine) (query_embedding : list R)
         (context : option SearchContext) (category_filter : option string)
         (top_k : Z),
    well_formed_store (WaveSearchEngine.documents self) ->
    exists out,
      WaveSearchEngine.search self query_embedding context category_filter top_k
      = Some out.
Proof.
  intros self query_embedding context category_filter top_k.
  apply search_defined.
Qed.

Lemma tone_well_formed (f : R) : well_formed (tone f).
Proof. split; reflexivity. Qed.

Lemma linked_engine_store :
  well_formed_store (WaveSearchEngine.documents linked_engine).
Proof.
  unfold well_formed_store. simpl.
  repeat (apply Forall_cons;
          [intros w H; injection H as <-; apply tone_well_formed|]).
  apply Forall_nil.
Qed.

Lemma search_reranks_as_specified_witness :
  exists out,
    WaveSearchEngine.search linked_engine [1] (Some octaves_context) None 2
    = Some out /\
    SearchSpec.search linked_engine (WaveSearchEngine.vector_to_wave [1])
      octaves_context None 2 out.
Proof.
  destruct (search_defined linked_engine [1] (Some octaves_context) None 2
              linked_engine_store) as [out Hout].
  exists out. split; [exact Hout|].
  apply (search_reranks_as_specified linked_engine [1] (Some octaves_context)
           None 2 out); [lia | exact Hout].
Defined.

Lemma search_returns_on_well_formed_store_witness :
  exists out,
    WaveSearchEngine.search linked_engine [1] (Some octaves_context)
      (Some "physics") 2 = Some out.
Proof.
  apply (search_returns_on_well_formed_store linked_engine [1]
           (Some octaves_context) (Some "physics") 2).
  exact linked_engine_store.
Defined.

Lemma search_results_ordered_and_counted_witness :
  exists out,
    WaveSearchEngine.search linked_engine [1] (Some octaves_context) None 2
    = Some out /\
    descending WaveSearchEngine.result_resonance out /\
    List.length out = 2%nat.
Proof.
  destruct (search_defined linked_engine [1] (Some octaves_context) None 2
              linked_engine_store) as [out Hout].
  exists out. split; [exact Hout|].
  apply (search_results_ordered_and_counted linked_engine [1]
           (Some octaves_context) None 2 out Hout).
  lia.
Defined.

Lemma search_results_pass_the_filter_witness :
  exists out,
    WaveSearchEngine.search linked_engine [1] None (Some "physics") 2 = Some out /\
    Forall (fun r =>
              (exists doc,
                  In (WaveSearchEngine.result_id r, doc)
                     (WaveSearchEngine.documents linked_engine) /\
                  has_wave doc = true /\
                  WaveSearchEngine.result_category r = category doc) /\
              (forall c, Some "physics" = Some c -> c <> "" ->
                         WaveSearchEngine.result_category r = c)) out.
Proof.
  destruct (search_defined linked_engine [1] None (Some "physics") 2
              linked_engine_store) as [out Hout].
  exists out. split; [exact Hout|].
  exact (search_results_pass_the_filter linked_engine [1] None
           (Some "physics") 2 out Hout).
Defined.

(** ** The search pipeline on an empty query *)

Lemma zero_keys_descending {A} (key : A -> R) (l : list A) :
  Forall (fun x => key x = 0) l -> descending key l.
Proof.
  unfold descending. induction 1 as [|x l Hx Hl IH]; constructor; [exact IH|].
  rewrite Forall_forall in Hl |- *. intros y Hy. rewrite Hx, (Hl y Hy). lra.
Qed.

Lemma empty_query_resonance (query_wave wave : WavePattern) (context : SearchContext) :
  frequencies query_wave = [] ->
  WaveSearchEngine.calculate_resonance query_wave wave context = Some 0.0.
Proof.
  intros Hq. unfold WaveSearchEngine.calculate_resonance. rewrite Hq. reflexivity.
Qed.

Lemma score_loop_empty_query (query_wave : WavePattern) (context : SearchContext)
    (category_filter : option string) (items : PyDict.dict LibraryDocument) :
  frequencies query_wave = [] ->
  forall results, exists scored,
    WaveSearchEngine.score_loop query_wave context category_filter items results
    = Some (results ++ scored) /\
    Forall2 result_of scored (candidates category_filter items) /\
    Forall (fun r => WaveSearchEngine.result_resonance r = 0) scored.
Proof.
  intros Hq.
  induction items as [|[doc_id doc] rest IH]; intros results; simpl.
  - exists []. rewrite app_nil_r. repeat split; constructor.
  - unfold has_wave.
    destruct (WaveSearchEngine.filtered_out category_filter doc); simpl;
      [apply IH|].
    destruct (wave_pattern doc) as [wave|]; [|apply IH].
    rewrite empty_query_resonance by exact Hq. cbn [bind].
    match goal with
    | |- context [WaveSearchEngine.score_loop _ _ _ rest (results ++ [?r])] =>
        destruct (IH (results ++ [r])) as [scored [Hrun [Hof Hzero]]];
        exists (r :: scored)
    end.
    rewrite Hrun, <- app_assoc. split; [reflexivity|]. split.
    + constructor; [split; reflexivity | exact Hof].
    + constructor; [|exact Hzero]. simpl.
      destruct (_ || _); lra.
Qed.

Lemma boost_loop_ids (resonant_docs : PyDict.dict R)
    (rest : list WaveSearchEngine.SearchResult) :
  map WaveSearchEngine.result_id (WaveSearchEngine.boost_loop resonant_docs rest)
  = map WaveSearchEngine.result_id rest.
Proof.
  induction rest as [|r tl IH]; simpl; [reflexivity|]. rewrite IH. f_equal.
  destruct (PyDict.mem _ _); [|reflexivity].
  destruct (PyDict.get _ _); reflexivity.
Qed.

Lemma boost_loop_keeps_zero (resonant_docs : PyDict.dict R)
    (rest : list WaveSearchEngine.SearchResult) :
  Forall (fun r => WaveSearchEngine.result_resonance r = 0) rest ->
  Forall (fun r => WaveSearchEngine.result_resonance r = 0)
         (WaveSearchEngine.boost_loop resonant_docs rest).
Proof.
  induction 1 as [|r tl Hr _ IH]; simpl; constructor; [|exact IH].
  destruct (PyDict.mem _ _); [|exact Hr].
  destruct (PyDict.get _ _); [|exact Hr].
  simpl. rewrite Hr. lra.
Qed.

Lemma rerank_of_zero_scores (self : WaveSearchEngine.Engine)
    (context : SearchContext) (ranked : list WaveSearchEngine.SearchResult) :
  Forall (fun r => WaveSearchEngine.result_resonance r = 0) ranked ->
  map WaveSearchEngine.result_id (WaveSearchEngine.rerank self context ranked)
  = map WaveSearchEngine.result_id ranked /\
  Forall (fun r => WaveSearchEngine.result_resonance r = 0)
         (WaveSearchEngine.rerank self context ranked).
Proof.
  intros Hzero. unfold WaveSearchEngine.rerank.
  destruct ranked as [|top rest]; [split; [reflexivity | exact Hzero]|].
  destruct (negb _); [|split; [reflexivity | exact Hzero]].
  destruct (PyDict.get _ _) as [neighbours|]; [|split; [reflexivity | exact Hzero]].
  inversion Hzero as [|? ? Htop Hrest]; subst.
  assert (Hboosted : Forall (fun r => WaveSearchEngine.result_resonance r = 0)
                       (top :: WaveSearchEngine.boost_loop
                                 (PyDict.of_pairs neighbours) rest))
    by (constructor; [exact Htop | apply boost_loop_keeps_zero, Hrest]).
  rewrite sort_desc_of_descending by apply zero_keys_descending, Hboosted.
  split; [|exact Hboosted]. simpl. now rewrite boost_loop_ids.
Qed.

(** X9. An empty query embedding raises nothing, whatever the stored wave
    patterns are: every candidate scores 0 and, for a top_k that is not
    negative, the result is the first top_k candidates in store order. *)
Theorem search_with_empty_query :
  forall (self : WaveSearchEngine.Engine) (context : option SearchContext)
         (category_filter : option string) (top_k : Z),
    (0 <= top_k)%Z ->
    exists out,
      WaveSearchEngine.search self [] context category_filter top_k = Some out /\
      map WaveSearchEngine.result_id out
      = firstn (Z.to_nat top_k)
          (map fst (candidates category_filter (WaveSearchEngine.documents self))) /\
      Forall (fun r => WaveSearchEngine.result_resonance r = 0) out.
Proof.
  intros self context category_filter top_k Hk. unfold WaveSearchEngine.search.
  destruct (score_loop_empty_query (WaveSearchEngine.vector_to_wave [])
              match context with Some c => c | None => default_context end
              category_filter (WaveSearchEngine.documents self) eq_refl [])
    as [scored [-> [Hof Hzero]]].
  cbn [bind app].
  rewrite (sort_desc_of_descending _ scored) by apply zero_keys_descending, Hzero.
  destruct (rerank_of_zero_scores self
              match context with Some c => c | None => default_context end
              scored Hzero) as [Hids Hz].
  eexists. split; [reflexivity|].
  unfold slice_to. destruct (Z.ltb_spec top_k 0) as [Hneg|_]; [lia|]. split.
  - rewrite <- firstn_map, Hids. f_equal.
    clear - Hof. induction Hof as [|r kv l l' [Hid _] _ IH]; simpl;
      [reflexivity | now rewrite Hid, IH].
  - rewrite Forall_forall in Hz |- *. intros r Hr. apply Hz, in_firstn with (Z.to_nat top_k), Hr.
Qed.

Lemma search_with_empty_query_witness :
  exists out,
    WaveSearchEngine.search linked_engine [] (Some octaves_context) None 2
    = Some out /\
    map WaveSearchEngine.result_id out = ["a"; "b"] /\
    Forall (fun r => WaveSearchEngine.result_resonance r = 0) out.
Proof.
  apply (search_with_empty_query linked_engine (Some octaves_context) None 2).
  lia.
Defined.

(** ** Grouping by category *)

Lemma dict_set_keys {V} (k : string) (v : V) (d : PyDict.dict V) :
  map fst (PyDict.set k v d)
  = if PyDict.mem k d then map fst d else map fst d ++ [k].
Proof.
  unfold PyDict.mem. induction d as [|[k' v'] rest IH]; simpl; [reflexivity|].
  destruct (String.eqb k k'); simpl; [reflexivity|].
  rewrite IH. destruct (PyDict.get k rest); reflexivity.
Qed.

Lemma dict_mem_keys {V} (k : string) (d : PyDict.dict V) :
  PyDict.mem k d = true <-> In k (map fst d).
Proof.
  unfold PyDict.mem. induction d as [|[k' v'] rest IH]; simpl.
  - split; [discriminate | contradiction].
  - destruct (String.eqb_spec k k') as [->|Hne].
    + split; auto.
    + rewrite IH. split; [auto | intros [E|H]; [congruence | exact H]].
Qed.

Lemma dict_set_keys_nodup {V} (k : string) (v : V) (d : PyDict.dict V) :
  NoDup (map fst d) -> NoDup (map fst (PyDict.set k v d)).
Proof.
  intros Hd. rewrite dict_set_keys.
  destruct (PyDict.mem k d) eqn:E; [exact Hd|].
  apply NoDup_app; [exact Hd | repeat constructor; simpl; tauto|].
  intros x Hx [<-|[]]. apply dict_mem_keys in Hx. congruence.
Qed.

Lemma dict_in_get {V} (k : string) (v : V) (d : PyDict.dict V) :
  NoDup (map fst d) -> In (k, v) d -> PyDict.get k d = Some v.
Proof.
  induction d as [|[k' v'] rest IH]; simpl; [contradiction|].
  intros Hnd [E|Hin].
  - injection E as -> ->. now rewrite String.eqb_refl.
  - inversion Hnd as [|? ? Hnot Hrest]; subst.
    destruct (String.eqb_spec k k') as [->|_].
    + exfalso. apply Hnot. apply in_map_iff. exists (k', v). auto.
    + apply IH; assumption.
Qed.

Lemma group_by_category_keys_nodup (documents : list LibraryDocument) :
  forall categories,
    NoDup (map fst categories) ->
    NoDup (map fst (group_by_category documents categories)).
Proof.
  induction documents as [|doc rest IH]; intros categories Hnd; simpl.
  - exact Hnd.
  - apply IH, dict_set_keys_nodup.
    destruct (PyDict.mem (category doc) categories);
      [exact Hnd | apply dict_set_keys_nodup, Hnd].
Qed.

(** After the loop a category holds what it held before, followed by the
    documents of that category in input order; a category without a
    document is not created. *)
Lemma group_by_category_get (documents : list LibraryDocument) (c : string) :
  forall categories,
    PyDict.get c (group_by_category documents categories)
    = match PyDict.get c categories, docs_of c documents with
      | Some held, grouped => Some (held ++ grouped)
      | None, [] => None
      | None, grouped => Some grouped
      end.
Proof.
  induction documents as [|doc rest IH]; intros categories; simpl.
  - destruct (PyDict.get c categories); [now rewrite app_nil_r | reflexivity].
  - rewrite IH. clear IH.
    set (categories' := if PyDict.mem (category doc) categories then categories
                        else PyDict.set (category doc) [] categories).
    destruct (String.eqb_spec (category doc) c) as [E|Hne].
    + rewrite <- E, dict_get_set_same.
      assert (Hheld : match PyDict.get (category doc) categories' with
                      | Some l => l | None => [] end
                      = match PyDict.get (category doc) categories with
                        | Some l => l | None => [] end).
      { unfold categories', PyDict.mem.
        destruct (PyDict.get (category doc) categories) as [l|] eqn:Hg.
        - now rewrite Hg.
        - now rewrite dict_get_set_same. }
      rewrite Hheld.
      destruct (PyDict.get (category doc) categories) as [l|];
        [now rewrite <- app_assoc | reflexivity].
    + rewrite dict_get_set_other by congruence.
      unfold categories'. destruct (PyDict.mem (category doc) categories);
        [reflexivity|].
      rewrite dict_get_set_other by congruence. reflexivity.
Qed.

(** X10. Grouping by category partitions the documents: the category names
    are distinct, each category holds exactly the documents of that
    category, in input order and at least one, and every document is in the
    group of its category. *)
Theorem group_by_category_partitions :
  forall documents : list LibraryDocument,
    NoDup (map fst (group_by_category documents [])) /\
    (forall c docs, In (c, docs) (group_by_category documents []) ->
                    docs = docs_of c documents /\ docs <> []) /\
    (forall doc, In doc documents ->
                 In (category doc, docs_of (category doc) documents)
                    (group_by_category documents [])).
Proof.
  intros documents.
  assert (Hnd : NoDup (map fst (group_by_category documents [])))
    by (apply group_by_category_keys_nodup; constructor).
  split; [exact Hnd|]. split.
  - intros c docs Hin. apply dict_in_get in Hin; [|exact Hnd].
    rewrite group_by_category_get in Hin. simpl in Hin.
    destruct (docs_of c documents) as [|d l]; [discriminate|].
    injection Hin as <-. split; [reflexivity | discriminate].
  - intros doc Hdoc. apply dict_get_in. rewrite group_by_category_get. simpl.
    assert (Hin : In doc (docs_of (category doc) documents))
      by (apply filter_In; split; [exact Hdoc | apply String.eqb_refl]).
    destruct (docs_of (category doc) documents); [contradiction | reflexivity].
Qed.

(** ** Where the links of the graph come from *)

Lemma dict_set_in {V} (k k' : string) (v v' : V) (d : PyDict.dict V) :
  In (k', v') (PyDict.set k v d) -> In (k', v') d \/ (k' = k /\ v' = v).
Proof.
  induction d as [|[k0 v0] rest IH]; simpl.
  - intros [E|[]]. injection E as <- <-. auto.
  - destruct (String.eqb_spec k k0) as [->|_]; simpl.
    + intros [E|H]; [injection E as <- <-; auto | auto].
    + intros [E|H]; [auto|]. destruct (IH H) as [H'|H']; auto.
Qed.

Lemma group_members (documents : list LibraryDocument) (c : string)
    (docs : list LibraryDocument) :
  In (c, docs) (group_by_category documents []) -> docs = docs_of c documents.
Proof.
  intros Hin. apply dict_in_get in Hin;
    [|apply group_by_category_keys_nodup; constructor].
  rewrite group_by_category_get in Hin. simpl in Hin.
  destruct (docs_of c documents); [discriminate | now injection Hin].
Qed.

Lemma nodup_ids_of_category (documents : list LibraryDocument) (c : string) :
  NoDup (map id documents) -> NoDup (map id (docs_of c documents)).
Proof.
  unfold docs_of. induction documents as [|d rest IH]; simpl; [trivial|].
  intros Hnd. inversion Hnd as [|? ? Hnot Hrest]; subst.
  destruct (String.eqb (category d) c); simpl; [|apply IH, Hrest].
  constructor; [|apply IH, Hrest].
  intros Hin. apply Hnot. apply in_map_iff in Hin.
  destruct Hin as [x [Hx Hin]]. apply filter_In in Hin.
  apply in_map_iff. exists x. tauto.
Qed.

(** From positions in the list of a category to the documents at large. *)
Lemma link_from_category (documents : list LibraryDocument) (c : string)
    (p : nat) (d1 : LibraryDocument) (target : string) (score : R) :
  nth_error (docs_of c documents) p = Some d1 ->
  link_from (docs_of c documents) p target score ->
  link_ok documents d1 target c score.
Proof.
  intros Hp [Hscore [q [d2 [Hq [Hne [Hw Ht]]]]]].
  assert (H1 : In d1 (docs_of c documents)) by (eapply nth_error_In; eauto).
  assert (H2 : In d2 (docs_of c documents)) by (eapply nth_error_In; eauto).
  apply filter_In in H1. apply filter_In in H2.
  destruct H1 as [_ Hc1]. destruct H2 as [Hin2 Hc2].
  apply String.eqb_eq in Hc1. apply String.eqb_eq in Hc2.
  split; [congruence|]. split; [exact Hscore|].
  exists d2. repeat split; try assumption; try congruence.
  intros Hnd Heq. apply (nodup_ids_of_category documents c) in Hnd.
  apply Hne. symmetry.
  apply (proj1 (NoDup_nth_error (map id (docs_of c documents))) Hnd).
  - rewrite length_map. apply nth_error_Some. congruence.
  - rewrite !nth_error_map, Hp, Hq. simpl. congruence.
Qed.

Lemma qdrant_resonances_origin (category : string) (i : nat) (wave1 : WavePattern)
    (others : list LibraryDocument) :
  forall j resonances result link,
    QdrantIngester.resonances_loop category i wave1 j others resonances
    = Some result ->
    In link result ->
    In link resonances \/
    (QdrantIngester.link_category link = category /\
     QdrantIngester.resonance link > 0.5 /\
     exists k d2,
       nth_error others k = Some d2 /\ (j + k)%nat <> i /\
       has_wave d2 = true /\ QdrantIngester.target_id link = id d2).
Proof.
  induction others as [|doc2 rest IH]; intros j resonances result link; simpl.
  - intros H. injection H as <-. auto.
  - assert (Hlift : forall acc,
               QdrantIngester.resonances_loop category i wave1 (S j) rest acc
               = Some result ->
               In link result ->
               In link acc \/
               (QdrantIngester.link_category link = category /\
                QdrantIngester.resonance link > 0.5 /\
                exists k d2,
                  nth_error (doc2 :: rest) k = Some d2 /\ (j + k)%nat <> i /\
                  has_wave d2 = true /\ QdrantIngester.target_id link = id d2)).
    { intros acc Hrun Hin.
      destruct (IH _ _ _ _ Hrun Hin) as [H|[Hc [Hs [k [d2 [Hk [Hne [Hw Ht]]]]]]]];
        [left; exact H|].
      right. repeat split; try assumption.
      exists (S k), d2. repeat split; try assumption. lia. }
    destruct (Nat.eqb_spec i j) as [_|Hij]; [apply Hlift|].
    destruct (wave_pattern doc2) as [wave2|] eqn:Hw2; [|apply Hlift].
    destruct (WaveTransformer.calculate_resonance wave1 wave2) as [r|];
      cbn [bind]; [|discriminate].
    intros Hrun Hin. destruct (Hlift _ Hrun Hin) as [Hacc|Hnew]; [|right; exact Hnew].
    destruct (Rgtb r 0.5) eqn:Hr; [|left; exact Hacc].
    apply in_app_or in Hacc. destruct Hacc as [Hacc|[<-|[]]]; [left; exact Hacc|].
    right. simpl. split; [reflexivity|]. split; [apply Rltb_lt in Hr; lra|].
    exists 0%nat, doc2. repeat split; try reflexivity.
    + lia.
    + apply (has_wave_of_pattern doc2 wave2 Hw2).
Qed.

Lemma qdrant_docs_origin (category : string) (docs pending : list LibraryDocument) :
  forall i data result k links,
    (forall p, nth_error pending p = nth_error docs (i + p)) ->
    QdrantIngester.docs_loop category i pending docs data = Some result ->
    In (k, links) result ->
    In (k, links) data \/
    exists p d1,
      nth_error docs p = Some d1 /\ id d1 = k /\ has_wave d1 = true /\
      Forall (fun link =>
                QdrantIngester.link_category link = category /\
                link_from docs p (QdrantIngester.target_id link)
                  (QdrantIngester.resonance link)) links.
Proof.
  induction pending as [|doc1 rest IH]; intros i data result k links Hpos;
    cbn [QdrantIngester.docs_loop].
  - intros H. injection H as <-. auto.
  - assert (Hshift : forall p, nth_error rest p = nth_error docs (S i + p)).
    { intros p. specialize (Hpos (S p)). simpl in Hpos.
      rewrite Hpos. f_equal. lia. }
    assert (Hhere : nth_error docs i = Some doc1).
    { specialize (Hpos 0%nat). simpl in Hpos. rewrite Nat.add_0_r in Hpos. auto. }
    destruct (wave_pattern doc1) as [wave1|] eqn:Hw1; [|apply IH, Hshift].
    destruct (QdrantIngester.resonances_loop category i wave1 0 docs [])
      as [rs|] eqn:Hrs; cbn [bind]; [|discriminate].
    intros Hrun Hin.
    destruct (IH _ _ _ _ _ Hshift Hrun Hin) as [Hdata|Hnew]; [|right; exact Hnew].
    destruct rs as [|r rs']; [left; exact Hdata|].
    apply dict_set_in in Hdata. destruct Hdata as [Hdata|[-> ->]]; [left; exact Hdata|].
    right. exists i, doc1. repeat split; try assumption.
    + apply (has_wave_of_pattern doc1 wave1 Hw1).
    + apply Forall_forall. intros link Hlink.
      apply in_firstn, in_sort_desc in Hlink.
      destruct (qdrant_resonances_origin _ _ _ _ _ _ _ _ Hrs Hlink)
        as [[]|[Hc [Hs [q [d2 [Hq [Hne [Hw Ht]]]]]]]].
      split; [exact Hc|]. split; [exact Hs|].
      exists q, d2. repeat split; assumption.
Qed.

Lemma qdrant_category_origin (documents : list LibraryDocument)
    (categories : PyDict.dict (list LibraryDocument)) :
  (forall c docs, In (c, docs) categories -> docs = docs_of c documents) ->
  forall data result k links,
    QdrantIngester.category_loop categories data = Some result ->
    In (k, links) result ->
    In (k, links) data \/
    exists d1,
      In d1 documents /\ id d1 = k /\ has_wave d1 = true /\
      Forall (fun link =>
                link_ok documents d1 (QdrantIngester.target_id link)
                  (QdrantIngester.link_category link)
                  (QdrantIngester.resonance link)) links.
Proof.
  induction categories as [|[c docs] rest IH]; intros Hgroups data result k links;
    simpl.
  - intros H. injection H as <-. auto.
  - destruct (QdrantIngester.docs_loop c 0 docs docs data) as [data'|] eqn:Hd;
      cbn [bind]; [|discriminate].
    intros Hrun Hin.
    destruct (IH (fun c' docs' H => Hgroups c' docs' (or_intror H))
                 _ _ _ _ Hrun Hin) as [Hdata|Hnew]; [|right; exact Hnew].
    destruct (qdrant_docs_origin c docs docs 0 data data' k links
                (fun p => eq_refl) Hd Hdata)
      as [Hold|[p [d1 [Hp [Hid [Hw Hlinks]]]]]]; [left; exact Hold|].
    right. rewrite (Hgroups c docs (or_introl eq_refl)) in Hp, Hlinks.
    exists d1. repeat split; try assumption.
    + apply nth_error_In in Hp. apply filter_In in Hp. tauto.
    + rewrite Forall_forall in Hlinks |- *. intros link Hlink.
      destruct (Hlinks link Hlink) as [Hc Hfrom].
      rewrite Hc. apply (link_from_category documents c p); assumption.
Qed.

(** X11. In the graph [create_resonance_indices] returns, every key is the
    id of a document that has a wave pattern, and every link of its list
    carries the category of that document, a resonance above 0.5, and the id
    of a document of the same category that has a wave pattern -- of another
    document, when the ids of the documents are unique: links never cross
    categories and no document is its own neighbour. *)
Theorem qdrant_links_stay_in_category :
  forall (documents : list LibraryDocument)
         (graph : PyDict.dict (list QdrantIngester.ResonanceLink)),
    QdrantIngester.create_resonance_indices documents = Some graph ->
    Forall (fun entry =>
              exists d1,
                In d1 documents /\ id d1 = fst entry /\ has_wave d1 = true /\
                Forall (fun link =>
                          link_ok documents d1 (QdrantIngester.target_id link)
                            (QdrantIngester.link_category link)
                            (QdrantIngester.resonance link)) (snd entry)) graph.
Proof.
  intros documents graph Hrun. apply Forall_forall. intros [k links] Hin.
  destruct (qdrant_category_origin documents (group_by_category documents [])
              (group_members documents) [] graph k links Hrun Hin) as [[]|H].
  exact H.
Qed.

Lemma qdrant_links_stay_in_category_witness :
  Forall (fun entry =>
            exists d1,
              In d1 twin_docs /\ id d1 = fst entry /\ has_wave d1 = true /\
              Forall (fun link =>
                        link_ok twin_docs d1 (QdrantIngester.target_id link)
                          (QdrantIngester.link_category link)
                          (QdrantIngester.resonance link)) (snd entry)) twin_graph.
Proof.
  apply (qdrant_links_stay_in_category twin_docs twin_graph).
  exact twin_docs_indexed.
Defined.

(** ** What the category indices hold *)

Lemma mem8_resonances_origin (i : nat) (doc : LibraryDocument)
    (others : list LibraryDocument) :
  forall j resonances result link,
    Mem8Ingester.resonances_loop i doc j others resonances = Some result ->
    In link result ->
    In link resonances \/
    (has_wave doc = true /\ snd link > 0.5 /\
     exists k d2,
       nth_error others k = Some d2 /\ (j + k)%nat <> i /\
       has_wave d2 = true /\ fst link = id d2).
Proof.
  induction others as [|other rest IH]; intros j resonances result link; simpl.
  - intros H. injection H as <-. auto.
  - assert (Hlift : forall acc,
               Mem8Ingester.resonances_loop i doc (S j) rest acc = Some result ->
               In link result ->
               In link acc \/
               (has_wave doc = true /\ snd link > 0.5 /\
                exists k d2,
                  nth_error (other :: rest) k = Some d2 /\ (j + k)%nat <> i /\
                  has_wave d2 = true /\ fst link = id d2)).
    { intros acc Hrun Hin.
      destruct (IH _ _ _ _ Hrun Hin) as [H|[Hd [Hs [k [d2 [Hk [Hne [Hw Ht]]]]]]]];
        [left; exact H|].
      right. repeat split; try assumption.
      exists (S k), d2. repeat split; try assumption. lia. }
    destruct (Nat.eqb_spec i j) as [_|Hij]; cbn [negb]; [apply Hlift|].
    unfold WaveTransformer.calculate_resonance_opt.
    destruct (wave_pattern doc) as [wave1|] eqn:Hw1; cbn [bind]; [|discriminate].
    destruct (wave_pattern other) as [wave2|] eqn:Hw2; cbn [bind]; [|discriminate].
    destruct (WaveTransformer.calculate_resonance wave1 wave2) as [r|];
      cbn [bind]; [|discriminate].
    intros Hrun Hin. destruct (Hlift _ Hrun Hin) as [Hacc|Hnew]; [|right; exact Hnew].
    destruct (Rgtb r 0.5) eqn:Hr; [|left; exact Hacc].
    apply in_app_or in Hacc. destruct Hacc as [Hacc|[<-|[]]]; [left; exact Hacc|].
    right. simpl. split; [apply (has_wave_of_pattern doc wave1 Hw1)|].
    split; [apply Rltb_lt in Hr; lra|].
    exists 0%nat, other. repeat split; try reflexivity.
    + lia.
    + apply (has_wave_of_pattern other wave2 Hw2).
Qed.

Lemma mem8_index_origin (docs pending : list LibraryDocument) :
  forall i index result,
    (forall p, nth_error pending p = nth_error docs (i + p)) ->
    Mem8Ingester.index_loop i pending docs index = Some result ->
    Mem8Ingester.index_category result = Mem8Ingester.index_category index /\
    Mem8Ingester.document_count result = Mem8Ingester.document_count index /\
    map Mem8Ingester.entry_id (Mem8Ingester.documents result)
    = map Mem8Ingester.entry_id (Mem8Ingester.documents index) ++ map id pending /\
    (forall k links,
        In (k, links) (Mem8Ingester.resonance_graph result) ->
        In (k, links) (Mem8Ingester.resonance_graph index) \/
        exists p d1,
          nth_error docs p = Some d1 /\ id d1 = k /\ has_wave d1 = true /\
          Forall (fun link => link_from docs p (fst link) (snd link)) links).
Proof.
  induction pending as [|doc rest IH]; intros i index result Hpos;
    cbn [Mem8Ingester.index_loop].
  - intros H. injection H as <-. rewrite app_nil_r. auto.
  - assert (Hshift : forall p, nth_error rest p = nth_error docs (S i + p)).
    { intros p. specialize (Hpos (S p)). simpl in Hpos.
      rewrite Hpos. f_equal. lia. }
    assert (Hhere : nth_error docs i = Some doc).
    { specialize (Hpos 0%nat). simpl in Hpos. rewrite Nat.add_0_r in Hpos. auto. }
    destruct (Mem8Ingester.resonances_loop i doc 0 docs []) as [rs|] eqn:Hrs;
      cbn [bind]; [|discriminate].
    intros Hrun. destruct (IH _ _ _ Hshift Hrun) as [Hc [Hn [Hdocs Hgraph]]].
    cbn [Mem8Ingester.index_category Mem8Ingester.document_count
         Mem8Ingester.documents Mem8Ingester.resonance_graph] in Hc, Hn, Hdocs, Hgraph.
    split; [exact Hc|]. split; [exact Hn|]. split.
    + rewrite Hdocs, map_app, <- app_assoc. reflexivity.
    + intros k links Hin.
      destruct (Hgraph k links Hin) as [Hold|Hnew]; [|right; exact Hnew].
      destruct rs as [|r rs']; [left; exact Hold|].
      apply dict_set_in in Hold. destruct Hold as [Hold|[-> ->]]; [left; exact Hold|].
      right. exists i, doc.
      assert (Horigin : forall link, In link (r :: rs') ->
                has_wave doc = true /\ link_from docs i (fst link) (snd link)).
      { intros link Hlink.
        destruct (mem8_resonances_origin _ _ _ _ _ _ _ Hrs Hlink)
          as [[]|[Hw [Hs [q [d2 [Hq [Hne [Hw2 Ht]]]]]]]].
        split; [exact Hw|]. split; [exact Hs|].
        exists q, d2. repeat split; assumption. }
      repeat split; try assumption.
      * apply (Horigin r). left. reflexivity.
      * apply Forall_forall. intros link Hlink.
        apply in_firstn, in_sort_desc in Hlink. apply Horigin, Hlink.
Qed.




(** ** When the graph builders return *)

Lemma transform_complete (vector : list R) :
  complete (WaveTransformer.vector_to_wave vector).
Proof.
  split; [apply transform_well_formed|].
  rewrite vector_to_wave_closed_form. simpl. eexists. split; [reflexivity|].
  now rewrite !length_map.
Qed.

Lemma complete_harmonics_at (w : WavePattern) (i : nat) :
  complete w -> (i < List.length (frequencies w))%nat ->
  exists tags, WaveTransformer.harmonics_at w i = Some tags.
Proof.
  intros [_ [hs [Hhs Hlen]]] Hi. unfold WaveTransformer.harmonics_at.
  rewrite Hhs. cbn [bind]. apply nth_error_defined. lia.
Qed.

Lemma complete_resonance_defined (a b : WavePattern) :
  complete a -> complete b ->
  exists score, WaveTransformer.calculate_resonance a b = Some score.
Proof.
  intros Ha Hb. unfold WaveTransformer.calculate_resonance.
  destruct (accumulate_defined (WaveTransformer.component a b)
              (seq 0 (Nat.min (List.length (frequencies a))
                              (List.length (frequencies b))))) with (score := 0.0)
    as [total ->].
  - intros i Hi. apply in_seq in Hi.
    destruct (complete_harmonics_at a i Ha) as [h1s H1]; [lia|].
    destruct (complete_harmonics_at b i Hb) as [h2s H2]; [lia|].
    apply transformer_component_defined with (h1s := h1s) (h2s := h2s);
      try assumption; try lia.
    + apply Ha.
    + apply Hb.
  - simpl. eexists. reflexivity.
Qed.

Lemma qdrant_resonances_defined (category : string) (i : nat) (wave1 : WavePattern)
    (others : list LibraryDocument) :
  complete wave1 -> complete_waves others ->
  forall j resonances, exists result,
    QdrantIngester.resonances_loop category i wave1 j others resonances
    = Some result.
Proof.
  intros H1 Hothers.
  induction others as [|doc2 rest IH]; intros j resonances; simpl.
  - eexists. reflexivity.
  - inversion Hothers as [|? ? Hhere Hrest]; subst.
    destruct (Nat.eqb i j); [apply IH, Hrest|].
    destruct (wave_pattern doc2) as [wave2|] eqn:Hw; [|apply IH, Hrest].
    destruct (complete_resonance_defined wave1 wave2 H1 (Hhere wave2 eq_refl)) as [r ->].
    cbn [bind]. apply IH, Hrest.
Qed.

Lemma qdrant_docs_defined (category : string) (docs pending : list LibraryDocument) :
  complete_waves docs -> complete_waves pending ->
  forall i data, exists result,
    QdrantIngester.docs_loop category i pending docs data = Some result.
Proof.
  intros Hdocs Hpending.
  induction pending as [|doc1 rest IH]; intros i data;
    cbn [QdrantIngester.docs_loop].
  - eexists. reflexivity.
  - inversion Hpending as [|? ? Hhere Hrest]; subst.
    destruct (wave_pattern doc1) as [wave1|] eqn:Hw; [|apply IH, Hrest].
    destruct (qdrant_resonances_defined category i wave1 docs
                (Hhere wave1 eq_refl) Hdocs 0 []) as [rs ->].
    cbn [bind]. apply IH, Hrest.
Qed.

Lemma complete_waves_of_category (documents : list LibraryDocument) (c : string) :
  complete_waves documents -> complete_waves (docs_of c documents).
Proof.
  unfold complete_waves, docs_of. rewrite !Forall_forall.
  intros H doc Hin. apply filter_In in Hin. apply H, Hin.
Qed.

Lemma qdrant_categories_defined (documents : list LibraryDocument)
    (categories : PyDict.dict (list LibraryDocument)) :
  complete_waves documents ->
  (forall c docs, In (c, docs) categories -> docs = docs_of c documents) ->
  forall data, exists result,
    QdrantIngester.category_loop categories data = Some result.
Proof.
  intros Hcomplete.
  induction categories as [|[c docs] rest IH]; intros Hgroups data; simpl.
  - eexists. reflexivity.
  - assert (Hdocs : complete_waves docs).
    { rewrite (Hgroups c docs (or_introl eq_refl)).
      apply complete_waves_of_category, Hcomplete. }
    destruct (qdrant_docs_defined c docs docs Hdocs Hdocs 0 data) as [data' ->].
    cbn [bind]. apply IH. intros c' docs' H. apply Hgroups. right. exact H.
Qed.

Lemma mem8_resonances_defined (i : nat) (doc : LibraryDocument)
    (others : list LibraryDocument) :
  has_wave doc = true -> (forall w, wave_pattern doc = Some w -> complete w) ->
  Forall (fun d => has_wave d = true) others -> complete_waves others ->
  forall j resonances, exists result,
    Mem8Ingester.resonances_loop i doc j others resonances = Some result.
Proof.
  intros Hw Hc Hwaves Hothers. unfold has_wave in Hw.
  destruct (wave_pattern doc) as [wave1|] eqn:Hw1; [|discriminate].
  induction others as [|other rest IH]; intros j resonances; simpl.
  - eexists. reflexivity.
  - inversion Hothers as [|? ? Hhere Hrest]; subst.
    inversion Hwaves as [|? ? Hwo Hwrest]; subst.
    destruct (negb (Nat.eqb i j)); [|apply IH; assumption].
    unfold has_wave in Hwo. rewrite Hw1.
    destruct (wave_pattern other) as [wave2|] eqn:Hw2; [|discriminate].
    unfold WaveTransformer.calculate_resonance_opt. cbn [bind].
    destruct (complete_resonance_defined wave1 wave2 (Hc wave1 eq_refl)
                (Hhere wave2 eq_refl)) as [r ->].
    cbn [bind]. apply IH; assumption.
Qed.

Lemma mem8_index_defined (docs pending : list LibraryDocument) :
  Forall (fun d => has_wave d = true) docs -> complete_waves docs ->
  Forall (fun d => has_wave d = true) pending -> complete_waves pending ->
  forall i index, exists result,
    Mem8Ingester.index_loop i pending docs index = Some result.
Proof.
  intros Hwd Hcd Hwp Hcp.
  induction pending as [|doc rest IH]; intros i index;
    cbn [Mem8Ingester.index_loop].
  - eexists. reflexivity.
  - inversion Hwp as [|? ? Hw Hwrest]; subst.
    inversion Hcp as [|? ? Hc Hcrest]; subst.
    destruct (mem8_resonances_defined i doc docs Hw Hc Hwd Hcd 0 []) as [rs ->].
    cbn [bind]. apply IH; assumption.
Qed.

Lemma mem8_categories_defined (documents : list LibraryDocument)
    (categories : PyDict.dict (list LibraryDocument)) :
  Forall (fun d => has_wave d = true) documents ->
  complete_waves documents ->
  (forall c docs, In (c, docs) categories -> docs = docs_of c documents) ->
  forall written, exists result,
    Mem8Ingester.category_loop categories written = Some result.
Proof.
  intros Hwaves Hcomplete.
  induction categories as [|[c docs] rest IH]; intros Hgroups written; simpl.
  - eexists. reflexivity.
  - assert (Hdocs : complete_waves docs).
    { rewrite (Hgroups c docs (or_introl eq_refl)).
      apply complete_waves_of_category, Hcomplete. }
    assert (Hw : Forall (fun d => has_wave d = true) docs).
    { rewrite (Hgroups c docs (or_introl eq_refl)). unfold docs_of.
      rewrite Forall_forall in Hwaves |- *. intros d Hd.
      apply filter_In in Hd. apply Hwaves, Hd. }
    match goal with
    | |- context [Mem8Ingester.index_loop 0 docs docs ?init] =>
        destruct (mem8_index_defined docs docs Hw Hdocs Hw Hdocs 0 init)
          as [index ->]
    end.
    cbn [bind]. apply IH. intros c' docs' H. apply Hgroups. right. exact H.
Qed.

(** X13. The graph builders raise nothing on documents whose wave patterns
    are complete (all four keys, of one length, as the transform builds
    them): [create_resonance_indices] always returns a graph, and
    [ingest_documents] returns its indices provided every document has a
    wave pattern. *)
Theorem builders_return_on_complete_waves :
  forall documents : list LibraryDocument,
    complete_waves documents ->
    (exists graph,
        QdrantIngester.create_resonance_indices documents = Some graph) /\
    (Forall (fun d => has_wave d = true) documents ->
     exists indices, Mem8Ingester.ingest_documents documents = Some indices).
Proof.
  intros documents Hcomplete. split.
  - apply (qdrant_categories_defined documents); [exact Hcomplete|].
    apply group_members.
  - intros Hwaves.
    apply (mem8_categories_defined documents); [exact Hwaves | exact Hcomplete|].
    apply group_members.
Qed.

Lemma plain_pattern_complete : complete plain_pattern.
Proof.
  split; [split; reflexivity|]. eexists. split; reflexivity.
Qed.

Lemma twin_docs_complete : complete_waves twin_docs.
Proof.
  unfold complete_waves, twin_docs.
  repeat (apply Forall_cons;
          [simpl; intros w H; injection H as <-; apply plain_pattern_complete|]).
  apply Forall_nil.
Qed.

Lemma builders_return_on_complete_waves_witness :
  (exists graph,
      QdrantIngester.create_resonance_indices twin_docs = Some graph) /\
  (exists indices, Mem8Ingester.ingest_documents twin_docs = Some indices).
Proof.
  destruct (builders_return_on_complete_waves twin_docs twin_docs_complete)
    as [Hqdrant Hmem8].
  split; [exact Hqdrant|].
  apply Hmem8. repeat constructor.
Defined.

(** ** The library processor *)

Lemma ratio_within_unit (x y : R) : 0 < y -> - y <= x <= y -> -1 <= x / y <= 1.
Proof.
  intros Hy [Hlo Hhi]. unfold Rdiv.
  assert (Hinv : 0 < / y) by (apply Rinv_0_lt_compat; exact Hy).
  assert (Hone : y * / y = 1) by (apply Rinv_r; lra).
  split; nra.
Qed.

Lemma valence_ratio_bounds (p n : Z) :
  (0 <= p)%Z -> (0 <= n)%Z -> (p + n <> 0)%Z ->
  -1 <= IZR (p - n) / IZR (p + n) <= 1.
Proof.
  intros Hp Hn Hne. apply ratio_within_unit.
  - apply IZR_lt. lia.
  - rewrite <- opp_IZR. split; apply IZR_le; lia.
Qed.

Lemma keyword_score_nonneg (keywords : list string) (text : string) :
  (0 <= LibraryProcessor.keyword_score keywords text)%Z.
Proof. apply Nat2Z.is_nonneg. Qed.

(** X14. Whatever the text, the emotional valence lies between -1 and 1,
    and it is 0 when the text contains none of the keywords. *)
Theorem emotional_valence_within_unit :
  forall (lower : string -> string) (text : string),
    -1 <= LibraryProcessor.calculate_emotional_valence lower text <= 1 /\
    (Forall (fun word => contains word (lower text) = false)
            (LibraryProcessor.positive_keywords
             ++ LibraryProcessor.negative_keywords) ->
     LibraryProcessor.calculate_emotional_valence lower text = 0).
Proof.
  intros lower text. unfold LibraryProcessor.calculate_emotional_valence. split.
  - match goal with
    | |- context [(?total =? 0)%Z] =>
        destruct (Z.eqb_spec total 0) as [_|Hne]; [lra|]
    end.
    apply valence_ratio_bounds; auto using keyword_score_nonneg.
  - intros Hnone. apply Forall_app in Hnone. destruct Hnone as [Hpos Hneg].
    assert (Hzero : forall keywords,
               Forall (fun word => contains word (lower text) = false) keywords ->
               LibraryProcessor.keyword_score keywords (lower text) = 0%Z).
    { intros keywords H. unfold LibraryProcessor.keyword_score.
      induction H as [|w ws Hw _ IH]; simpl; [reflexivity|].
      rewrite Hw. exact IH. }
    rewrite (Hzero _ Hpos), (Hzero _ Hneg). simpl. lra.
Qed.

Lemma importance_range (doc : LibraryDocument) :
  0.5 <= LibraryProcessor.calculate_importance doc <= 1.
Proof.
  unfold LibraryProcessor.calculate_importance.
  pose proof (Rabs_pos (emotional_valence doc)) as Hv.
  destruct (String.eqb (category doc) "RSVP"),
           (among (doc_type doc) ["academic_paper"; "text_document"]);
    unfold Rmin; destruct (Rle_dec _ _); lra.
Qed.

(** X15. The importance of a document lies between 0.5 and 1, whatever its
    fields; for a valence between -1 and 1 the cap at 1 is never needed: the
    importance is the sum of the base 0.5, the bonuses and a tenth of the
    magnitude of the valence. *)
Theorem importance_within_bounds :
  forall doc : LibraryDocument,
    0.5 <= LibraryProcessor.calculate_importance doc <= 1 /\
    (Rabs (emotional_valence doc) <= 1 ->
     LibraryProcessor.calculate_importance doc
     = 0.5
       + (if String.eqb (category doc) "RSVP" then 0.3 else 0)
       + (if among (doc_type doc) ["academic_paper"; "text_document"]
          then 0.1 else 0)
       + Rabs (emotional_valence doc) * 0.1).
Proof.
  intros doc. split; [apply importance_range|].
  intros Hle. unfold LibraryProcessor.calculate_importance.
  pose proof (Rabs_pos (emotional_valence doc)) as Hv.
  destruct (String.eqb (category doc) "RSVP"),
           (among (doc_type doc) ["academic_paper"; "text_document"]);
    unfold Rmin; destruct (Rle_dec _ _); lra.
Qed.

Lemma starts_with_contains (a b s : string) :
  starts_with (a ++ b) s = true -> contains b s = true.
Proof.
  revert s. induction a as [|c a IH]; intros s; simpl.
  - intros H. destruct s; simpl; rewrite H; reflexivity.
  - destruct s as [|d s]; [discriminate|].
    intros H. apply andb_prop in H. destruct H as [_ H].
    simpl. rewrite (IH s H). apply orb_true_r.
Qed.

(** A text that contains a word contains every ending of that word. *)
Lemma contains_ending (a b s : string) :
  contains (a ++ b) s = true -> contains b s = true.
Proof.
  induction s as [|d s IH]; simpl.
  - rewrite !orb_false_r. intros H. apply starts_with_contains in H.
    simpl in H. rewrite orb_false_r in H. exact H.
  - intros H. apply orb_prop in H. destruct H as [H|H].
    + apply starts_with_contains in H. exact H.
    + rewrite (IH H). apply orb_true_r.
Qed.

Lemma astrophysics_contains_physics (s : string) :
  contains "physics" s = false -> contains "astrophysics" s = false.
Proof.
  intros H. destruct (contains "astrophysics" s) eqn:E; [|reflexivity].
  change "astrophysics" with ("astro" ++ "physics")%string in E.
  apply contains_ending in E. congruence.
Qed.

Lemma category_is_reachable (lower : string -> string) (path suffix text : string) :
  In (fst (LibraryProcessor.categorize_document lower path suffix text))
     reachable_categories.
Proof.
  unfold LibraryProcessor.categorize_document. cbn [fst].
  destruct (contains "rsvp" (lower path) || _); [simpl; tauto|].
  destruct (contains "epistemology" (lower path)); [simpl; tauto|].
  destruct (contains "physics" (lower path)) eqn:Hphysics; [simpl; tauto|].
  rewrite (astrophysics_contains_physics _ Hphysics).
  destruct (contains "infrastructure" (lower path)); [simpl; tauto|].
  destruct (contains "semantic" (lower path) || _); [simpl; tauto|].
  destruct (contains "mimetic" (lower path) || _); simpl; tauto.
Qed.

(** X16. [categorize_document] never answers "astrophysics": a path that
    contains "astrophysics" contains "physics", which is tested first.  The
    category is one of the seven others, and the document type one of the six
    type names. *)
Theorem astrophysics_is_never_assigned :
  forall (lower : string -> string) (path suffix text : string),
    fst (LibraryProcessor.categorize_document lower path suffix text)
    <> "astrophysics" /\
    In (fst (LibraryProcessor.categorize_document lower path suffix text))
       reachable_categories /\
    In (snd (LibraryProcessor.categorize_document lower path suffix text))
       ["audio_transcript"; "academic_paper"; "latex_source"; "web_archive";
        "text_document"; "unknown"].
Proof.
  intros lower path suffix text.
  pose proof (category_is_reachable lower path suffix text) as Hcat.
  split; [|split; [exact Hcat|]].
  - intros E. rewrite E in Hcat. simpl in Hcat.
    repeat (destruct Hcat as [Hcat|Hcat]; [discriminate|]). exact Hcat.
  - unfold LibraryProcessor.categorize_document. cbn [snd].
    destruct (String.eqb suffix ".mp3"); [simpl; tauto|].
    destruct (String.eqb suffix ".pdf"); [simpl; tauto|].
    destruct (among suffix [".tex"; ".bib"]); [simpl; tauto|].
    destruct (among suffix [".mhtml"; ".mht"; ".html"]); [simpl; tauto|].
    destruct (String.eqb suffix ".txt"); simpl; tauto.
Qed.

Lemma substring_length_bound (n : nat) (s : string) :
  (String.length (String.substring 0 n s) <= n)%nat.
Proof.
  revert s. induction n as [|n IH]; intros [|c s]; simpl; try lia.
  specialize (IH s). lia.
Qed.

Lemma process_file_wave (lower strip : string -> string)
    (encode : string -> list R) (file : LibraryProcessor.SourceFile)
    (doc : LibraryDocument) :
  LibraryProcessor.process_file lower strip encode file = Some doc ->
  exists vector,
    embedding doc = Some vector /\
    wave_pattern doc = Some (WaveTransformer.vector_to_wave vector).
Proof.
  unfold LibraryProcessor.process_file.
  destruct (_ || _); [discriminate|].
  destruct (LibraryProcessor.categorize_document lower _ _ _) as [cat kind].
  intros H. injection H as <-. eexists. split; reflexivity.
Qed.

(** X17. A document [process_file] returns is consistent: its wave pattern
    is the transform of its embedding, its valence lies between -1 and 1,
    its importance between 0.5 and 1, its content has at most 10000
    characters, its category is one of the seven reachable ones, and the
    text it was made from has at least 100 characters once stripped. *)
Theorem process_file_makes_consistent_documents :
  forall (lower strip : string -> string) (encode : string -> list R)
         (file : LibraryProcessor.SourceFile) (doc : LibraryDocument),
    LibraryProcessor.process_file lower strip encode file = Some doc ->
    (exists vector,
        embedding doc = Some vector /\
        wave_pattern doc = Some (WaveTransformer.vector_to_wave vector)) /\
    -1 <= emotional_valence doc <= 1 /\
    0.5 <= importance doc <= 1 /\
    (String.length (content doc) <= 10000)%nat /\
    In (category doc) reachable_categories /\
    (100 <= String.length
              (strip (LibraryProcessor.extract_text_from_file lower file)))%nat.
Proof.
  intros lower strip encode file doc Hrun.
  split; [apply (process_file_wave lower strip encode file doc Hrun)|].
  revert Hrun. unfold LibraryProcessor.process_file.
  destruct (String.eqb _ "") eqn:Hempty; [discriminate|].
  destruct (Nat.ltb_spec
              (String.length
                 (strip (LibraryProcessor.extract_text_from_file lower file))) 100)
    as [_|Hlong]; [discriminate|]. cbn [orb].
  pose proof (category_is_reachable lower
                (LibraryProcessor.source_path file)
                (LibraryProcessor.source_suffix file)
                (LibraryProcessor.extract_text_from_file lower file)) as Hcat.
  destruct (LibraryProcessor.categorize_document lower _ _ _) as [cat kind].
  intros H. injection H as <-.
  cbn [emotional_valence importance content category fst] in *.
  split.
  { unfold LibraryProcessor.calculate_emotional_valence.
    match goal with
    | |- context [(?total =? 0)%Z] =>
        destruct (Z.eqb_spec total 0) as [_|Hne]; [lra|]
    end.
    apply valence_ratio_bounds; auto using keyword_score_nonneg. }
  split; [apply importance_range|].
  split; [apply substring_length_bound|].
  split; [exact Hcat | exact Hlong].
Qed.

Lemma process_file_makes_consistent_documents_witness :
  exists doc,
    LibraryProcessor.process_file ascii_lower (fun s => s) sample_encode sample_file
    = Some doc /\
    (exists vector,
        embedding doc = Some vector /\
        wave_pattern doc = Some (WaveTransformer.vector_to_wave vector)) /\
    -1 <= emotional_valence doc <= 1 /\
    0.5 <= importance doc <= 1 /\
    (String.length (content doc) <= 10000)%nat /\
    In (category doc) reachable_categories /\
    (100 <= String.length
              (LibraryProcessor.extract_text_from_file ascii_lower sample_file))%nat.
Proof.
  eexists. split; [reflexivity|].
  apply (process_file_makes_consistent_documents ascii_lower (fun s => s)
           sample_encode sample_file).
  reflexivity.
Defined.

(** X18. A file whose extension has no reader -- among them the [.tex]
    files that [scan_library] collects -- never becomes a document. *)
Theorem unreadable_extensions_yield_no_document :
  forall (lower strip : string -> string) (encode : string -> list R)
         (file : LibraryProcessor.SourceFile),
    among (lower (LibraryProcessor.source_suffix file)) readable_extensions = false ->
    LibraryProcessor.process_file lower strip encode file = None.
Proof.
  intros lower strip encode file Hext.
  unfold LibraryProcessor.process_file, LibraryProcessor.extract_text_from_file.
  unfold among, readable_extensions in Hext. cbn [existsb] in Hext.
  repeat (apply orb_false_elim in Hext; destruct Hext as [? Hext]).
  unfold among. cbn [existsb].
  repeat match goal with
         | H : String.eqb _ _ = false |- _ => rewrite H; clear H
         end.
  reflexivity.
Qed.

Lemma unreadable_extensions_yield_no_document_witness :
  LibraryProcessor.process_file ascii_lower (fun s => s) sample_encode tex_file
  = None.
Proof.
  apply (unreadable_extensions_yield_no_document ascii_lower (fun s => s)
           sample_encode tex_file).
  reflexivity.
Defined.

Lemma scan_library_waves (lower strip : string -> string)
    (encode : string -> list R) (files : list LibraryProcessor.SourceFile) :
  Forall (fun d => has_wave d = true)
         (LibraryProcessor.scan_library lower strip encode files) /\
  complete_waves (LibraryProcessor.scan_library lower strip encode files).
Proof.
  induction files as [|file rest [IHw IHc]]; simpl; [split; constructor|].
  destruct (LibraryProcessor.process_file lower strip encode file) as [doc|] eqn:Hp;
    [|split; assumption].
  destruct (process_file_wave lower strip encode file doc Hp) as [v [_ Hw]].
  split; constructor; try assumption.
  - unfold has_wave. now rewrite Hw.
  - intros w Hw'. rewrite Hw in Hw'. injection Hw' as <-. apply transform_complete.
Qed.

(** X19. The ingestion pipeline raises nothing on what the scanner
    produces: for any files, [ingest_documents] and
    [create_resonance_indices] return on the documents of [scan_library]
    (every one of them has a wave pattern, built by the transform). *)
Theorem pipeline_ingests_what_it_scans :
  forall (lower strip : string -> string) (encode : string -> list R)
         (files : list LibraryProcessor.SourceFile),
    (exists indices,
        Mem8Ingester.ingest_documents
          (LibraryProcessor.scan_library lower strip encode files) = Some indices) /\
    (exists graph,
        QdrantIngester.create_resonance_indices
          (LibraryProcessor.scan_library lower strip encode files) = Some graph).
Proof.
  intros lower strip encode files.
  destruct (scan_library_waves lower strip encode files) as [Hwaves Hcomplete].
  split.
  - apply (mem8_categories_defined _ _ Hwaves Hcomplete), group_members.
  - apply (qdrant_categories_defined _ _ Hcomplete), group_members.
Qed.

(** ** The Qdrant client: uploading *)

Lemma batches_cover {A} (s : nat) (m : nat) :
  forall l : list A,
    (List.length l <= m * s)%nat ->
    List.concat (map (QdrantWaveClient.batch_at s l)
                (map (fun k => (k * s)%nat) (seq 0 m))) = l.
Proof.
  induction m as [|m IH]; intros l Hlen.
  - destruct l; [reflexivity | simpl in Hlen; lia].
  - cbn [seq map List.concat]. rewrite <- seq_shift, !map_map.
    unfold QdrantWaveClient.batch_at at 1. cbn [Nat.mul skipn].
    rewrite (map_ext _ (fun k => QdrantWaveClient.batch_at s (skipn s l) (k * s)%nat)).
    + rewrite <- (map_map (fun k => (k * s)%nat)
                          (QdrantWaveClient.batch_at s (skipn s l))).
      rewrite IH by (rewrite length_skipn; lia).
      apply firstn_skipn.
    + intros k. unfold QdrantWaveClient.batch_at.
      rewrite skipn_skipn. do 2 f_equal. lia.
Qed.

Lemma batch_count_covers (n : nat) : (n <= (n + 100 - 1) / 100 * 100)%nat.
Proof.
  pose proof (Nat.div_mod_eq (n + 100 - 1) 100) as Hdm.
  pose proof (Nat.mod_upper_bound (n + 100 - 1) 100) as Hr. lia.
Qed.

Lemma batch_start_inside (n k : nat) :
  (k < (n + 100 - 1) / 100)%nat -> (k * 100 < n)%nat.
Proof.
  intros Hk. pose proof (Nat.div_mod_eq (n + 100 - 1) 100) as Hdm. lia.
Qed.

Lemma build_points_vectors (md5_id : string -> Z) (documents : list LibraryDocument) :
  Forall (fun point => QdrantWaveClient.point_vector point <> [])
         (QdrantWaveClient.build_points md5_id documents).
Proof.
  induction documents as [|doc rest IH]; simpl; [constructor|].
  destruct (embedding doc) as [[|x vector]|]; try exact IH.
  constructor; [simpl; discriminate | exact IH].
Qed.

(** X20. [upsert_documents] sends every point exactly once: the batches,
    put end to end, are the points built from the documents, no batch is
    empty or longer than 100, and no point has an empty vector (documents
    without an embedding are skipped). *)
Theorem upsert_sends_every_point_once :
  forall (md5_id : string -> Z) (documents : list LibraryDocument),
    List.concat (QdrantWaveClient.upsert_documents md5_id documents)
    = QdrantWaveClient.build_points md5_id documents /\
    Forall (fun batch => batch <> [] /\ (List.length batch <= 100)%nat)
           (QdrantWaveClient.upsert_documents md5_id documents) /\
    Forall (fun point => QdrantWaveClient.point_vector point <> [])
           (QdrantWaveClient.build_points md5_id documents).
Proof.
  intros md5_id documents. unfold QdrantWaveClient.upsert_documents.
  set (points := QdrantWaveClient.build_points md5_id documents).
  unfold QdrantWaveClient.range_step. split; [|split].
  - apply batches_cover, batch_count_covers.
  - apply Forall_forall. intros batch Hin.
    rewrite map_map in Hin. apply in_map_iff in Hin.
    destruct Hin as [k [<- Hk]]. apply in_seq in Hk.
    unfold QdrantWaveClient.batch_at. split.
    + assert (Hstart : (k * 100 < List.length points)%nat)
        by (apply batch_start_inside; lia).
      intros Hempty. apply (f_equal (@List.length _)) in Hempty.
      rewrite length_firstn, length_skipn in Hempty.
      change (List.length (@nil QdrantWaveClient.PointStruct)) with 0%nat in Hempty.
      lia.
    + rewrite length_firstn. lia.
  - apply build_points_vectors.
Qed.

(** ** The Qdrant client: searching *)

Lemma map_descending {A B} (key : A -> R) (key' : B -> R) (f : A -> B)
    (l : list A) :
  (forall x y, key x >= key y -> key' (f x) >= key' (f y)) ->
  descending key l -> descending key' (map f l).
Proof.
  intros Hmono. unfold descending.
  induction 1 as [|x l Hl IH Hx]; simpl; constructor; [exact IH|].
  rewrite Forall_forall in Hx |- *. intros y Hy.
  apply in_map_iff in Hy. destruct Hy as [z [<- Hz]]. apply Hmono, Hx, Hz.
Qed.

(** X21. [QdrantWaveClient.search] returns one result per hit, with the
    hit's id and in the server's order, in every emotional state and
    whatever the server answers; and it does not sort again: in every
    emotional state but graceland a descending list of hits stays descending
    (raw doubles every score, the other states change none). *)
Theorem client_search_keeps_the_order :
  forall (server : option QdrantWaveClient.Filter -> Z ->
                   list QdrantWaveClient.ScoredPoint)
         (top_k : Z) (category_filter : option string) (emotional_state : string),
    map QdrantWaveClient.formatted_id
      (QdrantWaveClient.search server top_k category_filter emotional_state)
    = map QdrantWaveClient.hit_id
        (server (QdrantWaveClient.build_filter category_filter emotional_state)
                top_k) /\
    (emotional_state <> "graceland" ->
     descending QdrantWaveClient.hit_score
       (server (QdrantWaveClient.build_filter category_filter emotional_state)
               top_k) ->
     descending QdrantWaveClient.formatted_score
       (QdrantWaveClient.search server top_k category_filter emotional_state)).
Proof.
  intros server top_k category_filter emotional_state.
  unfold QdrantWaveClient.search. split.
  - rewrite map_map. reflexivity.
  - intros Hstate Hsorted.
    apply (map_descending QdrantWaveClient.hit_score); [|exact Hsorted].
    intros x y Hxy. unfold QdrantWaveClient.format_hit. simpl.
    destruct (String.eqb_spec emotional_state "graceland") as [E|_];
      [contradiction|].
    destruct (String.eqb emotional_state "raw"); lra.
Qed.

Lemma client_search_keeps_the_order_witness :
  map QdrantWaveClient.formatted_id
    (QdrantWaveClient.search sample_server 10 None "graceland")
  = map QdrantWaveClient.hit_id (sample_server None 10) /\
  descending QdrantWaveClient.formatted_score
    (QdrantWaveClient.search sample_server 10 None "raw").
Proof.
  split.
  - apply (client_search_keeps_the_order sample_server 10 None "graceland").
  - apply (client_search_keeps_the_order sample_server 10 None "raw").
    + discriminate.
    + unfold descending. simpl. repeat constructor; simpl; lra.
Defined.

(** In the graceland state the scores are multiplied by 1 + |valence| and
    the order of the server can be lost. *)
Example graceland_can_break_the_order :
  ~ descending QdrantWaveClient.formatted_score
      (QdrantWaveClient.search sample_server 10 None "graceland").
Proof.
  unfold descending. simpl. intros H.
  inversion H as [|? ? _ Hfirst]; subst.
  inversion Hfirst as [|? ? Hge _]; subst. simpl in Hge.
  rewrite (Rabs_of_nonneg 0), (Rabs_of_nonneg 1) in Hge by lra. lra.
Qed.

(** X22. Without a category ([None] or the empty string)
    [QdrantWaveClient.search] sends no filter at all, whatever the emotional
    state: the conditions on emotional_valence and importance are only ever
    added to a category filter, whose only mandatory condition is the
    category. *)
Theorem emotional_conditions_need_a_category :
  forall (category_filter : option string) (emotional_state : string),
    (category_filter = None \/ category_filter = Some "" ->
     QdrantWaveClient.build_filter category_filter emotional_state = None) /\
    (forall f,
        QdrantWaveClient.build_filter category_filter emotional_state = Some f ->
        exists c,
          category_filter = Some c /\ c <> "" /\
          QdrantWaveClient.must f = [QdrantWaveClient.MatchValue "category" c]).
Proof.
  intros category_filter emotional_state. unfold QdrantWaveClient.build_filter.
  split.
  - intros [-> | ->]; simpl;
      destruct (String.eqb emotional_state "graceland");
      try destruct (String.eqb emotional_state "focused"); reflexivity.
  - intros f. destruct category_filter as [c|].
    + destruct (String.eqb_spec c "") as [->|Hc].
      * destruct (String.eqb emotional_state "graceland");
          try destruct (String.eqb emotional_state "focused"); discriminate.
      * destruct (String.eqb emotional_state "graceland");
          [|destruct (String.eqb emotional_state "focused")];
          simpl; intros H; injection H as <-; exists c; auto.
    + destruct (String.eqb emotional_state "graceland");
        try destruct (String.eqb emotional_state "focused"); discriminate.
Qed.

(** ** The interactive commands *)

(** X24. The three commands with an argument hand on exactly the text that
    follows the command word and its blank: the slice offsets 11, 5 and 10
    are the lengths of the three prefixes, and none of these lines is taken
    for [:quit], [:help] or [:stats].  A line that does not begin with a
    colon is searched whole, in the focused state. *)
Theorem commands_pass_their_argument :
  forall argument : string,
    InteractiveSearcher.dispatch (":graceland " ++ argument)
    = InteractiveSearcher.RunSearch argument "graceland" /\
    InteractiveSearcher.dispatch (":raw " ++ argument)
    = InteractiveSearcher.RunSearch argument "raw" /\
    InteractiveSearcher.dispatch (":category " ++ argument)
    = InteractiveSearcher.AskQuery argument /\
    (forall command,
        command <> "" ->
        starts_with ":" command = false ->
        InteractiveSearcher.dispatch command
        = InteractiveSearcher.RunSearch command "focused").
Proof.
  intros argument. repeat split; try reflexivity.
  intros [|first rest] Hcommand Hcolon; [congruence|].
  cbn [starts_with] in Hcolon. rewrite andb_true_r in Hcolon.
  unfold InteractiveSearcher.dispatch.
  cbn [String.eqb starts_with].
  match type of Hcolon with
  | Ascii.eqb ?colon _ = false =>
      assert (Hflip : Ascii.eqb first colon = false)
        by (rewrite Ascii.eqb_sym; exact Hcolon)
  end.
  rewrite !Hcolon, !Hflip. reflexivity.
Qed.

(** ** The tags of the transform *)

Lemma interval_of_names (ratio : R) (label : string) :
  WaveTransformer.interval_of ratio = Some label -> In label interval_names.
Proof.
  unfold WaveTransformer.interval_of, interval_names.
  repeat match goal with |- context [if ?t then _ else _] => destruct t end;
    intros H; try discriminate; injection H as <-; simpl; tauto.
Qed.

Lemma tag_loop_tags (freq : R) (others : list R) :
  forall j harmonics, exists fresh,
    WaveTransformer.tag_loop freq j others harmonics = harmonics ++ fresh /\
    Forall (fun tag => (j <= fst tag < j + List.length others)%nat /\
                       In (snd tag) interval_names) fresh /\
    StronglySorted lt (map fst fresh).
Proof.
  induction others as [|other rest IH]; intros j harmonics; simpl.
  - exists []. rewrite app_nil_r. repeat split; constructor.
  - destruct (WaveTransformer.interval_of _) as [label|] eqn:Hlabel.
    + destruct (IH (S j) (harmonics ++ [(j, label)])) as [fresh [Hrun [Hin Hsorted]]].
      exists ((j, label) :: fresh). rewrite Hrun, <- app_assoc.
      split; [reflexivity|]. split.
      * constructor; [simpl; split; [lia | apply (interval_of_names _ _ Hlabel)]|].
        rewrite Forall_forall in Hin |- *. intros tag Htag.
        destruct (Hin tag Htag) as [Hrange Hname]. split; [lia | exact Hname].
      * simpl. constructor; [exact Hsorted|].
        apply Forall_forall. intros k Hk. apply in_map_iff in Hk.
        destruct Hk as [tag [<- Htag]]. rewrite Forall_forall in Hin.
        destruct (Hin tag Htag) as [Hrange _]. lia.
    + destruct (IH (S j) harmonics) as [fresh [Hrun [Hin Hsorted]]].
      exists fresh. split; [exact Hrun|]. split; [|exact Hsorted].
      rewrite Forall_forall in Hin |- *. intros tag Htag.
      destruct (Hin tag Htag) as [Hrange Hname]. split; [lia | exact Hname].
Qed.

(** X25. The harmonic tags of the transform are causal: at position i of
    the wave of any vector there is a tag list, its tags name earlier
    positions only (j < i), each at most once and in increasing order, with
    one of the labels octave, fifth and fourth. *)
Theorem transform_tags_are_causal :
  forall (vector : list R) (i : nat),
    (i < List.length vector)%nat ->
    exists tags,
      WaveTransformer.harmonics_at (WaveTransformer.vector_to_wave vector) i
      = Some tags /\
      Forall (fun tag => (fst tag < i)%nat /\ In (snd tag) interval_names) tags /\
      StronglySorted lt (map fst tags).
Proof.
  intros vector i Hi. exists (position_tags i).
  split; [apply transform_harmonics_at, Hi|].
  unfold position_tags.
  destruct (tag_loop_tags (frequency_at i) (map frequency_at (seq 0 i)) 0 [])
    as [fresh [-> [Hin Hsorted]]].
  simpl. split; [|exact Hsorted].
  rewrite Forall_forall in Hin |- *. intros tag Htag.
  destruct (Hin tag Htag) as [Hrange Hname].
  rewrite length_map, length_seq in Hrange. split; [lia | exact Hname].
Qed.

Lemma transform_tags_are_causal_witness :
  exists tags,
    WaveTransformer.harmonics_at (WaveTransformer.vector_to_wave four_ones) 3
    = Some tags /\
    Forall (fun tag => (fst tag < 3)%nat /\ In (snd tag) interval_names) tags /\
    StronglySorted lt (map fst tags).
Proof.
  apply (transform_tags_are_causal four_ones 3). simpl. lia.
Defined.

(** ** The two graph builders agree *)

Lemma insert_desc_map {A B} (f : A -> B) (key : A -> R) (key' : B -> R)
    (x : A) (l : list A) :
  (forall a, key' (f a) = key a) ->
  insert_desc key' (f x) (map f l) = map f (insert_desc key x l).
Proof.
  intros Hkey. induction l as [|y l IH]; simpl; [reflexivity|].
  rewrite !Hkey. destruct (Rltb (key x) (key y)); simpl; [now rewrite IH | reflexivity].
Qed.

Lemma sort_desc_map {A B} (f : A -> B) (key : A -> R) (key' : B -> R)
    (l : list A) :
  (forall a, key' (f a) = key a) ->
  sort_desc key' (map f l) = map f (sort_desc key l).
Proof.
  intros Hkey. unfold sort_desc. induction l as [|x l IH]; simpl; [reflexivity|].
  rewrite IH. apply insert_desc_map, Hkey.
Qed.

(** The ten pairs Mem8 keeps are the first ten of the twenty links Qdrant
    keeps. *)
Lemma top_ten_of_top_twenty (links : list QdrantIngester.ResonanceLink) :
  firstn 10 (sort_desc snd (map link_pair links))
  = firstn 10 (map link_pair
                 (firstn 20 (sort_desc QdrantIngester.resonance links))).
Proof.
  rewrite (sort_desc_map link_pair QdrantIngester.resonance snd)
    by reflexivity.
  rewrite <- !firstn_map, firstn_firstn. reflexivity.
Qed.

Lemma mem8_resonances_without_wave (i : nat) (doc : LibraryDocument)
    (others : list LibraryDocument) :
  wave_pattern doc = None ->
  forall j resonances result,
    Mem8Ingester.resonances_loop i doc j others resonances = Some result ->
    result = resonances.
Proof.
  intros Hnone. induction others as [|other rest IH]; intros j resonances result;
    cbn [Mem8Ingester.resonances_loop].
  - intros H. now injection H.
  - destruct (negb (Nat.eqb i j)); [|apply IH].
    rewrite Hnone. cbn. discriminate.
Qed.

(** For a document with a wave pattern, a run of the Mem8 loop is a run of
    the Qdrant loop, link by link. *)
Lemma resonances_loops_agree (category : string) (i : nat)
    (doc : LibraryDocument) (wave1 : WavePattern)
    (others : list LibraryDocument) :
  wave_pattern doc = Some wave1 ->
  forall j links result,
    Mem8Ingester.resonances_loop i doc j others (map link_pair links)
    = Some result ->
    exists links',
      QdrantIngester.resonances_loop category i wave1 j others links
      = Some links' /\
      result = map link_pair links'.
Proof.
  intros Hwave. induction others as [|other rest IH]; intros j links result;
    cbn [Mem8Ingester.resonances_loop QdrantIngester.resonances_loop].
  - intros H. injection H as <-. eauto.
  - destruct (Nat.eqb i j); cbn [negb]; [apply IH|].
    rewrite Hwave. unfold WaveTransformer.calculate_resonance_opt. cbn [bind].
    destruct (wave_pattern other) as [wave2|]; cbn [bind]; [|discriminate].
    destruct (WaveTransformer.calculate_resonance wave1 wave2) as [r|];
      cbn [bind]; [|discriminate].
    destruct (Rgtb r 0.5); [|apply IH].
    intros Hrun. apply IH. rewrite map_app. exact Hrun.
Qed.

Lemma graph_agrees_set (k : string) (links : list QdrantIngester.ResonanceLink)
    (graph_m : PyDict.dict (list (string * R)))
    (graph_q : PyDict.dict (list QdrantIngester.ResonanceLink)) :
  graph_agrees graph_m graph_q ->
  graph_agrees
    (PyDict.set k (firstn 10 (map link_pair links)) graph_m)
    (PyDict.set k links graph_q).
Proof.
  intros Hagree k' links_m.
  destruct (String.eqb_spec k' k) as [->|Hne].
  - rewrite !dict_get_set_same. intros H. injection H as <-. eauto.
  - rewrite !dict_get_set_other by exact Hne. apply Hagree.
Qed.

Lemma docs_loops_agree (category : string) (docs pending : list LibraryDocument) :
  forall i index data result,
    graph_agrees (Mem8Ingester.resonance_graph index) data ->
    Mem8Ingester.index_loop i pending docs index = Some result ->
    exists data',
      QdrantIngester.docs_loop category i pending docs data = Some data' /\
      graph_agrees (Mem8Ingester.resonance_graph result) data'.
Proof.
  induction pending as [|doc rest IH]; intros i index data result Hagree;
    cbn [Mem8Ingester.index_loop QdrantIngester.docs_loop].
  - intros H. injection H as <-. eauto.
  - destruct (Mem8Ingester.resonances_loop i doc 0 docs []) as [rs|] eqn:Hrs;
      cbn [bind]; [|discriminate].
    destruct (wave_pattern doc) as [wave1|] eqn:Hwave.
    + destruct (resonances_loops_agree category i doc wave1 docs Hwave
                  0%nat [] rs Hrs) as [links [Hlinks ->]].
      rewrite Hlinks. cbn [bind]. apply IH.
      cbn [Mem8Ingester.resonance_graph].
      destruct links as [|link links']; [exact Hagree|].
      cbn [map]. change (link_pair link :: map link_pair links')
        with (map link_pair (link :: links')).
      rewrite top_ten_of_top_twenty. apply graph_agrees_set, Hagree.
    + apply (mem8_resonances_without_wave i doc docs Hwave) in Hrs. subst rs.
      apply IH. exact Hagree.
Qed.

(** The Qdrant loops write only under the ids of the documents they visit. *)
Lemma qdrant_docs_loop_stable (category : string) (k : string)
    (docs pending : list LibraryDocument) :
  ~ In k (map id pending) ->
  forall i data result,
    QdrantIngester.docs_loop category i pending docs data = Some result ->
    PyDict.get k result = PyDict.get k data.
Proof.
  induction pending as [|doc rest IH]; intros Hk i data result;
    cbn [QdrantIngester.docs_loop].
  - intros H. now injection H as <-.
  - assert (Hrest : ~ In k (map id rest)) by (intros H; apply Hk; right; exact H).
    assert (Hdoc : k <> id doc) by (intros H; apply Hk; left; auto).
    destruct (wave_pattern doc) as [wave1|]; [|apply IH, Hrest].
    destruct (QdrantIngester.resonances_loop _ _ _ _ _ _) as [[|link links]|];
      cbn [bind]; [apply IH, Hrest | | discriminate].
    intros Hrun. rewrite (IH Hrest _ _ _ Hrun).
    apply dict_get_set_other, Hdoc.
Qed.

Lemma qdrant_category_loop_stable (k : string)
    (categories : PyDict.dict (list LibraryDocument)) :
  (forall c docs, In (c, docs) categories -> ~ In k (map id docs)) ->
  forall data result,
    QdrantIngester.category_loop categories data = Some result ->
    PyDict.get k result = PyDict.get k data.
Proof.
  induction categories as [|[c docs] rest IH]; intros Hk data result;
    cbn [QdrantIngester.category_loop].
  - intros H. now injection H as <-.
  - destruct (QdrantIngester.docs_loop c 0 docs docs data) as [data'|] eqn:Hdocs;
      cbn [bind]; [|discriminate].
    intros Hrun.
    rewrite (IH (fun c' docs' H => Hk c' docs' (or_intror H)) _ _ Hrun).
    apply (qdrant_docs_loop_stable c k docs docs (Hk c docs (or_introl eq_refl))
             _ _ _ Hdocs).
Qed.

(** Documents of different categories have different ids, when ids are
    unique. *)
Lemma ids_apart (documents : list LibraryDocument) (c c' : string) (k : string) :
  NoDup (map id documents) ->
  c <> c' ->
  In k (map id (docs_of c documents)) ->
  ~ In k (map id (docs_of c' documents)).
Proof.
  unfold docs_of. induction documents as [|d rest IH]; simpl; [tauto|].
  intros Hnd Hne. inversion Hnd as [|? ? Hnot Hrest]; subst.
  assert (Hsub : forall c0, In k (map id (filter (fun doc => String.eqb (category doc) c0) rest))
                            -> In k (map id rest)).
  { intros c0 H. apply in_map_iff in H. destruct H as [x [Hx H]].
    apply filter_In in H. apply in_map_iff. exists x. tauto. }
  destruct (String.eqb_spec (category d) c) as [Hc|Hc];
    destruct (String.eqb_spec (category d) c') as [Hc'|Hc']; simpl.
  - congruence.
  - intros [<-|H] H'; [apply Hnot, (Hsub c'), H' | exact (IH Hrest Hne H H')].
  - intros H [<-|H']; [apply Hnot, (Hsub c), H | exact (IH Hrest Hne H H')].
  - apply IH; assumption.
Qed.

Lemma category_loops_agree (documents : list LibraryDocument)
    (categories : PyDict.dict (list LibraryDocument)) :
  NoDup (map id documents) ->
  (forall c docs, In (c, docs) categories -> docs = docs_of c documents) ->
  NoDup (map fst categories) ->
  forall written data result,
    Mem8Ingester.category_loop categories written = Some result ->
    exists fresh graph,
      result = written ++ fresh /\
      QdrantIngester.category_loop categories data = Some graph /\
      Forall (fun index =>
                graph_agrees (Mem8Ingester.resonance_graph index) graph) fresh.
Proof.
  intros Hids.
  induction categories as [|[c docs] rest IH]; intros Hgroups Hnd written data result;
    cbn [Mem8Ingester.category_loop QdrantIngester.category_loop].
  - intros H. injection H as <-. exists [], data. rewrite app_nil_r. auto.
  - destruct (Mem8Ingester.index_loop 0 docs docs _) as [index|] eqn:Hindex;
      cbn [bind]; [|discriminate].
    intros Hrun.
    assert (Hempty : graph_agrees [] data)
      by (intros k links H; discriminate H).
    pose proof Hindex as Hstep.
    eapply (docs_loops_agree c) in Hstep; [|exact Hempty].
    destruct Hstep as [data' [Hdata Hagree]].
    rewrite Hdata. cbn [bind].
    inversion Hnd as [|? ? Hnot Hrest]; subst.
    destruct (IH (fun c' docs' H => Hgroups c' docs' (or_intror H)) Hrest
                _ data' _ Hrun) as [fresh [graph [-> [Hgraph Hfresh]]]].
    exists (index :: fresh), graph. rewrite <- app_assoc.
    split; [reflexivity|]. split; [exact Hgraph|].
    constructor; [|exact Hfresh].
    intros k links_m Hget.
    destruct (Hagree k links_m Hget) as [links_q [Hq Hm]].
    exists links_q. split; [|exact Hm].
    rewrite <- Hq. apply (qdrant_category_loop_stable k rest); [|exact Hgraph].
    intros c' docs' Hin.
    rewrite (Hgroups c' docs' (or_intror Hin)).
    apply (ids_apart documents c c' k Hids).
    + intros ->. apply Hnot. apply in_map_iff. exists (c', docs'). auto.
    + destruct (mem8_index_origin docs docs 0 _ index (fun p => eq_refl) Hindex)
        as [_ [_ [_ Horigin]]].
      destruct (Horigin k links_m (dict_get_in _ _ _ Hget))
        as [[]|[p [d1 [Hp [Hid _]]]]].
      rewrite <- (Hgroups c docs (or_introl eq_refl)).
      apply in_map_iff. exists d1. split; [exact Hid|].
      eapply nth_error_In, Hp.
Qed.

(** X26. Whenever [Mem8Ingester.ingest_documents] returns on documents with
    unique ids, [QdrantIngester.create_resonance_indices] returns on them
    too, and every neighbour list of every Mem8 category index is the first
    ten links, as (id, score) pairs, of the list the Qdrant graph holds under
    the same document id. *)
Theorem mem8_graph_heads_qdrant_graph :
  forall (documents : list LibraryDocument)
         (indices : list Mem8Ingester.CategoryIndex),
    NoDup (map id documents) ->
    Mem8Ingester.ingest_documents documents = Some indices ->
    exists graph,
      QdrantIngester.create_resonance_indices documents = Some graph /\
      Forall (fun index =>
                graph_agrees (Mem8Ingester.resonance_graph index) graph)
             indices.
Proof.
  intros documents indices Hids Hrun.
  destruct (category_loops_agree documents (group_by_category documents [])
              Hids (group_members documents)
              (group_by_category_keys_nodup documents [] (NoDup_nil _))
              [] [] indices Hrun)
    as [fresh [graph [-> [Hgraph Hfresh]]]].
  exists graph. split; [exact Hgraph | exact Hfresh].
Qed.

Lemma twin_docs_ids : NoDup (map id twin_docs).
Proof.
  repeat constructor; simpl; intuition discriminate.
Qed.

Lemma mem8_graph_heads_qdrant_graph_witness :
  exists graph,
    QdrantIngester.create_resonance_indices twin_docs = Some graph /\
    Forall (fun index =>
              graph_agrees (Mem8Ingester.resonance_graph index) graph)
           [twin_index].
Proof.
  apply (mem8_graph_heads_qdrant_graph twin_docs [twin_index]).
  - exact twin_docs_ids.
  - exact twin_docs_ingested.
Defined.
